(** * Installation-state reconciliation of the claude-code-docs installer

    A shallow embedding of the decision logic of [install.py] and
    [uninstall.py]: the version-control gateway (status classification and
    the force-clean checkout), the reconciliation engine (update in place,
    migration, fresh clone), the cleanup policy, the post-processing of the
    legacy-installation scanner and the rewriting of the hooks section of the
    settings document.

    Python text is modelled by [string] (characters are the code points
    below 256), decoded JSON by an inductive type, paths by their list of
    components, and the effectful methods by a state-and-exception monad over
    a world that holds the file system, the working directory and the
    trace of external effects.  Everything external (the git executable,
    [shutil.rmtree] failures, the operator's answer) is an oracle of the
    environment that may depend on the whole history. *)

From Stdlib Require Import String Ascii List ZArith Bool Lia Arith.
From Stdlib Require Import Sorting.Sorted Sorting.Permutation Sorting.Mergesort.
From Stdlib Require Import Orders DecimalString.
Import ListNotations.

Local Open Scope string_scope.
Local Open Scope list_scope.

(** String concatenation, kept apart from list concatenation. *)
Notation "a ^^ b" := (String.append a b) (at level 60, right associativity).

(** ** Python text primitives *)

Module Text.

(** [str.isspace] on one character: TAB..CR, FS..US, space, NEL and the
    no-break space are the whitespace code points below 256. *)
Definition isspace (c : ascii) : bool :=
  let n := nat_of_ascii c in
  (((9 <=? n) && (n <=? 13)) || ((28 <=? n) && (n <=? 32))
   || (n =? 133) || (n =? 160))%nat.

Fixpoint lstrip (s : string) : string :=
  match s with
  | EmptyString => EmptyString
  | String c s' => if isspace c then lstrip s' else s
  end.

Fixpoint rstrip (s : string) : string :=
  match s with
  | EmptyString => EmptyString
  | String c s' =>
      match rstrip s' with
      | EmptyString => if isspace c then EmptyString else String c EmptyString
      | r => String c r
      end
  end.

(** [s.strip()] *)
Definition strip (s : string) : string := rstrip (lstrip s).

(** Truth value of a Python string: non-empty. *)
Definition truthy (s : string) : bool :=
  match s with EmptyString => false | String _ _ => true end.

(** [s.split(sep)] for a one-character separator: never the empty list. *)
Fixpoint split (sep : ascii) (s : string) : list string :=
  match s with
  | EmptyString => [EmptyString]
  | String c s' =>
      if Ascii.eqb c sep then EmptyString :: split sep s'
      else match split sep s' with
           | l :: ls => String c l :: ls
           | [] => [String c EmptyString]
           end
  end.

Definition newline : ascii := ascii_of_nat 10.

(** [s.startswith(p)] *)
Definition startswith (p s : string) : bool := String.prefix p s.

(** [sub in s] *)
Fixpoint contains (sub s : string) : bool :=
  String.prefix sub s ||
  match s with
  | EmptyString => false
  | String _ s' => contains sub s'
  end.

(** [s.endswith(p)] *)
Fixpoint endswith (p s : string) : bool :=
  String.eqb p s ||
  match s with
  | EmptyString => false
  | String _ s' => endswith p s'
  end.

(** [s[n:]] *)
Fixpoint drop (n : nat) (s : string) : string :=
  match n, s with
  | O, _ => s
  | S _, EmptyString => EmptyString
  | S n', String _ s' => drop n' s'
  end.

(** Every character is whitespace. *)
Fixpoint all_space (s : string) : bool :=
  match s with
  | EmptyString => true
  | String c s' => isspace c && all_space s'
  end.

(** No character is whitespace. *)
Fixpoint no_space (s : string) : bool :=
  match s with
  | EmptyString => true
  | String c s' => negb (isspace c) && no_space s'
  end.

End Text.

Import Text.

(** [s.lower()] on the code points below 256. *)
Definition lower_char (c : ascii) : ascii :=
  let n := nat_of_ascii c in
  if (((65 <=? n) && (n <=? 90))
      || ((192 <=? n) && (n <=? 222) && negb (n =? 215)))%nat
  then ascii_of_nat (n + 32) else c.

Fixpoint lower (s : string) : string :=
  match s with
  | EmptyString => EmptyString
  | String c s' => String (lower_char c) (lower s')
  end.

(** [str(n)] for a natural number. *)
Definition str_nat (n : nat) : string := NilEmpty.string_of_uint (Nat.to_uint n).

(** ** Paths and the file system *)

(** An absolute path is the list of its components below the root. *)
Definition path := list string.

Definition path_eq_dec : forall p q : path, {p = q} + {p <> q} :=
  list_eq_dec string_dec.

Definition path_eqb (p q : path) : bool :=
  if path_eq_dec p q then true else false.

(** [under p q]: [q] is [p] or lies beneath it. *)
Fixpoint under (p q : path) : bool :=
  match p, q with
  | [], _ => true
  | _ :: _, [] => false
  | a :: p', b :: q' => String.eqb a b && under p' q'
  end.

(** [str(path)] on a POSIX system. *)
Definition str_path (p : path) : string :=
  match p with
  | [] => "/"
  | _ => fold_right (fun c acc => "/" ^^ c ^^ acc) "" p
  end.

(** [path.parent] *)
Definition parent (p : path) : path := removelast p.

(** [path / c] *)
Definition child (p : path) (c : string) : path := p ++ [c].

Inductive kind : Type := File | Dir.

Definition filesystem := path -> option kind.

(** The initial segments of a path, the path itself included. *)
Fixpoint ancestors (p : path) : list path :=
  match p with
  | [] => [[]]
  | c :: p' => [] :: map (cons c) (ancestors p')
  end.

(** ** The world and its environment *)

Record completed : Type := Completed
  { returncode : Z; stdout : string; stderr : string }.

(** An exception: the name of its class and its message. *)
Record exn : Type := Exn { exn_class : string; exn_msg : string }.

(** The external effects a run performs, in the order it performs them. *)
Inductive event : Type :=
| Git (args : list string) (cwd : option path) (timeout : Z)
| Rmtree (p : path)
| Mkdir (p : path)
| Chdir (p : path)
| Input (prompt : string)
| Print (line : string).

Record world : Type := World
  { fs : filesystem; cwd : path; trace : list event }.

(** What the surroundings answer.  Every oracle reads the world at the
    moment of the call, trace included, so an answer may depend on all that
    happened before.
    - [git_answer args cwd w] is the completed process of the git
      subcommand, or [None] when running it raises (no executable found, the
      timeout expired, the operating system refused);
    - [clone_tree w] lists what [git clone] writes, relative to its
      destination;
    - [rmtree_error], [mkdir_error] make the call fail with an exception;
    - [input_answer] is the line the operator types, [None] at end of input
      or on an interrupt. *)
Record environment : Type := Environment
  { git_answer : list string -> option path -> world -> option completed;
    clone_tree : world -> list (path * kind);
    rmtree_error : path -> world -> option exn;
    mkdir_error : path -> world -> option exn;
    input_answer : string -> world -> option string }.

(** ** A state-and-exception monad *)

Inductive outcome (A : Type) : Type :=
| Ret (a : A)
| Raise (e : exn).
Arguments Ret {A} a.
Arguments Raise {A} e.

Definition M (A : Type) : Type := world -> outcome A * world.

Definition ret {A} (a : A) : M A := fun w => (Ret a, w).

Definition bind {A B} (m : M A) (k : A -> M B) : M B :=
  fun w => match m w with
           | (Ret a, w') => k a w'
           | (Raise e, w') => (Raise e, w')
           end.

(** [try: m except Exception as e: h e] *)
Definition try {A} (m : M A) (h : exn -> M A) : M A :=
  fun w => match m w with
           | (Ret a, w') => (Ret a, w')
           | (Raise e, w') => h e w'
           end.

Declare Scope monad_scope.
Delimit Scope monad_scope with monad.
Notation "x <- m ;; k" := (bind m (fun x => k))
  (at level 61, m at next level, right associativity) : monad_scope.
Notation "m ;;; k" := (bind m (fun _ => k))
  (at level 61, right associativity) : monad_scope.
Local Open Scope monad_scope.

Definition emit (e : event) : M unit :=
  fun w => (Ret tt, World (fs w) (cwd w) (trace w ++ [e])).

Definition print (line : string) : M unit := emit (Print line).

Definition path_exists (p : path) : M bool :=
  fun w => (Ret (match fs w p with Some _ => true | None => false end), w).

Definition is_dir (p : path) : M bool :=
  fun w => (Ret (match fs w p with Some Dir => true | _ => false end), w).

(** The file system without [p] and everything beneath it. *)
Definition remove_tree (p : path) (f : filesystem) : filesystem :=
  fun q => if under p q then None else f q.

(** The file system with the entries of [tree] written beneath [dest]. *)
Definition write_tree (dest : path) (tree : list (path * kind))
  (f : filesystem) : filesystem :=
  fun q => match find (fun e => path_eqb (dest ++ fst e) q) tree with
           | Some e => Some (snd e)
           | None => f q
           end.

(** The file system with every listed path a directory. *)
Definition make_dirs (ps : list path) (f : filesystem) : filesystem :=
  fun q => if existsb (path_eqb q) ps then Some Dir else f q.

Section Primitives.

Variable E : environment.

(** [shutil.rmtree(p)]: raises when [p] is missing or not a directory, or
    when the environment makes it fail; the model leaves the file system as
    it was in that case. *)
Definition rmtree (p : path) : M unit :=
  emit (Rmtree p) ;;;
  fun w =>
    match fs w p with
    | None => (Raise (Exn "FileNotFoundError" (str_path p)), w)
    | Some File => (Raise (Exn "NotADirectoryError" (str_path p)), w)
    | Some Dir =>
        match rmtree_error E p w with
        | Some e => (Raise e, w)
        | None => (Ret tt, World (remove_tree p (fs w)) (cwd w) (trace w))
        end
    end.

(** [p.mkdir(parents=True, exist_ok=True)] *)
Definition mkdir_parents (p : path) : M unit :=
  emit (Mkdir p) ;;;
  fun w =>
    match mkdir_error E p w with
    | Some e => (Raise e, w)
    | None =>
        if existsb (fun a => match fs w a with Some File => true | _ => false end)
             (ancestors p)
        then (Raise (Exn "FileExistsError" (str_path p)), w)
        else (Ret tt, World (make_dirs (ancestors p) (fs w)) (cwd w) (trace w))
    end.

(** [os.chdir(p)] *)
Definition chdir (p : path) : M unit :=
  emit (Chdir p) ;;;
  fun w =>
    match fs w p with
    | Some Dir => (Ret tt, World (fs w) p (trace w))
    | _ => (Raise (Exn "FileNotFoundError" (str_path p)), w)
    end.

(** [input(prompt)] *)
Definition input (prompt : string) : M string :=
  fun w =>
    let w' := World (fs w) (cwd w) (trace w ++ [Input prompt]) in
    match input_answer E prompt w with
    | Some s => (Ret s, w')
    | None => (Raise (Exn "EOFError" ""), w')
    end.

(** Running one git subcommand: the event is recorded, then the environment
    answers.  Of all subcommands only [clone] is given an effect on the
    modelled file system (the tree it writes beneath [dest]); the others
    change the content of a working copy, which the modelled decisions read
    through git itself, that is, through later answers. *)
Definition git (args : list string) (cwd_ : option path) (timeout : Z)
  (clone_dest : option path) : M completed :=
  fun w =>
    let w' := World (fs w) (cwd w) (trace w ++ [Git args cwd_ timeout]) in
    match git_answer E args cwd_ w with
    | None => (Raise (Exn "RuntimeError" "Git command failed to run"), w')
    | Some c =>
        match clone_dest with
        | None => (Ret c, w')
        | Some dest =>
            (Ret c, World (write_tree dest (clone_tree E w) (fs w')) (cwd w')
                      (trace w'))
        end
    end.

End Primitives.

(** The order of [Path] objects: component lists compared
    lexicographically, components by code point. *)
Fixpoint path_leb (p q : path) : bool :=
  match p, q with
  | [], _ => true
  | _ :: _, [] => false
  | a :: p', b :: q' =>
      match String.compare a b with
      | Lt => true
      | Gt => false
      | Eq => path_leb p' q'
      end
  end.

Lemma path_leb_total (p q : path) : path_leb p q = true \/ path_leb q p = true.
Proof.
  revert q; induction p as [|a p IH]; intros [|b q]; simpl; auto.
  rewrite (String.compare_antisym b a).
  destruct (String.compare a b); simpl; auto.
Qed.

Module PathOrder <: TotalLeBool.
Definition t := path.
Definition leb := path_leb.
Definition leb_total := path_leb_total.
End PathOrder.

(** [list.sort()] on paths. *)
Module PathSort := Sort PathOrder.

(** ** Decoded JSON and the Python operations applied to it *)

(** What [json.load] returns.  A dict keeps its items in insertion order; a
    number is kept as an integer (no modelled code inspects one). *)
#[local] Set Warnings "-register-all".
Inductive json : Type :=
| JNull
| JBool (b : bool)
| JNum (n : Z)
| JStr (s : string)
| JList (l : list json)
| JDict (items : list (string * json)).

Module Py.

Definition dict_has (k : string) (items : list (string * json)) : bool :=
  existsb (fun e => String.eqb k (fst e)) items.

Fixpoint dict_get (k : string) (items : list (string * json)) : option json :=
  match items with
  | [] => None
  | (k', v) :: rest => if String.eqb k k' then Some v else dict_get k rest
  end.

(** [d[k] = v]: an existing key keeps its place, a new one goes last. *)
Fixpoint dict_set (k : string) (v : json) (items : list (string * json))
  : list (string * json) :=
  match items with
  | [] => [(k, v)]
  | (k', v') :: rest =>
      if String.eqb k k' then (k', v) :: rest else (k', v') :: dict_set k v rest
  end.

(** [del d[k]] *)
Definition dict_del (k : string) (items : list (string * json))
  : list (string * json) :=
  filter (fun e => negb (String.eqb k (fst e))) items.

(** [k in v] for a string [k]; [None] is a [TypeError]. *)
Definition contains_key (k : string) (v : json) : option bool :=
  match v with
  | JDict items => Some (dict_has k items)
  | JList l =>
      Some (existsb (fun x => match x with
                              | JStr s => String.eqb k s
                              | _ => false
                              end) l)
  | JStr s => Some (contains k s)
  | _ => None
  end.

(** [v[k]] for a string [k]; [None] is a [KeyError] or a [TypeError]. *)
Definition getitem (v : json) (k : string) : option json :=
  match v with
  | JDict items => dict_get k items
  | _ => None
  end.

(** [v[k] = x] for a string [k]; [None] is a [TypeError]. *)
Definition setitem (v : json) (k : string) (x : json) : option json :=
  match v with
  | JDict items => Some (JDict (dict_set k x items))
  | _ => None
  end.

(** [del v[k]] for a key that is present. *)
Definition delitem (v : json) (k : string) : option json :=
  match v with
  | JDict items => Some (JDict (dict_del k items))
  | _ => None
  end.

(** The elements [for x in v] runs through; [None] is a [TypeError]. *)
Definition iterate (v : json) : option (list json) :=
  match v with
  | JList l => Some l
  | JDict items => Some (map (fun e => JStr (fst e)) items)
  | JStr s => Some (map (fun c => JStr (String c EmptyString))
                        (list_ascii_of_string s))
  | _ => None
  end.

(** [bool(v)] *)
Definition truth (v : json) : bool :=
  match v with
  | JNull => false
  | JBool b => b
  | JNum n => negb (n =? 0)%Z
  | JStr s => truthy s
  | JList l => match l with [] => false | _ => true end
  | JDict items => match items with [] => false | _ => true end
  end.

(** [isinstance(v, dict) and k in v] *)
Definition is_dict_with (k : string) (v : json) : bool :=
  match v with JDict items => dict_has k items | _ => false end.

(** [v.get(k, [])] on a dict. *)
Definition get_or_empty_list (k : string) (v : json) : json :=
  match getitem v k with Some x => x | None => JList [] end.

(** Binding in the option monad: [None] stands for a raised exception. *)
Definition obind {A B} (m : option A) (k : A -> option B) : option B :=
  match m with Some a => k a | None => None end.

End Py.

Notation "x <~ m ;; k" := (Py.obind m (fun x => k))
  (at level 61, m at next level, right associativity).

(** The canonical directory-name substring looked for in hook commands. *)
Definition TOOL : string := "claude-code-docs".

(** ** The installer ([install.py]) *)

Module Install.

Definition INSTALL_BRANCH : string := "main".
Definition REPO_URL : string := "https://github.com/ericbuess/claude-code-docs.git".
Definition MANIFEST : string := "docs/docs_manifest.json".

(** [install_dir / "docs" / "docs_manifest.json"] *)
Definition manifest_file (dir : path) : path := dir ++ ["docs"; "docs_manifest.json"].

(** The part of [_git_has_uncommitted_changes] that reads the output of a
    [status --porcelain] that exited with code 0. *)
Definition status_has_changes (out : string) (exclude_manifest : bool) : bool :=
  let changes := strip out in
  if negb (truthy changes) then false
  else if exclude_manifest then
    let filtered_changes :=
      filter (fun line => truthy (strip line) && negb (contains MANIFEST line))
             (split newline changes) in
    (0 <? length filtered_changes)%nat
  else true.

(** [line.startswith(('UU', 'AA', 'DD'))] *)
Definition conflict_marker (line : string) : bool :=
  startswith "UU" line || startswith "AA" line || startswith "DD" line.

(** The part of [_git_has_conflicts] that reads the status output. *)
Definition status_has_conflicts (out : string) (exclude_manifest : bool) : bool :=
  let changes := strip out in
  if negb (truthy changes) then false
  else
    let conflict_lines :=
      filter (fun line =>
                truthy (strip line) && conflict_marker line
                && negb (exclude_manifest && contains MANIFEST line))
             (split newline changes) in
    (0 <? length conflict_lines)%nat.

Definition temp_extensions : list string := [".tmp"; ".log"; ".swp"].

(** The part of [_git_has_untracked_files] that reads the status output. *)
Definition status_has_untracked (out : string) : bool :=
  let changes := strip out in
  if negb (truthy changes) then false
  else
    existsb (fun line =>
               truthy (strip line) && startswith "??" line
               && let filename := strip (drop 3 line) in
                  negb (existsb (fun ext => endswith ext filename) temp_extensions))
            (split newline changes).

Section Installer.

Variable E : environment.

(** [self.install_dir], the canonical target path. *)
Variable install_dir : path.

(** [_run_git_command(args, cwd, timeout)] with [check=False]. *)
Definition _run_git_command (args : list string) (cwd_ : option path)
  (timeout : Z) : M completed :=
  git E args cwd_ timeout None.

Definition _git_get_current_branch (repo_dir : path) : M string :=
  try (result <- _run_git_command ["rev-parse"; "--abbrev-ref"; "HEAD"]
                   (Some repo_dir) 30 ;;
       if (returncode result =? 0)%Z then ret (strip (stdout result))
       else ret "unknown")
      (fun _ => ret "unknown").

Definition _git_has_uncommitted_changes (repo_dir : path)
  (exclude_manifest : bool) : M bool :=
  try (result <- _run_git_command ["status"; "--porcelain"] (Some repo_dir) 30 ;;
       if negb (returncode result =? 0)%Z then ret false
       else ret (status_has_changes (stdout result) exclude_manifest))
      (fun _ => ret false).

Definition _git_has_conflicts (repo_dir : path)
  (exclude_manifest : bool) : M bool :=
  try (result <- _run_git_command ["status"; "--porcelain"] (Some repo_dir) 30 ;;
       if negb (returncode result =? 0)%Z then ret false
       else ret (status_has_conflicts (stdout result) exclude_manifest))
      (fun _ => ret false).

Definition _git_has_untracked_files (repo_dir : path) : M bool :=
  try (result <- _run_git_command ["status"; "--porcelain"] (Some repo_dir) 30 ;;
       if negb (returncode result =? 0)%Z then ret false
       else ret (status_has_untracked (stdout result)))
      (fun _ => ret false).

Definition _git_abort_operations (repo_dir : path) : M unit :=
  try (_run_git_command ["merge"; "--abort"] (Some repo_dir) 30 ;;; ret tt)
      (fun _ => ret tt) ;;;
  try (_run_git_command ["rebase"; "--abort"] (Some repo_dir) 30 ;;; ret tt)
      (fun _ => ret tt).

Definition _git_force_clean_checkout (repo_dir : path)
  (target_branch : string) : M bool :=
  try (_run_git_command ["reset"] (Some repo_dir) 30 ;;;
       result <- _run_git_command
                   ["checkout"; "-B"; target_branch; "origin/" ^^ target_branch]
                   (Some repo_dir) 30 ;;
       if negb (returncode result =? 0)%Z then ret false
       else
         result <- _run_git_command
                     ["reset"; "--hard"; "origin/" ^^ target_branch]
                     (Some repo_dir) 30 ;;
         if negb (returncode result =? 0)%Z then ret false
         else
           _run_git_command ["clean"; "-fd"] (Some repo_dir) 30 ;;;
           ret true)
      (fun _ => ret false).

(** [if c: m] *)
Definition when (c : bool) (m : M unit) : M unit := if c then m else ret tt.

(** The confirmation dialogue of [_safe_git_update]: [true] when the
    operator accepts. *)
Definition confirm_discard : M bool :=
  try (response <- input E "Continue and discard local changes? [y/N]: " ;;
       let response := lower (strip response) in
       if negb (String.eqb response "y" || String.eqb response "yes") then
         print "Installation cancelled. Your local changes are preserved." ;;;
         print "To proceed later, either:" ;;;
         print "  1. Manually resolve the issues, or" ;;;
         print "  2. Run the installer again and choose 'y' to discard changes" ;;;
         ret false
       else ret true)
      (fun _ => print (String newline "Installation cancelled.") ;;; ret false).

(** The branch of [_safe_git_update] taken when nothing blocks: a note when
    the manifest file is the only change. *)
Definition note_manifest_changes (repo_dir : path) : M unit :=
  result <- _run_git_command ["status"; "--porcelain"] (Some repo_dir) 30 ;;
  if (returncode result =? 0)%Z then
    let manifest_changes :=
      filter (fun line => truthy (strip line) && contains MANIFEST line)
             (split newline (stdout result)) in
    match manifest_changes with
    | [] => ret tt
    | _ =>
        match filter (startswith "UU") manifest_changes with
        | [] => print "  Handling manifest file updates automatically..."
        | _ => print "  Resolving manifest file conflicts automatically..."
        end
    end
  else ret tt.

Definition _safe_git_update (repo_dir : path) : M bool :=
  try (current_branch <- _git_get_current_branch repo_dir ;;
       let target_branch := INSTALL_BRANCH in
       (if negb (String.eqb current_branch target_branch)
        then print ("  Switching from " ^^ current_branch ^^ " to "
                    ^^ target_branch ^^ " branch...")
        else print ("  Updating " ^^ target_branch ^^ " branch...")) ;;;
       try (result <- _run_git_command ["config"; "pull.rebase"] (Some repo_dir) 30 ;;
            if negb (returncode result =? 0)%Z then
              _run_git_command ["config"; "pull.rebase"; "false"] (Some repo_dir) 30 ;;;
              ret tt
            else ret tt)
           (fun _ => ret tt) ;;;
       print "Updating to latest version..." ;;;
       pulled <- try (result <- _run_git_command
                                  ["pull"; "--quiet"; "origin"; target_branch]
                                  (Some repo_dir) 60 ;;
                      ret (returncode result =? 0)%Z)
                     (fun _ => ret false) ;;
       if pulled then ret true
       else
         print "  Standard update failed, trying harder..." ;;;
         fetched <- try (result <- _run_git_command
                                     ["fetch"; "origin"; target_branch]
                                     (Some repo_dir) 60 ;;
                         if negb (returncode result =? 0)%Z then
                           print "  [!] Could not fetch from GitHub (offline?)" ;;;
                           ret false
                         else ret true)
                        (fun _ =>
                           print "  [!] Could not fetch from GitHub (offline?)" ;;;
                           ret false) ;;
         if negb fetched then ret false
         else
           (* (proceed, needs_user_confirmation) *)
           decision <-
             (if negb (String.eqb current_branch target_branch) then
                print "  Branch switch detected, forcing clean state..." ;;;
                ret (true, false)
              else
                has_conflicts <- _git_has_conflicts repo_dir true ;;
                has_local_changes <- _git_has_uncommitted_changes repo_dir true ;;
                has_untracked <- _git_has_untracked_files repo_dir ;;
                let needs_user_confirmation :=
                  has_conflicts || has_local_changes || has_untracked in
                if needs_user_confirmation then
                  print "" ;;;
                  print "[!] WARNING: Local changes detected in your installation:" ;;;
                  when has_conflicts
                    (print "  • Merge conflicts need resolution") ;;;
                  when has_local_changes
                    (print "  • Modified files (other than docs_manifest.json)") ;;;
                  when has_untracked (print "  • Untracked files") ;;;
                  print "" ;;;
                  print "The installer will reset to a clean state, discarding these changes." ;;;
                  print "Note: Changes to docs_manifest.json are handled automatically." ;;;
                  print "" ;;;
                  accepted <- confirm_discard ;;
                  if accepted then
                    print "  Proceeding with clean installation..." ;;;
                    ret (true, true)
                  else ret (false, true)
                else
                  note_manifest_changes repo_dir ;;;
                  ret (true, false)) ;;
           let '(proceed, needs_user_confirmation) := decision in
           if negb proceed then ret false
           else
             (if needs_user_confirmation
              then print "  Forcing clean update (discarding local changes)..."
              else print "  Updating to clean state...") ;;;
             _git_abort_operations repo_dir ;;;
             ok <- _git_force_clean_checkout repo_dir target_branch ;;
             if ok then
               print "  [+] Updated successfully to clean state" ;;; ret true
             else
               print "  [!] Failed to force clean checkout" ;;; ret false)
      (fun e => print ("  [!] Error during git update: " ^^ exn_msg e) ;;;
                ret false).

(** [_fresh_clone()] *)
Definition _fresh_clone : M bool :=
  try (mkdir_parents E (parent install_dir) ;;;
       present <- path_exists install_dir ;;
       cleared <- (if present then
                     try (rmtree E install_dir ;;; ret true)
                         (fun e =>
                            print ("[!] Could not remove incomplete installation: "
                                   ^^ exn_msg e) ;;;
                            ret false)
                   else ret true) ;;
       if negb cleared then ret false
       else
         print ("Cloning repository to " ^^ str_path install_dir ^^ "...") ;;;
         result <- git E ["clone"; "-b"; INSTALL_BRANCH; REPO_URL; str_path install_dir]
                     None 120 (Some install_dir) ;;
         if negb (returncode result =? 0)%Z then
           print ("[!] Failed to clone repository: " ^^ stderr result) ;;;
           ret false
         else
           chdir install_dir ;;;
           complete <- path_exists (manifest_file install_dir) ;;
           if negb complete then
             print "[!] Clone appears incomplete - missing docs_manifest.json" ;;;
             ret false
           else
             print "[+] Repository cloned successfully" ;;;
             ret true)
      (fun e => print ("[!] Failed to clone repository: " ^^ exn_msg e) ;;;
                ret false).

(** [_migrate_installation(old_dir)] *)
Definition _migrate_installation (old_dir : path) : M bool :=
  try (versioned <- path_exists (child old_dir ".git") ;;
       should_preserve <-
         (if versioned then
            changed <- _git_has_uncommitted_changes old_dir false ;;
            when changed
              (print "[!] Uncommitted changes detected in old installation") ;;;
            ret changed
          else ret false) ;;
       cloned <- _fresh_clone ;;
       if negb cloned then ret false
       else
         (if negb should_preserve then
            print "Removing old installation..." ;;;
            try (rmtree E old_dir ;;; print "[+] Old installation removed")
                (fun e => print ("[!] Could not remove old installation: "
                                 ^^ exn_msg e))
          else
            print "" ;;;
            print ("[i] Old installation preserved at: " ^^ str_path old_dir) ;;;
            print "   (has uncommitted changes)") ;;;
         print "" ;;;
         print "[+] Migration complete!" ;;;
         ret true)
      (fun e => print ("[!] Migration failed: " ^^ exn_msg e) ;;; ret false).

(** [clone_or_update_repo()], given [self.old_installations]. *)
Definition clone_or_update_repo (old_installations : list path) : M bool :=
  print "" ;;;
  print "Checking repository status..." ;;;
  present <- path_exists install_dir ;;
  complete <- path_exists (manifest_file install_dir) ;;
  if present && complete then
    print ("[+] Found installation at " ^^ str_path install_dir) ;;;
    print "  Updating to latest version..." ;;;
    updated <- _safe_git_update install_dir ;;
    if updated then chdir install_dir ;;; ret true
    else print "[!] Failed to update existing installation" ;;; ret false
  else
    match old_installations with
    | old_install :: _ =>
        print ("[+] Found existing installation at: " ^^ str_path old_install) ;;;
        print ("   Migrating to: " ^^ str_path install_dir) ;;;
        print "" ;;;
        _migrate_installation old_install
    | [] =>
        print "No existing installation found" ;;;
        print ("Installing fresh to " ^^ str_path install_dir ^^ "...") ;;;
        _fresh_clone
    end.

(** [for x in xs: body x] *)
Fixpoint for_each {A} (xs : list A) (body : A -> M unit) : M unit :=
  match xs with
  | [] => ret tt
  | x :: rest => body x ;;; for_each rest body
  end.

(** One turn of the loop of [cleanup_old_installations]. *)
Definition cleanup_one (old_dir : path) : M unit :=
  if negb (truthy (strip (str_path old_dir))) then ret tt
  else
    print ("  - " ^^ str_path old_dir) ;;;
    versioned <- is_dir (child old_dir ".git") ;;
    if versioned then
      try (has_changes <- _git_has_uncommitted_changes old_dir false ;;
           if negb has_changes then
             try (rmtree E old_dir ;;; print "    [+] Removed (clean)")
                 (fun e => print ("    [!] Could not remove: " ^^ exn_msg e))
           else print "    [!] Preserved (has uncommitted changes)")
          (fun e => print ("    [!] Preserved (could not check git status: "
                           ^^ exn_msg e ^^ ")"))
    else print "    [!] Preserved (not a git repo)".

(** [cleanup_old_installations()], given [self.old_installations]. *)
Definition cleanup_old_installations (old_installations : list path) : M bool :=
  match old_installations with
  | [] => ret true
  | _ =>
      print "" ;;;
      print "Cleaning up old installations..." ;;;
      print ("Found " ^^ str_nat (length old_installations)
             ^^ " old installation(s) to remove:") ;;;
      for_each old_installations cleanup_one ;;;
      ret true
  end.

(** [Path.resolve()]: the absolute path with symbolic links followed. *)
Variable resolve : path -> path.

(** The loop that fills [unique_paths] and [seen_paths]. *)
Definition deduplicate (paths : list path) : list path * list path :=
  fold_left
    (fun '(unique_paths, seen_paths) path =>
       let abs_path := resolve path in
       let install_abs := resolve install_dir in
       if negb (path_eqb abs_path install_abs)
          && negb (existsb (path_eqb abs_path) seen_paths)
       then (unique_paths ++ [abs_path], abs_path :: seen_paths)
       else (unique_paths, seen_paths))
    paths ([], []).

(** The candidates of [find_existing_installations] before the
    post-processing: what the command file yielded, then what the settings
    document yielded, then the working directory when it holds the manifest
    and is not the install directory. *)
Definition candidate_paths (command_file_paths settings_paths : list path)
  (w : world) : list path :=
  let paths := command_file_paths ++ settings_paths in
  let current_dir := cwd w in
  match fs w (manifest_file current_dir) with
  | Some _ =>
      if negb (path_eqb current_dir install_dir) then paths ++ [current_dir]
      else paths
  | None => paths
  end.

(** [find_existing_installations()].  The two scans of the configuration
    (the command file, the settings document) enter by the directories they
    yielded, in the order they were appended to [paths]. *)
Definition find_existing_installations
  (command_file_paths settings_paths : list path) : M (list path) :=
  fun w =>
    let paths := candidate_paths command_file_paths settings_paths w in
    let unique_paths := fst (deduplicate paths) in
    (Ret (PathSort.sort unique_paths), w).

(** [hook_command] of [setup_claude_hooks]. *)
Definition hook_command (windows : bool) : string :=
  str_path (child install_dir (if windows then "claude-docs-helper.bat"
                               else "claude-docs-helper.sh"))
  ^^ " hook-check".

End Installer.

(** A sub-hook whose command is a string that names the tool. *)
Definition sub_hook_names_tool (sub_hook : json) : bool :=
  match sub_hook with
  | JDict items =>
      match Py.dict_get "command" items with
      | Some (JStr command) => contains TOOL command
      | _ => false
      end
  | _ => false
  end.

(** The loop of [setup_claude_hooks] over [original_hooks]: the hooks kept,
    or [None] when iterating over a ["hooks"] value raises. *)
Fixpoint clean_hooks (original_hooks : list json) : option (list json) :=
  match original_hooks with
  | [] => Some []
  | hook :: rest =>
      keep <~ (if Py.is_dict_with "hooks" hook then
                 sub_hooks <~ Py.iterate (Py.get_or_empty_list "hooks" hook) ;;
                 Some (negb (existsb sub_hook_names_tool sub_hooks))
               else Some true) ;;
      cleaned <~ clean_hooks rest ;;
      Some (if keep then hook :: cleaned else cleaned)
  end.

Definition new_hook (hook_command : string) : json :=
  JDict [("matcher", JStr "Read");
         ("hooks", JList [JDict [("type", JStr "command");
                                 ("command", JStr hook_command)]])].

(** The document [setup_claude_hooks] dumps, from the decoded settings
    ([JDict []] when the file is missing or does not parse); [None] when an
    exception is raised before anything is written. *)
Definition setup_claude_hooks_document (hook_command : string)
  (settings_data : json) : option json :=
  has_hooks <~ Py.contains_key "hooks" settings_data ;;
  settings_data <~ (if negb has_hooks
                    then Py.setitem settings_data "hooks" (JDict [])
                    else Some settings_data) ;;
  hooks <~ Py.getitem settings_data "hooks" ;;
  has_pre <~ Py.contains_key "PreToolUse" hooks ;;
  hooks <~ (if negb has_pre then Py.setitem hooks "PreToolUse" (JList [])
            else Some hooks) ;;
  original <~ Py.getitem hooks "PreToolUse" ;;
  original_hooks <~ Py.iterate original ;;
  cleaned_hooks <~ clean_hooks original_hooks ;;
  hooks <~ Py.setitem hooks "PreToolUse"
             (JList (cleaned_hooks ++ [new_hook hook_command])) ;;
  Py.setitem settings_data "hooks" hooks.

End Install.

(** ** The uninstaller ([uninstall.py]) *)

Module Uninstall.

Section Uninstaller.

Variable E : environment.

(** [_run_git_command(args, cwd)]: [None] when no executable is found, the
    timeout expires or the operating system refuses. *)
Definition _run_git_command (args : list string) (cwd_ : option path)
  : M (option completed) :=
  try (result <- git E args cwd_ 30 None ;; ret (Some result))
      (fun _ => ret None).

Definition _git_has_uncommitted_changes (repo_dir : path) : M bool :=
  try (result <- _run_git_command ["status"; "--porcelain"] (Some repo_dir) ;;
       match result with
       | None => ret true
       | Some r =>
           if negb (returncode r =? 0)%Z then ret true
           else ret (truthy (strip (stdout r)))
       end)
      (fun _ => ret true).

(** One turn of the loop of [remove_directories]. *)
Definition remove_one (windows : bool) (p : path) : M unit :=
  present <- is_dir p ;;
  if negb present then ret tt
  else
    print ("Processing: " ^^ str_path p) ;;;
    versioned <- is_dir (child p ".git") ;;
    if versioned then
      try (has_changes <- _git_has_uncommitted_changes p ;;
           if negb has_changes then
             try (rmtree E p ;;;
                  print ("[+] Removed " ^^ str_path p ^^ " (clean git repo)"))
                 (fun e =>
                    if String.eqb (exn_class e) "PermissionError" then
                      print ("[ERROR] Could not remove " ^^ str_path p
                             ^^ ": Permission denied") ;;;
                      (if windows
                       then print "   Try running as Administrator or check if files are in use"
                       else print "   Try running with sudo or check file permissions")
                    else
                      print ("[ERROR] Could not remove " ^^ str_path p ^^ ": "
                             ^^ exn_msg e))
           else
             print ("[!] Preserved " ^^ str_path p ^^ " (has uncommitted changes)"))
          (fun e => print ("[!] Preserved " ^^ str_path p
                           ^^ " (could not check git status: " ^^ exn_msg e ^^ ")"))
    else print ("[!] Preserved " ^^ str_path p ^^ " (not a git repo)").

(** [remove_directories()], given [self.installations]. *)
Definition remove_directories (windows : bool) (installations : list path)
  : M bool :=
  match installations with
  | [] => ret true
  | _ =>
      print "" ;;;
      print "Removing installation directories..." ;;;
      Install.for_each installations (remove_one windows) ;;;
      ret true
  end.

(** [Path.resolve()] *)
Variable resolve : path -> path.

(** The loop that fills [unique_paths] and [seen_paths]. *)
Definition deduplicate (paths : list path) : list path * list path :=
  fold_left
    (fun '(unique_paths, seen_paths) path =>
       let abs_path := resolve path in
       if negb (existsb (path_eqb abs_path) seen_paths)
       then (unique_paths ++ [abs_path], abs_path :: seen_paths)
       else (unique_paths, seen_paths))
    paths ([], []).

(** [find_installations()], the two scans entering by what they yielded. *)
Definition find_installations (command_file_paths settings_paths : list path)
  : list path :=
  let paths := command_file_paths ++ settings_paths in
  PathSort.sort (fst (deduplicate paths)).

(** [str(v)] of a decoded JSON value that is not a string: Python's
    rendering of numbers, lists and dicts. *)
Variable py_str : json -> string.

(** A hook whose command, rendered by [str], names the tool. *)
Definition hook_names_tool (hook : json) : bool :=
  match hook with
  | JDict items =>
      match Py.dict_get "command" items with
      | Some (JStr command) => contains TOOL command
      | Some v => contains TOOL (py_str v)
      | None => false
      end
  | _ => false
  end.

(** The loop of [remove_hooks] over [original_hooks]. *)
Fixpoint filter_hooks (original_hooks : list json) : list json :=
  match original_hooks with
  | [] => []
  | hook_entry :: rest =>
      if Py.is_dict_with "hooks" hook_entry then
        let hooks_list := Py.get_or_empty_list "hooks" hook_entry in
        let contains_docs :=
          match hooks_list with
          | JList l => existsb hook_names_tool l
          | _ => false
          end in
        if negb contains_docs then hook_entry :: filter_hooks rest
        else filter_hooks rest
      else filter_hooks rest
  end.

(** What [remove_hooks] does to the decoded settings: the document and
    whether it changed (and is therefore written back); [None] when an
    exception is raised, in which case nothing is written. *)
Definition remove_hooks_document (settings : json) : option (json * bool) :=
  (* Remove hooks containing the tool's name *)
  has_hooks <~ Py.contains_key "hooks" settings ;;
  state <~ (if has_hooks then
              hooks <~ Py.getitem settings "hooks" ;;
              has_pre <~ Py.contains_key "PreToolUse" hooks ;;
              if has_pre then
                original_hooks <~ Py.getitem hooks "PreToolUse" ;;
                match original_hooks with
                | JList original =>
                    let filtered_hooks := filter_hooks original in
                    if negb (length filtered_hooks =? length original)%nat then
                      hooks <~ Py.setitem hooks "PreToolUse" (JList filtered_hooks) ;;
                      settings <~ Py.setitem settings "hooks" hooks ;;
                      Some (settings, true)
                    else Some (settings, false)
                | _ => Some (settings, false)
                end
              else Some (settings, false)
            else Some (settings, false)) ;;
  let '(settings, changed) := state in
  (* Clean up empty structures *)
  has_hooks <~ Py.contains_key "hooks" settings ;;
  if has_hooks then
    hooks <~ Py.getitem settings "hooks" ;;
    has_pre <~ Py.contains_key "PreToolUse" hooks ;;
    state <~ (if has_pre then
                pre <~ Py.getitem hooks "PreToolUse" ;;
                if negb (Py.truth pre) then
                  hooks <~ Py.delitem hooks "PreToolUse" ;;
                  settings <~ Py.setitem settings "hooks" hooks ;;
                  Some (settings, hooks, true)
                else Some (settings, hooks, changed)
              else Some (settings, hooks, changed)) ;;
    let '(settings, hooks, changed) := state in
    if negb (Py.truth hooks) then
      settings <~ Py.delitem settings "hooks" ;;
      Some (settings, true)
    else Some (settings, changed)
  else Some (settings, changed).

End Uninstaller.

End Uninstall.

(** * Properties *)

(** ** Text *)

Section TextFacts.

Lemma append_nil_r (s : string) : s ^^ "" = s.
Proof. induction s; simpl; congruence. Qed.

Lemma append_assoc (a b c : string) : (a ^^ b) ^^ c = a ^^ b ^^ c.
Proof. induction a; simpl; congruence. Qed.

Lemma all_space_app (a b : string) :
  all_space (a ^^ b) = all_space a && all_space b.
Proof.
  induction a as [|c a IH]; simpl; [reflexivity|].
  rewrite IH, andb_assoc; reflexivity.
Qed.

Lemma lstrip_decomp (s : string) :
  exists pre, s = pre ^^ lstrip s /\ all_space pre = true.
Proof.
  induction s as [|c s [pre [Hs Hp]]]; simpl.
  - exists ""; auto.
  - destruct (isspace c) eqn:Hc.
    + exists (String c pre); simpl; rewrite Hc, Hp, <- Hs; auto.
    + exists ""; auto.
Qed.

Lemma rstrip_decomp (s : string) :
  exists suf, s = rstrip s ^^ suf /\ all_space suf = true.
Proof.
  induction s as [|c s [suf [Hs Hp]]]; simpl.
  - exists ""; auto.
  - destruct (rstrip s) as [|d r] eqn:Hr.
    + simpl in Hs; subst suf. destruct (isspace c) eqn:Hc.
      * exists (String c s); simpl; rewrite Hc, Hp; auto.
      * exists s; simpl; auto.
    + exists suf; split; [|assumption]. simpl; f_equal; exact Hs.
Qed.

Lemma strip_decomp (s : string) :
  exists pre suf,
    s = pre ^^ strip s ^^ suf /\ all_space pre = true /\ all_space suf = true.
Proof.
  destruct (lstrip_decomp s) as [pre [Hs Hp]].
  destruct (rstrip_decomp (lstrip s)) as [suf [Hl Hq]].
  exists pre, suf; unfold strip; rewrite <- Hl; auto.
Qed.

Lemma all_space_lstrip (s : string) : all_space (lstrip s) = all_space s.
Proof.
  induction s as [|c s IH]; simpl; [reflexivity|].
  destruct (isspace c) eqn:Hc; simpl; rewrite ?Hc; auto.
Qed.

Lemma truthy_rstrip (s : string) : truthy (rstrip s) = negb (all_space s).
Proof.
  induction s as [|c s IH]; simpl; [reflexivity|].
  destruct (rstrip s); simpl in *.
  - apply (f_equal negb) in IH; rewrite negb_involutive in IH; simpl in IH.
    rewrite <- IH, andb_true_r; destruct (isspace c); reflexivity.
  - apply (f_equal negb) in IH; rewrite negb_involutive in IH; simpl in IH.
    rewrite <- IH, andb_false_r; reflexivity.
Qed.

(** A stripped string is empty exactly when the string is blank. *)
Lemma truthy_strip (s : string) : truthy (strip s) = negb (all_space s).
Proof. unfold strip; rewrite truthy_rstrip, all_space_lstrip; reflexivity. Qed.

Lemma strip_empty_iff (s : string) : strip s = "" <-> all_space s = true.
Proof.
  pose proof (truthy_strip s) as H; destruct (strip s), (all_space s);
    simpl in H; split; intro; congruence.
Qed.

Lemma split_nonempty (c : ascii) (s : string) : split c s <> [].
Proof.
  induction s as [|d s IH]; simpl; [discriminate|].
  destruct (Ascii.eqb d c); [discriminate|].
  destruct (split c s); discriminate.
Qed.

(** Joining the pieces of two strings: the last piece of the first and the
    first piece of the second become one. *)
Fixpoint glue (A B : list string) : list string :=
  match A with
  | [] => B
  | a :: A' =>
      match A' with
      | [] => match B with
              | b :: B' => (a ^^ b) :: B'
              | [] => [a]
              end
      | _ :: _ => a :: glue A' B
      end
  end.

Lemma split_app (c : ascii) (x y : string) :
  split c (x ^^ y) = glue (split c x) (split c y).
Proof.
  induction x as [|d x IH]; simpl.
  - destruct (split c y) eqn:Hy; [exfalso; eapply split_nonempty; eauto|reflexivity].
  - destruct (Ascii.eqb d c).
    + rewrite IH. destruct (split c x) eqn:Hx; [exfalso; eapply split_nonempty; eauto|].
      reflexivity.
    + rewrite IH. destruct (split c x) as [|h t] eqn:Hx;
        [exfalso; eapply split_nonempty; eauto|].
      destruct t as [|h' t']; simpl.
      * destruct (split c y) eqn:Hy; [exfalso; eapply split_nonempty; eauto|].
        reflexivity.
      * reflexivity.
Qed.

Lemma glue_in_left (A B : list string) (l : string) :
  In l A -> exists b, (b = "" \/ In b B) /\ In (l ^^ b) (glue A B).
Proof.
  induction A as [|a A IH]; [intros []|].
  intros [->|Hin].
  - destruct A as [|a' A'].
    + destruct B as [|b B'].
      * exists ""; rewrite append_nil_r; simpl; auto.
      * exists b; simpl; auto.
    + exists ""; rewrite append_nil_r; simpl; auto.
  - destruct A as [|a' A']; [destruct Hin|].
    destruct (IH Hin) as [b [Hb Hg]].
    exists b; split; [assumption|]. right; exact Hg.
Qed.

Lemma glue_in_right (A B : list string) (l : string) :
  A <> [] -> In l B -> exists a, (a = "" \/ In a A) /\ In (a ^^ l) (glue A B).
Proof.
  induction A as [|a A IH]; [congruence|].
  intros _ Hin. destruct A as [|a' A'].
  - destruct B as [|b B']; [destruct Hin|].
    destruct Hin as [->|Hin].
    + exists a; simpl; auto.
    + exists ""; simpl; auto.
  - destruct (IH ltac:(discriminate) Hin) as [x [Hx Hg]].
    exists x; split.
    + destruct Hx as [->|Hx]; [left; reflexivity|right; right; exact Hx].
    + right; exact Hg.
Qed.

Lemma glue_inv (A B : list string) (l : string) :
  In l (glue A B) ->
  In l A \/ In l B \/ exists a b, In a A /\ In b B /\ l = a ^^ b.
Proof.
  induction A as [|a A IH]; simpl; [auto|].
  destruct A as [|a' A'].
  - destruct B as [|b B']; simpl.
    + intros [->|[]]; auto.
    + intros [<-|Hin]; [|auto].
      right; right; exists a, b; simpl; auto.
  - intros [->|Hin]; [auto|].
    destruct (IH Hin) as [H|[H|[x [y [Hx [Hy ->]]]]]]; auto.
    right; right; exists x, y; auto.
Qed.

Lemma split_all_space (c : ascii) (s l : string) :
  all_space s = true -> In l (split c s) -> all_space l = true.
Proof.
  revert l; induction s as [|d s IH]; simpl; intros l Hs Hin.
  - destruct Hin as [<-|[]]; reflexivity.
  - apply andb_true_iff in Hs as [Hd Hs].
    destruct (Ascii.eqb d c).
    + destruct Hin as [<-|Hin]; [reflexivity|auto].
    + destruct (split c s) as [|h t] eqn:Hsp.
      * destruct Hin as [<-|[]]; simpl; rewrite Hd; reflexivity.
      * destruct Hin as [<-|Hin]; simpl.
        -- rewrite Hd; simpl; apply IH; simpl; auto.
        -- apply IH; simpl; auto.
Qed.

(** [within l' l]: [l] is [l'] with blanks before and after it. *)
Definition within (l' l : string) : Prop :=
  exists a b, all_space a = true /\ all_space b = true /\ l = a ^^ l' ^^ b.

Lemma within_all_space (l' l : string) :
  within l' l -> all_space l = all_space l'.
Proof.
  intros [a [b [Ha [Hb ->]]]].
  rewrite !all_space_app, Ha, Hb, andb_true_r; reflexivity.
Qed.

(** Every line of the stripped output sits within a line of the output. *)
Lemma lines_of_strip (c : ascii) (s l' : string) :
  In l' (split c (strip s)) -> exists l, In l (split c s) /\ within l' l.
Proof.
  destruct (strip_decomp s) as [pre [suf [Hs [Hp Hq]]]].
  assert (Hsplit : split c s
                   = glue (split c pre) (glue (split c (strip s)) (split c suf)))
    by (rewrite <- !split_app, <- Hs; reflexivity).
  intros Hin.
  destruct (glue_in_left _ (split c suf) _ Hin) as [b [Hb Hg]].
  destruct (glue_in_right (split c pre) _ _ (split_nonempty c pre) Hg)
    as [a [Ha Hg']].
  exists (a ^^ l' ^^ b); split; [rewrite Hsplit; exact Hg'|].
  exists a, b; repeat split.
  - destruct Ha as [->|Ha]; [reflexivity|exact (split_all_space c pre a Hp Ha)].
  - destruct Hb as [->|Hb]; [reflexivity|exact (split_all_space c suf b Hq Hb)].
Qed.

(** Every line of the output that is not blank has its core among the lines
    of the stripped output. *)
Lemma lines_to_strip (c : ascii) (s l : string) :
  In l (split c s) -> all_space l = false ->
  exists l', In l' (split c (strip s)) /\ within l' l.
Proof.
  destruct (strip_decomp s) as [pre [suf [Hs [Hp Hq]]]].
  assert (Hsplit : split c s
                   = glue (split c pre) (glue (split c (strip s)) (split c suf)))
    by (rewrite <- !split_app, <- Hs; reflexivity).
  intros Hin Hl. rewrite Hsplit in Hin.
  assert (Hmid : forall m, In m (glue (split c (strip s)) (split c suf)) ->
                 all_space m = false ->
                 exists l', In l' (split c (strip s)) /\
                            exists b, all_space b = true /\ m = l' ^^ b).
  { intros m Hm Hsp.
    destruct (glue_inv _ _ _ Hm) as [H|[H|[x [y [Hx [Hy ->]]]]]].
    - exists m; split; [assumption|]. exists ""; rewrite append_nil_r; auto.
    - rewrite (split_all_space c suf m Hq H) in Hsp; discriminate.
    - exists x; split; [assumption|]. exists y; split; [|reflexivity].
      exact (split_all_space c suf y Hq Hy). }
  destruct (glue_inv _ _ _ Hin) as [H|[H|[x [y [Hx [Hy ->]]]]]].
  - rewrite (split_all_space c pre l Hp H) in Hl; discriminate.
  - destruct (Hmid l H Hl) as [l' [Hl' [b [Hb ->]]]].
    exists l'; split; [assumption|]. exists "", b; simpl; auto.
  - assert (Hx' : all_space x = true) by exact (split_all_space c pre x Hp Hx).
    rewrite all_space_app, Hx' in Hl; simpl in Hl.
    destruct (Hmid y Hy Hl) as [l' [Hl' [b [Hb ->]]]].
    exists l'; split; [assumption|]. exists x, b; auto.
Qed.

Lemma line_not_blank (c : ascii) (s l : string) :
  In l (split c s) -> all_space l = false -> all_space s = false.
Proof.
  intros Hin Hl. destruct (all_space s) eqn:Hs; [|reflexivity].
  rewrite (split_all_space c s l Hs Hin) in Hl; discriminate.
Qed.

Lemma prefix_space_head (p s : string) (c : ascii) :
  isspace c = true -> no_space p = true -> p <> "" ->
  String.prefix p (String c s) = false.
Proof.
  intros Hc Hp Hne. destruct p as [|d p]; [congruence|]. simpl in *.
  destruct (ascii_dec d c) as [->|]; [|reflexivity].
  rewrite Hc in Hp; discriminate.
Qed.

Lemma prefix_trailing_space (p s b : string) :
  all_space b = true -> no_space p = true ->
  String.prefix p (s ^^ b) = String.prefix p s.
Proof.
  intros Hb. revert p; induction s as [|d s IH]; intros p Hp.
  - simpl. destruct p as [|c p]; [destruct b; reflexivity|].
    destruct b as [|e b]; [reflexivity|].
    simpl in Hb; apply andb_true_iff in Hb as [He _].
    apply prefix_space_head; auto; discriminate.
  - destruct p as [|c p]; [reflexivity|]. simpl in *.
    apply andb_true_iff in Hp as [_ Hp].
    destruct (ascii_dec c d); auto.
Qed.






End TextFacts.

(** ** Status classification *)

(** The world after more events. *)
Definition after (w : world) (es : list event) : world :=
  World (fs w) (cwd w) (trace w ++ es).

Lemma fs_after (w : world) (es : list event) : fs (after w es) = fs w.
Proof. reflexivity. Qed.

Lemma trace_after (w : world) (es : list event) :
  trace (after w es) = trace w ++ es.
Proof. reflexivity. Qed.

Definition status_call (repo_dir : path) : event :=
  Git ["status"; "--porcelain"] (Some repo_dir) 30.

Section StatusFacts.

Variable E : environment.





(** What the three status checks return once the environment's answer to
    [status --porcelain] is known. *)
Lemma has_uncommitted_changes_run (repo_dir : path) (ex : bool) (w : world) :
  Install._git_has_uncommitted_changes E repo_dir ex w =
  (Ret match git_answer E ["status"; "--porcelain"] (Some repo_dir) w with
       | Some c => (returncode c =? 0)%Z
                   && Install.status_has_changes (stdout c) ex
       | None => false
       end,
   after w [status_call repo_dir]).
Proof.
  unfold Install._git_has_uncommitted_changes, Install._run_git_command,
    try, bind, git, ret, after, status_call; simpl.
  destruct (git_answer E _ _ w) as [c|]; [|reflexivity].
  destruct (returncode c =? 0)%Z; reflexivity.
Qed.

Lemma has_conflicts_run (repo_dir : path) (ex : bool) (w : world) :
  Install._git_has_conflicts E repo_dir ex w =
  (Ret match git_answer E ["status"; "--porcelain"] (Some repo_dir) w with
       | Some c => (returncode c =? 0)%Z
                   && Install.status_has_conflicts (stdout c) ex
       | None => false
       end,
   after w [status_call repo_dir]).
Proof.
  unfold Install._git_has_conflicts, Install._run_git_command,
    try, bind, git, ret, after, status_call; simpl.
  destruct (git_answer E _ _ w) as [c|]; [|reflexivity].
  destruct (returncode c =? 0)%Z; reflexivity.
Qed.

Lemma has_untracked_files_run (repo_dir : path) (w : world) :
  Install._git_has_untracked_files E repo_dir w =
  (Ret match git_answer E ["status"; "--porcelain"] (Some repo_dir) w with
       | Some c => (returncode c =? 0)%Z
                   && Install.status_has_untracked (stdout c)
       | None => false
       end,
   after w [status_call repo_dir]).
Proof.
  unfold Install._git_has_untracked_files, Install._run_git_command,
    try, bind, git, ret, after, status_call; simpl.
  destruct (git_answer E _ _ w) as [c|]; [|reflexivity].
  destruct (returncode c =? 0)%Z; reflexivity.
Qed.

End StatusFacts.

(** A scripted environment: git answers [status --porcelain] with exit code
    [rc] and output [out], every other subcommand with exit code 0; nothing
    else fails and the operator types [answer]. *)
Definition status_env (rc : Z) (out : string) (answer : option string)
  : environment :=
  Environment
    (fun args _ _ =>
       match args with
       | "status" :: _ => Some (Completed rc out "")
       | _ => Some (Completed 0 "" "")
       end)
    (fun _ => [([], Dir); (["docs"], Dir); (["docs"; "docs_manifest.json"], File)])
    (fun _ _ => None) (fun _ _ => None) (fun _ _ => answer).

(** A home directory with an old installation under version control. *)
Definition home : path := ["home"; "user"].
Definition old_install : path := ["home"; "user"; "claude-code-docs"].
Definition target : path := ["home"; "user"; ".claude-code-docs"].

Definition old_fs : filesystem :=
  fun p => if existsb (path_eqb p)
                [[]; ["home"]; home; old_install; child old_install ".git";
                 child old_install "docs";
                 Install.manifest_file old_install]
           then (if path_eqb p (Install.manifest_file old_install)
                 then Some File else Some Dir)
           else None.

Definition old_world : world := World old_fs home [].



(** ** Conflict detection *)

(** The shape of a line of [git status --porcelain]: empty (the piece after
    the final newline), or a two-character status code [XY], a space and the
    path, where [X] is a status letter or a space and, when [X] is a space,
    [Y] is a status letter. *)
Definition porcelain_line (l : string) : bool :=
  match l with
  | EmptyString => true
  | String x (String y (String sp _)) =>
      Ascii.eqb sp " "
      && (negb (isspace x) || (Ascii.eqb x " " && negb (isspace y)))
  | _ => false
  end.


Section ConflictFacts.

Lemma two_char_prefix (a b : ascii) (l : string) :
  String.prefix (String a (String b "")) l = true ->
  exists r, l = String a (String b r).
Proof.
  destruct l as [|x [|y r]]; simpl; try discriminate.
  - destruct (ascii_dec a x); discriminate.
  - destruct (ascii_dec a x) as [->|]; [|discriminate].
    destruct (ascii_dec b y) as [->|]; [|discriminate].
    intros _; exists r; reflexivity.
Qed.





Lemma porcelain_after_blank (c d : ascii) (rest : string) :
  porcelain_line (String c (String d rest)) = true -> isspace c = true ->
  isspace d = false /\ exists rest', rest = String " " rest'.
Proof.
  destruct rest as [|sp rest']; simpl; [discriminate|].
  intros H Hc. rewrite Hc in H; simpl in H.
  apply andb_true_iff in H as [Hsp H].
  apply andb_true_iff in H as [_ H].
  apply negb_true_iff in H. apply Ascii.eqb_eq in Hsp; subst sp.
  split; [assumption|exists rest'; reflexivity].
Qed.



End ConflictFacts.



(** ** Reasoning about runs *)

(** A relation between the world before and the world after that every
    step of a run maintains. *)
Section Frames.

Variable R : world -> world -> Prop.
Hypothesis R_refl : forall w, R w w.
Hypothesis R_trans : forall w1 w2 w3, R w1 w2 -> R w2 w3 -> R w1 w3.

Definition respects {A} (m : M A) : Prop := forall w, R w (snd (m w)).

Lemma respects_ret {A} (a : A) : respects (ret a).
Proof using R_refl R_trans. intros w; apply R_refl. Qed.

Lemma respects_bind_at {A B} (m : M A) (k : A -> M B) (w : world) :
  R w (snd (m w)) ->
  (forall a w', m w = (Ret a, w') -> R w' (snd (k a w'))) ->
  R w (snd (bind m k w)).
Proof using R_refl R_trans.
  unfold bind. intros Hm Hk. destruct (m w) as [[a|e] w'] eqn:Hmw; simpl in *.
  - eapply R_trans; [exact Hm|]. apply Hk; reflexivity.
  - exact Hm.
Qed.

Lemma respects_try_at {A} (m : M A) (h : exn -> M A) (w : world) :
  R w (snd (m w)) ->
  (forall e w', m w = (Raise e, w') -> R w' (snd (h e w'))) ->
  R w (snd (try m h w)).
Proof using R_refl R_trans.
  unfold try. intros Hm Hh. destruct (m w) as [[a|e] w'] eqn:Hmw; simpl in *.
  - exact Hm.
  - eapply R_trans; [exact Hm|]. apply Hh; reflexivity.
Qed.

Lemma respects_bind {A B} (m : M A) (k : A -> M B) :
  respects m -> (forall a, respects (k a)) -> respects (bind m k).
Proof using R_refl R_trans.
  intros Hm Hk w. apply respects_bind_at; [apply Hm|]. intros; apply Hk.
Qed.

Lemma respects_try {A} (m : M A) (h : exn -> M A) :
  respects m -> (forall e, respects (h e)) -> respects (try m h).
Proof using R_refl R_trans.
  intros Hm Hh w. apply respects_try_at; [apply Hm|]. intros; apply Hh.
Qed.

Lemma respects_when (c : bool) (m : M unit) :
  respects m -> respects (Install.when c m).
Proof using R_refl R_trans. destruct c; simpl; auto using respects_ret. Qed.


End Frames.

(** ** The force-clean checkout *)

Definition ran (a : option completed) : bool :=
  match a with Some _ => true | None => false end.

Definition exits_zero (a : option completed) : bool :=
  match a with Some c => (returncode c =? 0)%Z | None => false end.

Definition reset_call (repo_dir : path) : event :=
  Git ["reset"] (Some repo_dir) 30.
Definition checkout_call (repo_dir : path) (branch : string) : event :=
  Git ["checkout"; "-B"; branch; "origin/" ^^ branch] (Some repo_dir) 30.
Definition hard_reset_call (repo_dir : path) (branch : string) : event :=
  Git ["reset"; "--hard"; "origin/" ^^ branch] (Some repo_dir) 30.
Definition clean_call (repo_dir : path) : event :=
  Git ["clean"; "-fd"] (Some repo_dir) 30.

(** An environment in which the index reset exits with code 1 and every
    other git subcommand with code 0. *)
Definition reset_fails_env : environment :=
  Environment
    (fun args _ _ =>
       match args with
       | ["reset"] => Some (Completed 1 "" "fatal: index file corrupt")
       | _ => Some (Completed 0 "" "")
       end)
    (fun _ => []) (fun _ _ => None) (fun _ _ => None) (fun _ _ => None).

(** An environment in which removing untracked files exits with code 1. *)
Definition clean_fails_env : environment :=
  Environment
    (fun args _ _ =>
       match args with
       | "clean" :: _ => Some (Completed 1 "" "warning: failed to remove x")
       | _ => Some (Completed 0 "" "")
       end)
    (fun _ => []) (fun _ _ => None) (fun _ _ => None) (fun _ _ => None).

(** An environment in which the force checkout exits with code 1. *)
Definition checkout_fails_env : environment :=
  Environment
    (fun args _ _ =>
       match args with
       | "checkout" :: _ => Some (Completed 1 "" "error: pathspec")
       | _ => Some (Completed 0 "" "")
       end)
    (fun _ => []) (fun _ _ => None) (fun _ _ => None) (fun _ _ => None).

(** C3, as stated, fails: with the index reset exiting with code 1 all
    four steps still run and the operation reports success; likewise when
    the removal of untracked files exits with code 1. *)
Lemma force_clean_checkout_unchecked_steps :
  Install._git_force_clean_checkout reset_fails_env old_install "main" old_world
  = (Ret true,
     after old_world [reset_call old_install; checkout_call old_install "main";
                      hard_reset_call old_install "main"; clean_call old_install])
  /\
  Install._git_force_clean_checkout clean_fails_env old_install "main" old_world
  = (Ret true,
     after old_world [reset_call old_install; checkout_call old_install "main";
                      hard_reset_call old_install "main"; clean_call old_install]).
Proof. split; reflexivity. Qed.

(** C3, amended.  Every step is guarded against a raised error, and the
    force checkout and the hard reset are checked by exit code: the first
    step that raises, or the checkout or hard reset that exits non-zero,
    ends the sequence there with [False].  The exit codes of the index reset
    and of the removal of untracked files are not inspected: the operation
    returns [True] exactly when no step raises and the checkout and the hard
    reset exit with 0. *)
Theorem force_clean_checkout_checks (E : environment) (repo_dir : path)
  (branch : string) (w : world) :
  let w1 := after w [reset_call repo_dir] in
  let w2 := after w1 [checkout_call repo_dir branch] in
  let w3 := after w2 [hard_reset_call repo_dir branch] in
  let w4 := after w3 [clean_call repo_dir] in
  let a1 := git_answer E ["reset"] (Some repo_dir) w in
  let a2 := git_answer E ["checkout"; "-B"; branch; "origin/" ^^ branch]
              (Some repo_dir) w1 in
  let a3 := git_answer E ["reset"; "--hard"; "origin/" ^^ branch]
              (Some repo_dir) w2 in
  let a4 := git_answer E ["clean"; "-fd"] (Some repo_dir) w3 in
  let r := Install._git_force_clean_checkout E repo_dir branch w in
  (fst r = Ret (ran a1 && exits_zero a2 && exits_zero a3 && ran a4))
  /\ (ran a1 = false -> snd r = w1)
  /\ (ran a1 = true -> exits_zero a2 = false -> snd r = w2)
  /\ (ran a1 = true -> exits_zero a2 = true -> exits_zero a3 = false ->
      snd r = w3)
  /\ (ran a1 = true -> exits_zero a2 = true -> exits_zero a3 = true ->
      snd r = w4).
Proof.
  cbv zeta.
  unfold Install._git_force_clean_checkout, Install._run_git_command,
    try, bind, git, ret, ran, exits_zero, after,
    reset_call, checkout_call, hard_reset_call, clean_call; simpl.
  destruct (git_answer E ["reset"] (Some repo_dir) w) as [c1|]; simpl;
    [|repeat split; intros; congruence].
  match goal with |- context [git_answer E ?a ?c ?x] =>
    destruct (git_answer E a c x) as [c2|] end; simpl;
    [|repeat split; intros; congruence].
  destruct (returncode c2 =? 0)%Z; simpl;
    [|repeat split; intros; congruence].
  match goal with |- context [git_answer E ?a ?c ?x] =>
    destruct (git_answer E a c x) as [c3|] end; simpl;
    [|repeat split; intros; congruence].
  destruct (returncode c3 =? 0)%Z; simpl;
    [|repeat split; intros; congruence].
  match goal with |- context [git_answer E ?a ?c ?x] =>
    destruct (git_answer E a c x) as [c4|] end; simpl;
    repeat split; intros; congruence.
Qed.

(** A failing checkout ends the sequence after two commands; with all
    steps exiting 0 the operation succeeds. *)
Lemma force_clean_checkout_checks_witness :
  Install._git_force_clean_checkout checkout_fails_env old_install "main" old_world
  = (Ret false,
     after old_world [reset_call old_install; checkout_call old_install "main"]).
Proof.
  pose proof (force_clean_checkout_checks checkout_fails_env old_install
                "main" old_world) as H.
  cbv zeta in H. destruct H as [H1 [_ [H3 _]]].
  specialize (H3 eq_refl eq_refl).
  rewrite (surjective_pairing (Install._git_force_clean_checkout _ _ _ _)).
  rewrite H1, H3. reflexivity.
Defined.

(** ** Update in place and the confirmation prompt *)

Definition is_input (e : event) : bool :=
  match e with Input _ => true | _ => false end.

(** Between two worlds the trace only grew, and by no [Input] event. *)
Definition no_prompt (w w' : world) : Prop :=
  exists es, trace w' = trace w ++ es
             /\ Forall (fun e => is_input e = false) es.

Lemma no_prompt_refl (w : world) : no_prompt w w.
Proof. exists []; rewrite app_nil_r; auto. Qed.

Lemma no_prompt_trans (w1 w2 w3 : world) :
  no_prompt w1 w2 -> no_prompt w2 w3 -> no_prompt w1 w3.
Proof.
  intros [es1 [H1 F1]] [es2 [H2 F2]]. exists (es1 ++ es2); split.
  - rewrite H2, H1, app_assoc; reflexivity.
  - apply Forall_app; auto.
Qed.

Section Quiet.

Variable E : environment.

Lemma quiet_emit (e : event) : is_input e = false -> respects no_prompt (emit e).
Proof. intros He w; exists [e]; simpl; auto. Qed.

Lemma quiet_print (line : string) : respects no_prompt (print line).
Proof. apply quiet_emit; reflexivity. Qed.

Lemma quiet_git (args : list string) (c : option path) (t : Z)
  (dest : option path) : respects no_prompt (git E args c t dest).
Proof.
  intros w; unfold git.
  destruct (git_answer E args c w); [destruct dest|];
    exists [Git args c t]; simpl; auto.
Qed.

Lemma quiet_run_git (args : list string) (c : option path) (t : Z) :
  respects no_prompt (Install._run_git_command E args c t).
Proof. apply quiet_git. Qed.

End Quiet.

(** Proves that a computation built from git calls and prints is quiet. *)
Ltac quiet_step :=
  first
    [ apply respects_ret; [exact no_prompt_refl | exact no_prompt_trans]
    | apply quiet_print
    | apply quiet_run_git
    | apply quiet_git
    | apply respects_bind; [exact no_prompt_refl | exact no_prompt_trans | | intros]
    | apply respects_try; [exact no_prompt_refl | exact no_prompt_trans | | intros]
    | apply respects_when; [exact no_prompt_refl | exact no_prompt_trans | ]
    | match goal with
      | |- respects _ (if ?c then _ else _) => destruct c
      | |- respects _ (match ?l with [] => _ | _ :: _ => _ end) => destruct l
      | |- respects _ (let '(_, _) := ?p in _) => destruct p
      end ].

Ltac quiet := repeat quiet_step.

Section QuietInstaller.

Variable E : environment.

Lemma quiet_get_current_branch (repo_dir : path) :
  respects no_prompt (Install._git_get_current_branch E repo_dir).
Proof. unfold Install._git_get_current_branch; quiet. Qed.

Lemma quiet_abort_operations (repo_dir : path) :
  respects no_prompt (Install._git_abort_operations E repo_dir).
Proof. unfold Install._git_abort_operations; quiet. Qed.

Lemma quiet_force_clean_checkout (repo_dir : path) (branch : string) :
  respects no_prompt (Install._git_force_clean_checkout E repo_dir branch).
Proof. unfold Install._git_force_clean_checkout; quiet. Qed.

End QuietInstaller.

(** C6.  When the branch [_safe_git_update] reads differs from the target
    branch, the run records no [input] call, whatever the environment
    answers: conflicts, local changes and untracked files are not looked
    at, and the confirmation prompt is never reached. *)
Theorem branch_switch_never_prompts (E : environment) (repo_dir : path)
  (w : world) (current_branch : string) :
  fst (Install._git_get_current_branch E repo_dir w) = Ret current_branch ->
  current_branch <> Install.INSTALL_BRANCH ->
  exists es,
    trace (snd (Install._safe_git_update E repo_dir w)) = trace w ++ es
    /\ Forall (fun e => is_input e = false) es.
Proof.
  intros Hbranch Hne. change (no_prompt w (snd (Install._safe_git_update E repo_dir w))).
  assert (Heqb : String.eqb current_branch Install.INSTALL_BRANCH = false)
    by (apply String.eqb_neq; exact Hne).
  unfold Install._safe_git_update.
  apply respects_try_at;
    [exact no_prompt_refl|exact no_prompt_trans| |intros e w' _; revert w'; quiet].
  apply respects_bind_at;
    [exact no_prompt_refl|exact no_prompt_trans|apply quiet_get_current_branch|].
  intros b w' Hb. rewrite Hb in Hbranch; simpl in Hbranch.
  injection Hbranch as ->. clear Hb. cbv zeta. rewrite Heqb.
  simpl negb; cbv iota. revert w'.
  repeat first [ apply quiet_abort_operations
               | apply quiet_force_clean_checkout
               | quiet_step ].
Qed.

(** An environment for an update in place: the working copy is on
    [branch], the plain pull fails, the fetch succeeds, and the status
    lists a modified file, a conflict and an untracked file. *)
Definition dirty_env (branch : string) (answer : option string) : environment :=
  Environment
    (fun args _ _ =>
       match args with
       | "rev-parse" :: _ => Some (Completed 0 (branch ^^ String newline "") "")
       | "pull" :: _ => Some (Completed 1 "" "CONFLICT")
       | "status" :: _ =>
           Some (Completed 0 (" M README.md" ^^ String newline
                              "UU docs/hooks.md" ^^ String newline
                              "?? notes.txt" ^^ String newline "") "")
       | _ => Some (Completed 0 "" "")
       end)
    (fun _ => []) (fun _ _ => None) (fun _ _ => None) (fun _ _ => answer).

Lemma branch_switch_never_prompts_witness :
  exists es,
    trace (snd (Install._safe_git_update (dirty_env "develop" (Some "n"))
                  old_install old_world))
    = trace old_world ++ es
    /\ Forall (fun e => is_input e = false) es.
Proof.
  apply (branch_switch_never_prompts (dirty_env "develop" (Some "n"))
           old_install old_world "develop").
  - reflexivity.
  - discriminate.
Defined.

(** On the target branch the same working copy does reach the prompt, and
    declining it ends the update with [False] before any reset. *)
Example same_branch_prompts :
  let r := Install._safe_git_update (dirty_env "main" (Some "n"))
             old_install old_world in
  fst r = Ret false
  /\ In (Input "Continue and discard local changes? [y/N]: ") (trace (snd r))
  /\ ~ In (reset_call old_install) (trace (snd r)).
Proof.
  cbv zeta. split; [reflexivity|split].
  - vm_compute. tauto.
  - vm_compute. intros H.
    repeat (destruct H as [H|H]; [discriminate H|]). exact H.
Qed.

(** ** Weakest preconditions *)

(** [wp m Q w]: run from [w], [m] ends in an outcome and a world that
    satisfy [Q]. *)
Definition wp {A} (m : M A) (Q : outcome A -> world -> Prop) (w : world)
  : Prop :=
  Q (fst (m w)) (snd (m w)).

Section WpRules.

Variable E : environment.

Lemma wp_ret {A} (a : A) Q w : Q (Ret a) w -> wp (ret a) Q w.
Proof. exact (fun H => H). Qed.

Lemma wp_bind {A B} (m : M A) (k : A -> M B) Q w :
  wp m (fun o w' => match o with
                    | Ret a => wp (k a) Q w'
                    | Raise e => Q (Raise e) w'
                    end) w ->
  wp (bind m k) Q w.
Proof. unfold wp, bind. destruct (m w) as [[a|e] w']; simpl; auto. Qed.

Lemma wp_try {A} (m : M A) (h : exn -> M A) Q w :
  wp m (fun o w' => match o with
                    | Ret a => Q (Ret a) w'
                    | Raise e => wp (h e) Q w'
                    end) w ->
  wp (try m h) Q w.
Proof. unfold wp, try. destruct (m w) as [[a|e] w']; simpl; auto. Qed.

(** Any fact about the run of [m] may be used to conclude. *)
Lemma wp_run {A} (m : M A) (Q : outcome A -> world -> Prop) w :
  (forall o w', m w = (o, w') -> Q o w') -> wp m Q w.
Proof. intros H; unfold wp. apply H, surjective_pairing. Qed.

Lemma wp_emit (e : event) Q w : Q (Ret tt) (after w [e]) -> wp (emit e) Q w.
Proof. exact (fun H => H). Qed.

Lemma wp_print (line : string) Q w :
  Q (Ret tt) (after w [Print line]) -> wp (print line) Q w.
Proof. exact (fun H => H). Qed.

Lemma wp_path_exists (p : path) Q w :
  Q (Ret (match fs w p with Some _ => true | None => false end)) w ->
  wp (path_exists p) Q w.
Proof. exact (fun H => H). Qed.

Lemma wp_is_dir (p : path) Q w :
  Q (Ret (match fs w p with Some Dir => true | _ => false end)) w ->
  wp (is_dir p) Q w.
Proof. exact (fun H => H). Qed.

Lemma wp_git (args : list string) (c : option path) (t : Z) Q w :
  (git_answer E args c w = None ->
   forall e, Q (Raise e) (after w [Git args c t])) ->
  (forall r, git_answer E args c w = Some r ->
             Q (Ret r) (after w [Git args c t])) ->
  wp (git E args c t None) Q w.
Proof.
  unfold wp, git, after. intros Hn Hs.
  destruct (git_answer E args c w); simpl; auto.
Qed.

Lemma wp_clone (args : list string) (c : option path) (t : Z) (dest : path)
  Q w :
  (git_answer E args c w = None ->
   forall e, Q (Raise e) (after w [Git args c t])) ->
  (forall r, git_answer E args c w = Some r ->
             Q (Ret r) (World (write_tree dest (clone_tree E w) (fs w)) (cwd w)
                          (trace w ++ [Git args c t]))) ->
  wp (git E args c t (Some dest)) Q w.
Proof.
  unfold wp, git, after. intros Hn Hs.
  destruct (git_answer E args c w); simpl; auto.
Qed.

Lemma wp_rmtree (p : path) Q w :
  (fs w p <> Some Dir \/ rmtree_error E p (after w [Rmtree p]) <> None ->
   forall e, Q (Raise e) (after w [Rmtree p])) ->
  (fs w p = Some Dir -> rmtree_error E p (after w [Rmtree p]) = None ->
   Q (Ret tt) (World (remove_tree p (fs w)) (cwd w) (trace w ++ [Rmtree p]))) ->
  wp (rmtree E p) Q w.
Proof.
  unfold wp, rmtree, bind, emit, after; simpl. intros Hf Hs.
  destruct (fs w p) as [[|]|] eqn:Hp; simpl;
    try (apply Hf; left; congruence).
  destruct (rmtree_error E p _) eqn:He; simpl.
  - apply Hf; right; congruence.
  - apply Hs; auto.
Qed.

Lemma wp_mkdir_parents (p : path) Q w :
  (forall e, Q (Raise e) (after w [Mkdir p])) ->
  Q (Ret tt) (World (make_dirs (ancestors p) (fs w)) (cwd w)
                (trace w ++ [Mkdir p])) ->
  wp (mkdir_parents E p) Q w.
Proof.
  unfold wp, mkdir_parents, bind, emit, after; simpl. intros Hf Hs.
  destruct (mkdir_error E p _); simpl; [apply Hf|].
  destruct (existsb _ _); simpl; [apply Hf|apply Hs].
Qed.

Lemma wp_chdir (p : path) Q w :
  (fs w p <> Some Dir -> forall e, Q (Raise e) (after w [Chdir p])) ->
  (fs w p = Some Dir -> Q (Ret tt) (World (fs w) p (trace w ++ [Chdir p]))) ->
  wp (chdir p) Q w.
Proof.
  unfold wp, chdir, bind, emit, after; simpl. intros Hf Hs.
  destruct (fs w p) as [[|]|] eqn:Hp; simpl;
    try (apply Hf; congruence). apply Hs; reflexivity.
Qed.

Lemma wp_input (prompt : string) Q w :
  (input_answer E prompt w = None ->
   forall e, Q (Raise e) (after w [Input prompt])) ->
  (forall s, input_answer E prompt w = Some s ->
             Q (Ret s) (after w [Input prompt])) ->
  wp (input E prompt) Q w.
Proof.
  unfold wp, input, after. intros Hn Hs.
  destruct (input_answer E prompt w); simpl; auto.
Qed.

End WpRules.

(** One step of symbolic execution that opens no case on a condition. *)
Ltac wp_basic :=
  lazymatch goal with
  | |- wp (bind _ _) _ _ => apply wp_bind
  | |- wp (try _ _) _ _ => apply wp_try
  | |- wp (ret _) _ _ => apply wp_ret
  | |- wp (print _) _ _ => apply wp_print
  | |- wp (emit _) _ _ => apply wp_emit
  | |- wp (path_exists _) _ _ => apply wp_path_exists
  | |- wp (is_dir _) _ _ => apply wp_is_dir
  | |- wp (Install._run_git_command _ _ _ _) _ _ =>
      apply wp_git; [intros ? ? | intros ? ?]
  | |- wp (git _ _ _ _ None) _ _ => apply wp_git; [intros ? ? | intros ? ?]
  | |- wp (git _ _ _ _ (Some _)) _ _ =>
      apply wp_clone; [intros ? ? | intros ? ?]
  | |- wp (rmtree _ _) _ _ => apply wp_rmtree; [intros ? ? | intros ? ?]
  | |- wp (mkdir_parents _ _) _ _ => apply wp_mkdir_parents; [intros ? | ]
  | |- wp (chdir _) _ _ => apply wp_chdir; [intros ? ? | intros ?]
  | |- wp (input _ _) _ _ => apply wp_input; [intros ? ? | intros ? ?]
  | |- wp (Install.when true _) _ _ => unfold Install.when
  | |- wp (Install.when false _) _ _ => unfold Install.when
  | |- wp (if true then _ else _) _ _ => idtac
  | |- wp (if false then _ else _) _ _ => idtac
  end; cbv beta iota.

(** One step of symbolic execution. *)
Ltac wp_step :=
  first
    [ wp_basic
    | lazymatch goal with
      | |- wp (Install.when ?c _) _ _ => destruct c eqn:?; unfold Install.when
      | |- wp (if negb ?c then _ else _) _ _ => destruct c eqn:?; cbn [negb]
      | |- wp (if ?c then _ else _) _ _ => destruct c eqn:?
      end; cbv beta iota ].

Ltac wp_run := repeat wp_step.

(** ** Fresh clone *)

Definition clone_call (install_dir : path) : event :=
  Git ["clone"; "-b"; Install.INSTALL_BRANCH; Install.REPO_URL;
       str_path install_dir] None 120.

(** C7.  [_fresh_clone] always returns a boolean; it returns [True] only
    if [docs/docs_manifest.json] exists inside the install directory in the
    world it leaves, which is the world right after the clone; and whenever
    that file is absent there it returns [False], whatever exit code the
    clone reported. *)
Theorem fresh_clone_needs_marker (E : environment) (install_dir : path)
  (w : world) :
  exists b,
    fst (Install._fresh_clone E install_dir w) = Ret b
    /\ (b = true ->
        fs (snd (Install._fresh_clone E install_dir w))
           (Install.manifest_file install_dir) <> None
        /\ In (clone_call install_dir)
              (trace (snd (Install._fresh_clone E install_dir w))))
    /\ (fs (snd (Install._fresh_clone E install_dir w))
           (Install.manifest_file install_dir) = None -> b = false).
Proof.
  change (wp (Install._fresh_clone E install_dir)
            (fun o w' =>
               exists b, o = Ret b
                 /\ (b = true ->
                     fs w' (Install.manifest_file install_dir) <> None
                     /\ In (clone_call install_dir) (trace w'))
                 /\ (fs w' (Install.manifest_file install_dir) = None ->
                     b = false)) w).
  unfold Install._fresh_clone. wp_run;
    try (exists false; repeat split; intros; congruence).
  all: exists true; simpl in *; repeat split; intros; unfold clone_call.
  all: try (rewrite !in_app_iff; simpl; tauto).
  all: destruct (write_tree _ _ _ (Install.manifest_file install_dir));
    congruence.
Qed.

(** With the manifest in the cloned tree the fresh clone succeeds; when
    the clone exits with 0 but writes no manifest it fails. *)
Example fresh_clone_complete :
  fst (Install._fresh_clone (status_env 0 "" None) target old_world) = Ret true.
Proof. reflexivity. Qed.

Definition empty_clone_env : environment :=
  Environment (fun _ _ _ => Some (Completed 0 "" ""))
    (fun _ => [([], Dir); (["README.md"], File)])
    (fun _ _ => None) (fun _ _ => None) (fun _ _ => None).

Example fresh_clone_incomplete :
  let r := Install._fresh_clone empty_clone_env target old_world in
  fst r = Ret false
  /\ fs (snd r) target = Some Dir
  /\ fs (snd r) (Install.manifest_file target) = None
  /\ In (Print "[!] Clone appears incomplete - missing docs_manifest.json")
        (trace (snd r)).
Proof. cbv zeta. repeat split; try reflexivity. vm_compute; tauto. Qed.

(** ** Directories a run leaves alone *)

(** Between two worlds the directory [old] stayed in place and no
    [shutil.rmtree] was called on it. *)
Definition untouched (old : path) (w w' : world) : Prop :=
  (fs w old <> None -> fs w' old <> None)
  /\ exists es, trace w' = trace w ++ es /\ ~ In (Rmtree old) es.

Lemma untouched_refl (old : path) (w : world) : untouched old w w.
Proof. split; [auto|]. exists []; rewrite app_nil_r; auto. Qed.

Lemma untouched_trans (old : path) (w1 w2 w3 : world) :
  untouched old w1 w2 -> untouched old w2 w3 -> untouched old w1 w3.
Proof.
  intros [F1 [es1 [H1 N1]]] [F2 [es2 [H2 N2]]]. split; [auto|].
  exists (es1 ++ es2); split.
  - rewrite H2, H1, app_assoc; reflexivity.
  - rewrite in_app_iff; tauto.
Qed.

Lemma under_refl (p : path) : under p p = true.
Proof. induction p; simpl; [reflexivity|]. rewrite String.eqb_refl; auto. Qed.

Lemma path_eqb_eq (p q : path) : path_eqb p q = true <-> p = q.
Proof. unfold path_eqb; destruct (path_eq_dec p q); split; congruence. Qed.

Lemma path_eqb_refl (p : path) : path_eqb p p = true.
Proof. apply path_eqb_eq; reflexivity. Qed.

Section Untouched.

Variable E : environment.
Variable old : path.

Lemma untouched_emit (e : event) :
  e <> Rmtree old -> respects (untouched old) (emit e).
Proof.
  intros He w; split; [auto|]. exists [e]; split; [reflexivity|].
  intros [H|[]]; congruence.
Qed.

Lemma untouched_print (line : string) : respects (untouched old) (print line).
Proof. apply untouched_emit; discriminate. Qed.

Lemma untouched_git (args : list string) (c : option path) (t : Z)
  (dest : option path) : respects (untouched old) (git E args c t dest).
Proof.
  intros w; unfold git, untouched.
  destruct (git_answer E args c w); [destruct dest|]; simpl.
  - split.
    + unfold write_tree. destruct (find _ _); [discriminate|auto].
    + exists [Git args c t]; split; [reflexivity|].
      intros [H|[]]; discriminate.
  - split; [auto|]. exists [Git args c t]; split; [reflexivity|].
    intros [H|[]]; discriminate.
  - split; [auto|]. exists [Git args c t]; split; [reflexivity|].
    intros [H|[]]; discriminate.
Qed.

Lemma untouched_run_git (args : list string) (c : option path) (t : Z) :
  respects (untouched old) (Install._run_git_command E args c t).
Proof. apply untouched_git. Qed.

Lemma untouched_rmtree (p : path) :
  under p old = false -> respects (untouched old) (rmtree E p).
Proof.
  intros Hp w. unfold rmtree, bind, emit, untouched; simpl.
  assert (Hne : ~ In (Rmtree old) [Rmtree p]).
  { intros [H|[]]. injection H as ->. rewrite under_refl in Hp; discriminate. }
  destruct (fs w p) as [[|]|]; simpl.
  - split; [auto|exists [Rmtree p]; auto].
  - destruct (rmtree_error E p _); simpl.
    + split; [auto|exists [Rmtree p]; auto].
    + split; [|exists [Rmtree p]; auto].
      unfold remove_tree; rewrite Hp; auto.
  - split; [auto|exists [Rmtree p]; auto].
Qed.

Lemma untouched_mkdir_parents (p : path) :
  respects (untouched old) (mkdir_parents E p).
Proof.
  intros w. unfold mkdir_parents, bind, emit, untouched; simpl.
  assert (Hne : ~ In (Rmtree old) [Mkdir p]) by (intros [H|[]]; discriminate).
  destruct (mkdir_error E p _); simpl.
  - split; [auto|exists [Mkdir p]; auto].
  - destruct (existsb _ (ancestors p)); simpl.
    + split; [auto|exists [Mkdir p]; auto].
    + split; [|exists [Mkdir p]; auto].
      unfold make_dirs. destruct (existsb _ _); [discriminate|auto].
Qed.

Lemma untouched_chdir (p : path) : respects (untouched old) (chdir p).
Proof.
  intros w. unfold chdir, bind, emit, untouched; simpl.
  assert (Hne : ~ In (Rmtree old) [Chdir p]) by (intros [H|[]]; discriminate).
  destruct (fs w p) as [[|]|]; simpl; (split; [auto|exists [Chdir p]; auto]).
Qed.

Lemma untouched_path_exists (p : path) :
  respects (untouched old) (path_exists p).
Proof. intros w; apply untouched_refl. Qed.

Lemma untouched_is_dir (p : path) : respects (untouched old) (is_dir p).
Proof. intros w; apply untouched_refl. Qed.

End Untouched.

(** Proves that a computation leaves [old] alone; [rmtree] calls need
    [under _ old = false] among the hypotheses. *)
Ltac untouched_step :=
  first
    [ apply respects_ret; [apply untouched_refl | apply untouched_trans]
    | apply untouched_print
    | apply untouched_run_git
    | apply untouched_git
    | apply untouched_mkdir_parents
    | apply untouched_chdir
    | apply untouched_path_exists
    | apply untouched_is_dir
    | apply untouched_rmtree; assumption
    | apply respects_bind;
        [apply untouched_refl | apply untouched_trans | | intros]
    | apply respects_try;
        [apply untouched_refl | apply untouched_trans | | intros]
    | apply respects_when; [apply untouched_refl | apply untouched_trans | ]
    | match goal with
      | |- respects _ (if ?c then _ else _) => destruct c
      end ].

Section UntouchedInstaller.

Variable E : environment.
Variables install_dir old : path.

Lemma untouched_has_uncommitted_changes (repo_dir : path) (ex : bool) :
  respects (untouched old) (Install._git_has_uncommitted_changes E repo_dir ex).
Proof. unfold Install._git_has_uncommitted_changes; repeat untouched_step. Qed.

(** A fresh clone touches nothing outside the install directory. *)
Lemma untouched_fresh_clone :
  under install_dir old = false ->
  respects (untouched old) (Install._fresh_clone E install_dir).
Proof. intros H; unfold Install._fresh_clone; repeat untouched_step. Qed.

End UntouchedInstaller.

(** ** Migration *)

(** C8.  Let the old directory be under version control.  If the
    manifest-inclusive check reports uncommitted changes, a migration,
    successful or not, leaves the old directory in place and never calls
    [shutil.rmtree] on it; this is for an old directory that does not lie
    inside the install directory, since a fresh clone first removes an
    incomplete install directory with all it contains.  If the check
    reports no changes and the fresh clone succeeds, the migration calls
    [shutil.rmtree] on the old directory and returns [True] whether or not
    that call fails: either the directory is gone, or the failure is
    printed. *)
Theorem migration_old_directory (E : environment) (install_dir old_dir : path)
  (w : world) :
  fs w (child old_dir ".git") <> None ->
  (fst (Install._git_has_uncommitted_changes E old_dir false w) = Ret true ->
   under install_dir old_dir = false ->
   untouched old_dir w (snd (Install._migrate_installation E install_dir old_dir w)))
  /\
  (fst (Install._git_has_uncommitted_changes E old_dir false w) = Ret false ->
   fst (Install._fresh_clone E install_dir (after w [status_call old_dir]))
     = Ret true ->
   let r := Install._migrate_installation E install_dir old_dir w in
   fst r = Ret true
   /\ In (Rmtree old_dir) (trace (snd r))
   /\ ((fs (snd r) old_dir = None
        /\ In (Print "[+] Old installation removed") (trace (snd r)))
       \/ exists e,
            In (Print ("[!] Could not remove old installation: " ^^ e))
               (trace (snd r)))).
Proof.
  intros Hgit. split.
  - intros Hchg Hout. unfold Install._migrate_installation.
    apply respects_try_at;
      [apply untouched_refl|apply untouched_trans|
      |intros e w' _; revert w'; repeat untouched_step].
    apply respects_bind_at;
      [apply untouched_refl|apply untouched_trans|apply untouched_path_exists|].
    intros versioned w' Hv. unfold path_exists in Hv.
    injection Hv as <- <-.
    destruct (fs w (child old_dir ".git")); [|congruence].
    apply respects_bind_at; [apply untouched_refl|apply untouched_trans| |].
    + match goal with
      | |- untouched ?o ?x (snd (?m ?x)) =>
          cut (respects (untouched o) m); [intros Hr; apply Hr|]
      end.
      repeat first [apply untouched_has_uncommitted_changes | untouched_step].
    + intros should_preserve w' Hrun.
      assert (should_preserve = true) as ->.
      { unfold bind in Hrun. rewrite has_uncommitted_changes_run in *.
        simpl in Hchg. injection Hchg as Hchg. rewrite Hchg in Hrun.
        simpl in Hrun. injection Hrun as <- _. reflexivity. }
      clear Hrun. revert w'.
      repeat first [apply untouched_fresh_clone; assumption | untouched_step].
  - intros Hchg Hclone. cbv zeta.
    change (wp (Install._migrate_installation E install_dir old_dir)
              (fun o w' =>
                 o = Ret true
                 /\ In (Rmtree old_dir) (trace w')
                 /\ ((fs w' old_dir = None
                      /\ In (Print "[+] Old installation removed") (trace w'))
                     \/ exists e,
                          In (Print ("[!] Could not remove old installation: "
                                     ^^ e)) (trace w'))) w).
    rewrite has_uncommitted_changes_run in Hchg. simpl in Hchg.
    injection Hchg as Hchg.
    unfold Install._migrate_installation.
    wp_step. wp_step. wp_step.
    destruct (fs w (child old_dir ".git")); [|congruence].
    wp_run.
    apply wp_run. intros o w' Hrun.
    rewrite has_uncommitted_changes_run, Hchg in Hrun.
    injection Hrun as <- <-. cbv beta iota.
    wp_run.
    apply wp_run. intros o w' Hrun. rewrite Hrun in Hclone. simpl in Hclone.
    subst o. clear Hrun. cbv beta iota. cbn [negb].
    wp_run; simpl; rewrite ?in_app_iff; simpl.
    + split; [reflexivity|]. split; [tauto|].
      right. exists (exn_msg e). rewrite !in_app_iff; simpl. tauto.
    + split; [reflexivity|]. split; [tauto|].
      left. split; [|tauto]. unfold remove_tree. rewrite under_refl; reflexivity.
Qed.

(** A migration from a working copy with a modified file keeps it; from a
    clean one, removes it. *)
Lemma migration_old_directory_witness :
  untouched old_install old_world
    (snd (Install._migrate_installation
            (status_env 0 (" M README.md" ^^ String newline "") None)
            target old_install old_world))
  /\
  (let r := Install._migrate_installation (status_env 0 "" None)
              target old_install old_world in
   fst r = Ret true
   /\ In (Rmtree old_install) (trace (snd r))
   /\ ((fs (snd r) old_install = None
        /\ In (Print "[+] Old installation removed") (trace (snd r)))
       \/ exists e,
            In (Print ("[!] Could not remove old installation: " ^^ e))
               (trace (snd r)))).
Proof.
  assert (Hgit : fs old_world (child old_install ".git") <> None)
    by (intros H; vm_compute in H; discriminate H).
  split.
  - refine (proj1 (migration_old_directory
                     (status_env 0 (" M README.md" ^^ String newline "") None)
                     target old_install old_world Hgit) _ _);
      vm_compute; reflexivity.
  - refine (proj2 (migration_old_directory (status_env 0 "" None)
                     target old_install old_world Hgit) _ _);
      vm_compute; reflexivity.
Defined.

Example migration_keeps_changed_copy :
  let r := Install._migrate_installation
             (status_env 0 (" M README.md" ^^ String newline "") None)
             target old_install old_world in
  fst r = Ret true
  /\ fs (snd r) old_install = Some Dir
  /\ fs (snd r) (Install.manifest_file target) = Some File.
Proof. cbv zeta; repeat split; reflexivity. Qed.

Example migration_removes_clean_copy :
  let r := Install._migrate_installation (status_env 0 "" None)
             target old_install old_world in
  fst r = Ret true
  /\ fs (snd r) old_install = None
  /\ fs (snd r) (Install.manifest_file target) = Some File.
Proof. cbv zeta; repeat split; reflexivity. Qed.

(** ** Cleanup of old installations *)

Lemma str_path_truthy (p : path) : truthy (strip (str_path p)) = true.
Proof.
  rewrite truthy_strip. destruct p as [|c p]; reflexivity.
Qed.

(** C1, the installer's side.  When the status check on a
    version-controlled old directory fails (the command raises or exits
    non-zero), [_git_has_uncommitted_changes] answers [False], so
    [cleanup_old_installations] takes the directory for clean and removes
    it. *)
Theorem cleanup_removes_when_status_fails (E : environment) (old_dir : path)
  (w : world) :
  fs w (child old_dir ".git") = Some Dir ->
  fs w old_dir = Some Dir ->
  (forall w', exits_zero (git_answer E ["status"; "--porcelain"]
                            (Some old_dir) w') = false) ->
  (forall w', rmtree_error E old_dir w' = None) ->
  let r := Install.cleanup_old_installations E [old_dir] w in
  fst r = Ret true
  /\ fs (snd r) old_dir = None
  /\ In (Rmtree old_dir) (trace (snd r))
  /\ In (Print "    [+] Removed (clean)") (trace (snd r)).
Proof.
  intros Hgit Hold Hstatus Hrm. cbv zeta.
  change (wp (Install.cleanup_old_installations E [old_dir])
            (fun o w' => o = Ret true
                         /\ fs w' old_dir = None
                         /\ In (Rmtree old_dir) (trace w')
                         /\ In (Print "    [+] Removed (clean)") (trace w')) w).
  unfold Install.cleanup_old_installations, Install.for_each,
    Install.cleanup_one.
  rewrite str_path_truthy. cbn [negb].
  repeat wp_basic. rewrite !fs_after, Hgit. cbv iota.
  repeat wp_basic.
  apply wp_run. intros o w' Hrun.
  rewrite has_uncommitted_changes_run in Hrun.
  match type of Hrun with
  | context [git_answer E ?a ?c ?x] =>
      pose proof (Hstatus x) as Hs; unfold exits_zero in Hs;
      destruct (git_answer E a c x) as [r|]
  end.
  - rewrite Hs in Hrun. injection Hrun as <- <-. cbv beta iota. cbn [negb].
    wp_run; simpl in *; try congruence.
    + exfalso. destruct H as [H|H]; [congruence|]. apply H, Hrm.
    + unfold remove_tree. rewrite under_refl, !in_app_iff; simpl. tauto.
  - injection Hrun as <- <-. cbv beta iota. cbn [negb].
    wp_run; simpl in *; try congruence.
    + exfalso. destruct H as [H|H]; [congruence|]. apply H, Hrm.
    + unfold remove_tree. rewrite under_refl, !in_app_iff; simpl. tauto.
Qed.

(** The status command exits with 128 on the old working copy (a damaged
    repository): the installer's cleanup removes the directory. *)
Lemma cleanup_removes_when_status_fails_witness :
  let r := Install.cleanup_old_installations
             (status_env 128 "" None) [old_install] old_world in
  fst r = Ret true
  /\ fs (snd r) old_install = None
  /\ In (Rmtree old_install) (trace (snd r))
  /\ In (Print "    [+] Removed (clean)") (trace (snd r)).
Proof.
  apply (cleanup_removes_when_status_fails (status_env 128 "" None)
           old_install old_world); reflexivity.
Defined.

(** ** The scanner's post-processing *)

Section Deduplication.

Variable resolve : path -> path.

(** Whether a resolved path is left out whatever was seen. *)
Variable excluded : path -> bool.

(** One turn of a deduplication loop. *)
Variable turn : list path * list path -> path -> list path * list path.

Hypothesis turn_spec : forall unique_paths seen_paths p,
  turn (unique_paths, seen_paths) p =
  if negb (excluded (resolve p))
     && negb (existsb (path_eqb (resolve p)) seen_paths)
  then (unique_paths ++ [resolve p], resolve p :: seen_paths)
  else (unique_paths, seen_paths).

Lemma existsb_path_eqb (x : path) (l : list path) :
  existsb (path_eqb x) l = true <-> In x l.
Proof.
  rewrite existsb_exists. split.
  - intros [y [Hy Heq]]. apply path_eqb_eq in Heq; subst; assumption.
  - intros H; exists x; split; [assumption|apply path_eqb_refl].
Qed.

(** What the loop maintains: no path twice, the seen set is the list, and
    the list holds the resolved paths met so far that are not excluded. *)
Definition dedup_invariant (met : list path) (st : list path * list path)
  : Prop :=
  NoDup (fst st)
  /\ (forall x, In x (snd st) <-> In x (fst st))
  /\ (forall x, In x (fst st) <->
                excluded x = false /\ In x (map resolve met)).

Lemma dedup_fold (todo met : list path) (st : list path * list path) :
  dedup_invariant met st ->
  dedup_invariant (met ++ todo) (fold_left turn todo st).
Proof.
  revert met st; induction todo as [|p todo IH]; intros met st Hinv; simpl.
  - rewrite app_nil_r; assumption.
  - replace (met ++ p :: todo) with ((met ++ [p]) ++ todo)
      by (rewrite <- app_assoc; reflexivity).
    apply IH. destruct st as [u s]. rewrite turn_spec.
    destruct Hinv as [Hnd [Hseen Hmem]]; simpl in Hnd, Hseen, Hmem.
    assert (Hmet : forall x, In x (map resolve (met ++ [p])) <->
                             In x (map resolve met) \/ x = resolve p).
    { intros x. rewrite map_app, in_app_iff; simpl. intuition. }
    destruct (excluded (resolve p)) eqn:Hex;
      [|destruct (existsb (path_eqb (resolve p)) s) eqn:Hs]; simpl;
      (split; [|split]); simpl.
    + assumption.
    + assumption.
    + intros x; rewrite Hmet, Hmem. split; [tauto|].
      intros [Hx [H|H]]; [tauto|subst; congruence].
    + assumption.
    + assumption.
    + apply existsb_path_eqb, Hseen in Hs.
      intros x; rewrite Hmet. split.
      * intros Hx; apply Hmem in Hx; tauto.
      * intros [Hx [H|H]]; [apply Hmem; tauto|subst; assumption].
    + apply NoDup_app; [assumption|repeat constructor; simpl; tauto|].
      intros x Hx [<-|[]]. apply Hseen, existsb_path_eqb in Hx. congruence.
    + intros x; rewrite in_app_iff; simpl. rewrite Hseen. intuition.
    + intros x; rewrite in_app_iff, Hmet, Hmem; simpl. split.
      * intros [H|[<-|[]]]; tauto.
      * intros [Hx [H|H]]; [tauto|subst; auto].
Qed.

Lemma dedup_from_empty (paths : list path) :
  dedup_invariant paths (fold_left turn paths ([], [])).
Proof.
  apply (dedup_fold paths []). split; [constructor|]. simpl.
  split; intros x; tauto.
Qed.

End Deduplication.

Section Sorting.

Lemma sort_in (l : list path) (x : path) : In x (PathSort.sort l) <-> In x l.
Proof.
  pose proof (PathSort.Permuted_sort l) as H. split; intros Hx.
  - eapply Permutation_in; [apply Permutation_sym; exact H|exact Hx].
  - eapply Permutation_in; [exact H|exact Hx].
Qed.

Lemma sort_nodup (l : list path) : NoDup l -> NoDup (PathSort.sort l).
Proof.
  intros H. eapply Permutation_NoDup; [apply PathSort.Permuted_sort|exact H].
Qed.

Lemma sort_sorted (l : list path) :
  Sorted (fun p q => path_leb p q = true) (PathSort.sort l).
Proof. exact (PathSort.Sorted_sort l). Qed.

Lemma nodup_once (l : list path) (x : path) :
  NoDup l -> In x l -> count_occ path_eq_dec l x = 1%nat.
Proof. intros Hnd Hx. apply NoDup_count_occ'; assumption. Qed.

End Sorting.

Section ScannerFacts.

Variable resolve : path -> path.

Lemma install_deduplicate_invariant (install_dir : path) (paths : list path) :
  dedup_invariant resolve (fun a => path_eqb a (resolve install_dir)) paths
    (Install.deduplicate install_dir resolve paths).
Proof.
  unfold Install.deduplicate. apply dedup_from_empty. reflexivity.
Qed.

Lemma uninstall_deduplicate_invariant (paths : list path) :
  dedup_invariant resolve (fun _ => false) paths
    (Uninstall.deduplicate resolve paths).
Proof.
  unfold Uninstall.deduplicate. apply dedup_from_empty. reflexivity.
Qed.

Lemma path_eqb_false (p q : path) : path_eqb p q = false <-> p <> q.
Proof. unfold path_eqb; destruct (path_eq_dec p q); split; congruence. Qed.

End ScannerFacts.

(** C9, as stated, fails for the uninstaller's scanner: it has no install
    directory to exclude, and the canonical target found in the
    configuration is part of its result (once). *)
Lemma uninstall_scanner_keeps_target :
  Uninstall.find_installations (fun p => p) [target] [target] = [target].
Proof. reflexivity. Qed.

(** C9, amended.  The result of either scanner has no duplicate resolved
    path and is sorted, so a path discovered from both the command file and
    the settings document appears once.  The installer's scanner returns
    exactly the resolved candidates other than the resolved install
    directory, which therefore never appears; the uninstaller's scanner
    returns every resolved candidate, the canonical target included when it
    was discovered. *)
Theorem scanner_results_deduplicated_sorted (resolve : path -> path)
  (install_dir : path) (command_file_paths settings_paths : list path)
  (w : world) :
  (exists l,
     fst (Install.find_existing_installations install_dir resolve
            command_file_paths settings_paths w) = Ret l
     /\ NoDup l
     /\ Sorted (fun p q => path_leb p q = true) l
     /\ ~ In (resolve install_dir) l
     /\ (forall x, In x l <->
                   x <> resolve install_dir
                   /\ In x (map resolve
                              (Install.candidate_paths install_dir
                                 command_file_paths settings_paths w)))
     /\ (forall p q, In p command_file_paths -> In q settings_paths ->
                     resolve p = resolve q ->
                     resolve p <> resolve install_dir ->
                     count_occ path_eq_dec l (resolve p) = 1%nat))
  /\
  (let l := Uninstall.find_installations resolve
              command_file_paths settings_paths in
   NoDup l
   /\ Sorted (fun p q => path_leb p q = true) l
   /\ (forall x, In x l <->
                 In x (map resolve (command_file_paths ++ settings_paths)))
   /\ (forall p q, In p command_file_paths -> In q settings_paths ->
                   resolve p = resolve q ->
                   count_occ path_eq_dec l (resolve p) = 1%nat)).
Proof.
  split.
  - unfold Install.find_existing_installations; simpl.
    set (paths := Install.candidate_paths install_dir command_file_paths
                    settings_paths w).
    destruct (install_deduplicate_invariant resolve install_dir paths)
      as [Hnd [_ Hmem]].
    assert (Hin : forall x,
               In x (PathSort.sort (fst (Install.deduplicate install_dir
                                           resolve paths))) <->
               x <> resolve install_dir /\ In x (map resolve paths)).
    { intros x. rewrite sort_in, Hmem, path_eqb_false. tauto. }
    eexists; split; [reflexivity|].
    split; [apply sort_nodup; assumption|].
    split; [apply sort_sorted|].
    split; [intros H; apply Hin in H; tauto|].
    split; [exact Hin|].
    intros p q Hp _ _ Hne. apply nodup_once; [apply sort_nodup; assumption|].
    apply Hin. split; [assumption|]. apply in_map.
    unfold paths, Install.candidate_paths.
    destruct (fs w _); [destruct (negb _)|]; rewrite ?in_app_iff; auto.
  - cbv zeta. unfold Uninstall.find_installations.
    set (paths := command_file_paths ++ settings_paths).
    destruct (uninstall_deduplicate_invariant resolve paths)
      as [Hnd [_ Hmem]].
    assert (Hin : forall x,
               In x (PathSort.sort (fst (Uninstall.deduplicate resolve paths)))
               <-> In x (map resolve paths)).
    { intros x. rewrite sort_in, Hmem. tauto. }
    split; [apply sort_nodup; assumption|].
    split; [apply sort_sorted|].
    split; [exact Hin|].
    intros p q Hp _ _. apply nodup_once; [apply sort_nodup; assumption|].
    apply Hin, in_map. unfold paths; rewrite in_app_iff; auto.
Qed.

(** The same directory named by the command file and by a hook command,
    beside the install directory itself: one entry. *)
Example scanner_overlap :
  fst (Install.find_existing_installations target (fun p => p)
         [old_install; target] [old_install] old_world)
  = Ret [old_install].
Proof. reflexivity. Qed.

(** A world whose working directory is the old installation. *)
Definition world_in_old_install : world := World old_fs old_install [].

(** C10.  When the working directory holds [docs/docs_manifest.json] and is
    not the install directory, the installer's scanner appends it to the
    candidates found in the configuration; it is then part of the result
    unless it resolves to the install directory. *)
Theorem working_directory_is_candidate (resolve : path -> path)
  (install_dir : path) (command_file_paths settings_paths : list path)
  (w : world) :
  fs w (Install.manifest_file (cwd w)) <> None ->
  cwd w <> install_dir ->
  Install.candidate_paths install_dir command_file_paths settings_paths w
    = (command_file_paths ++ settings_paths) ++ [cwd w]
  /\ (resolve (cwd w) <> resolve install_dir ->
      exists l,
        fst (Install.find_existing_installations install_dir resolve
               command_file_paths settings_paths w) = Ret l
        /\ In (resolve (cwd w)) l).
Proof.
  intros Hman Hne.
  assert (Hc : Install.candidate_paths install_dir command_file_paths
                 settings_paths w
               = (command_file_paths ++ settings_paths) ++ [cwd w]).
  { unfold Install.candidate_paths.
    destruct (fs w (Install.manifest_file (cwd w))); [|congruence].
    apply path_eqb_false in Hne. rewrite Hne. reflexivity. }
  split; [exact Hc|]. intros Hres.
  unfold Install.find_existing_installations; simpl.
  eexists; split; [reflexivity|]. apply sort_in.
  apply (install_deduplicate_invariant resolve install_dir).
  split; [apply path_eqb_false; assumption|].
  rewrite Hc. apply in_map. rewrite in_app_iff; simpl; auto.
Qed.

(** Run from inside an old installation that no configuration names, the
    scanner reports that directory. *)
Lemma working_directory_is_candidate_witness :
  Install.candidate_paths target [] [] world_in_old_install = [old_install]
  /\ exists l,
       fst (Install.find_existing_installations target (fun p => p) [] []
              world_in_old_install) = Ret l
       /\ In old_install l.
Proof.
  destruct (working_directory_is_candidate (fun p => p) target [] []
              world_in_old_install) as [H1 H2].
  - intros H; vm_compute in H; discriminate H.
  - discriminate.
  - split; [exact H1|apply H2; discriminate].
Defined.

Example working_directory_reported :
  fst (Install.find_existing_installations target (fun p => p) [] []
         world_in_old_install) = Ret [old_install].
Proof. reflexivity. Qed.

(** ** Rewriting the hooks of the settings document *)

(** The hook group the installer registers. *)
Definition docs_hook : json :=
  Install.new_hook "/home/user/.claude-code-docs/claude-docs-helper.sh hook-check".

(** Two entries of [PreToolUse] without the [{hooks: [...]}] structure: a
    bare string and a dict with no ["hooks"] key.  Neither names the tool. *)
Definition bare_entry : json := JStr "legacy-entry".
Definition flat_entry : json :=
  JDict [("matcher", JStr "Bash"); ("command", JStr "echo done")].

(** A well-formed group that belongs to another tool. *)
Definition other_hook : json :=
  JDict [("matcher", JStr "Write");
         ("hooks", JList [JDict [("type", JStr "command");
                                 ("command", JStr "prettier --write")]])].

Definition settings_with (entries : list json) : json :=
  JDict [("model", JStr "opus");
         ("hooks", JDict [("PreToolUse", JList entries);
                          ("PostToolUse", JList [other_hook])])].

Section DictFacts.

Lemma dict_get_set_eq (k : string) (v : json) (items : list (string * json)) :
  Py.dict_get k (Py.dict_set k v items) = Some v.
Proof.
  induction items as [|[k' v'] items IH]; simpl.
  - rewrite String.eqb_refl; reflexivity.
  - destruct (String.eqb k k') eqn:Hk; simpl; rewrite Hk; auto.
Qed.

Lemma dict_get_set_ne (k k' : string) (v : json)
  (items : list (string * json)) :
  k <> k' -> Py.dict_get k (Py.dict_set k' v items) = Py.dict_get k items.
Proof.
  intros Hne. induction items as [|[k0 v0] items IH]; simpl.
  - apply String.eqb_neq in Hne; rewrite Hne; reflexivity.
  - destruct (String.eqb k' k0) eqn:Hk; simpl.
    + apply String.eqb_eq in Hk; subst k0.
      apply String.eqb_neq in Hne; rewrite Hne; reflexivity.
    + rewrite IH; reflexivity.
Qed.

Lemma dict_has_get (k : string) (items : list (string * json)) :
  Py.dict_has k items = match Py.dict_get k items with
                        | Some _ => true
                        | None => false
                        end.
Proof.
  induction items as [|[k' v'] items IH]; simpl; [reflexivity|].
  destruct (String.eqb k k'); simpl; auto.
Qed.

End DictFacts.

Section HookFacts.

Variable py_str : json -> string.

(** The uninstaller's loop keeps an entry only if it is a dict with a
    ["hooks"] key: an entry without that structure is dropped, whatever it
    says. *)
Lemma filter_hooks_drops_unstructured (entry : json) (rest : list json) :
  Py.is_dict_with "hooks" entry = false ->
  Uninstall.filter_hooks py_str (entry :: rest)
  = Uninstall.filter_hooks py_str rest.
Proof. intros H; simpl; rewrite H; reflexivity. Qed.

Lemma filter_hooks_structured (entries : list json) (e : json) :
  In e (Uninstall.filter_hooks py_str entries) ->
  Py.is_dict_with "hooks" e = true.
Proof.
  induction entries as [|x entries IH]; simpl; [intros []|].
  destruct (Py.is_dict_with "hooks" x) eqn:Hx; [|exact IH].
  destruct (negb _); [|exact IH].
  intros [<-|H]; auto.
Qed.

(** The installer's loop keeps every entry without the structure. *)
Lemma clean_hooks_keeps_unstructured (entry : json) (rest : list json) :
  Py.is_dict_with "hooks" entry = false ->
  Install.clean_hooks (entry :: rest)
  = Py.obind (Install.clean_hooks rest) (fun cleaned => Some (entry :: cleaned)).
Proof. intros H; simpl; rewrite H; reflexivity. Qed.

End HookFacts.

Section RemoveHooksFacts.

Variable py_str : json -> string.

Lemma filter_hooks_length (entries : list json) :
  (length (Uninstall.filter_hooks py_str entries) <= length entries)%nat.
Proof.
  induction entries as [|x entries IH]; simpl; [lia|].
  destruct (Py.is_dict_with "hooks" x); [destruct (negb _)|]; simpl; lia.
Qed.

(** An entry without the structure makes the filtered list shorter. *)
Lemma filter_hooks_shorter (entries : list json) (e : json) :
  In e entries -> Py.is_dict_with "hooks" e = false ->
  (length (Uninstall.filter_hooks py_str entries) < length entries)%nat.
Proof.
  induction entries as [|x entries IH]; simpl; [intros []|].
  intros [->|Hin] He.
  - rewrite He. pose proof (filter_hooks_length entries). lia.
  - specialize (IH Hin He).
    destruct (Py.is_dict_with "hooks" x); [destruct (negb _)|]; simpl; lia.
Qed.

Lemma dict_get_del_eq (k : string) (items : list (string * json)) :
  Py.dict_get k (Py.dict_del k items) = None.
Proof.
  induction items as [|[k' v'] items IH]; simpl; [reflexivity|].
  destruct (String.eqb k k') eqn:Hk; simpl; [exact IH|].
  rewrite Hk; exact IH.
Qed.

End RemoveHooksFacts.

(** C2, the uninstaller's side.  Let [hooks.PreToolUse] of the settings be
    a list with an entry that lacks the [{hooks: [...]}] structure (not a
    dict, or a dict with no ["hooks"] key).  Then [remove_hooks] rewrites
    the document, and that entry is in no [PreToolUse] list of what it
    writes, whether or not any entry names the tool. *)
Theorem remove_hooks_drops_unstructured_entries (py_str : json -> string)
  (items hitems : list (string * json)) (entries : list json) (e : json) :
  Py.dict_get "hooks" items = Some (JDict hitems) ->
  Py.dict_get "PreToolUse" hitems = Some (JList entries) ->
  In e entries ->
  Py.is_dict_with "hooks" e = false ->
  exists out,
    Uninstall.remove_hooks_document py_str (JDict items) = Some (out, true)
    /\ forall hooks kept,
         Py.getitem out "hooks" = Some hooks ->
         Py.getitem hooks "PreToolUse" = Some (JList kept) ->
         ~ In e kept.
Proof.
  intros Hh Hp Hin He.
  assert (Hkept : ~ In e (Uninstall.filter_hooks py_str entries)).
  { intros H. apply filter_hooks_structured in H. congruence. }
  assert (Hlen : (length (Uninstall.filter_hooks py_str entries)
                  =? length entries)%nat = false).
  { apply Nat.eqb_neq. pose proof (filter_hooks_shorter py_str entries e Hin He).
    lia. }
  unfold Uninstall.remove_hooks_document.
  cbn [Py.contains_key Py.obind Py.getitem]. rewrite !dict_has_get, Hh.
  cbn [Py.contains_key Py.obind Py.getitem]. rewrite !dict_has_get, Hp.
  cbn [Py.obind]. rewrite Hlen.
  cbn [negb Py.setitem Py.obind Py.contains_key Py.getitem].
  rewrite !dict_has_get, !dict_get_set_eq.
  cbn [Py.obind Py.contains_key Py.getitem].
  rewrite !dict_has_get, !dict_get_set_eq. cbn [Py.obind Py.truth].
  destruct (Uninstall.filter_hooks py_str entries) as [|x kept0] eqn:Hf;
    cbn [negb Py.delitem Py.setitem Py.obind Py.truth].
  - destruct (Py.dict_del "PreToolUse" _) as [|i rest] eqn:Hd;
      cbn [negb Py.delitem Py.obind]; eexists; (split; [reflexivity|]);
      cbn [Py.getitem]; intros hooks kept H1 H2.
    + rewrite dict_get_del_eq in H1; discriminate.
    + rewrite dict_get_set_eq in H1. injection H1 as <-.
      cbn [Py.getitem] in H2. rewrite <- Hd, dict_get_del_eq in H2.
      discriminate.
  - destruct (Py.dict_set "PreToolUse" _ hitems) as [|i rest] eqn:Hd;
      cbn [negb Py.delitem Py.obind]; eexists; (split; [reflexivity|]);
      cbn [Py.getitem]; intros hooks kept H1 H2.
    + rewrite dict_get_del_eq in H1; discriminate.
    + rewrite dict_get_set_eq in H1. injection H1 as <-.
      cbn [Py.getitem] in H2. rewrite <- Hd, dict_get_set_eq in H2.
      injection H2 as <-. exact Hkept.
Qed.

(** With the tool's hook group beside two entries without the structure
    and a group of another tool, only the other tool's group is written
    back. *)
Lemma remove_hooks_drops_unstructured_entries_witness :
  exists out,
    Uninstall.remove_hooks_document (fun _ => "")
      (settings_with [bare_entry; flat_entry; other_hook; docs_hook])
    = Some (out, true)
    /\ forall hooks kept,
         Py.getitem out "hooks" = Some hooks ->
         Py.getitem hooks "PreToolUse" = Some (JList kept) ->
         ~ In flat_entry kept.
Proof.
  apply (remove_hooks_drops_unstructured_entries (fun _ => "")
           [("model", JStr "opus");
            ("hooks", JDict [("PreToolUse",
                              JList [bare_entry; flat_entry; other_hook; docs_hook]);
                             ("PostToolUse", JList [other_hook])])]
           [("PreToolUse", JList [bare_entry; flat_entry; other_hook; docs_hook]);
            ("PostToolUse", JList [other_hook])]
           [bare_entry; flat_entry; other_hook; docs_hook] flat_entry).
  - reflexivity.
  - reflexivity.
  - simpl; auto.
  - reflexivity.
Defined.

Example remove_hooks_loses_entries (py_str : json -> string) :
  Uninstall.remove_hooks_document py_str
    (settings_with [bare_entry; flat_entry; other_hook; docs_hook])
  = Some (settings_with [other_hook], true).
Proof. reflexivity. Qed.

(** Even with no hook of the tool at all, an unstructured entry is removed
    (and the emptied [PreToolUse] key with it). *)
Example remove_hooks_without_tool_hook (py_str : json -> string) :
  Uninstall.remove_hooks_document py_str (settings_with [flat_entry])
  = Some (JDict [("model", JStr "opus");
                 ("hooks", JDict [("PostToolUse", JList [other_hook])])],
          true).
Proof. reflexivity. Qed.

(** On the same entries the installer keeps the unstructured ones and the
    other tool's group, and replaces the tool's group by the new one. *)
Example setup_hooks_keeps_unstructured_entries :
  Install.setup_claude_hooks_document "/opt/docs/claude-docs-helper.sh hook-check"
    (settings_with [bare_entry; flat_entry; other_hook; docs_hook])
  = Some (settings_with
            [bare_entry; flat_entry; other_hook;
             Install.new_hook "/opt/docs/claude-docs-helper.sh hook-check"]).
Proof. reflexivity. Qed.

(** *** The installer's rewrite leaves everything else in place *)


(** A [PreToolUse] entry the installer takes for the tool's: a dict with a
    ["hooks"] key under which some sub-hook has a command string that
    contains the tool's name. *)
Definition group_names_tool (hook : json) : bool :=
  Py.is_dict_with "hooks" hook
  && match Py.iterate (Py.get_or_empty_list "hooks" hook) with
     | Some sub_hooks => existsb Install.sub_hook_names_tool sub_hooks
     | None => false
     end.

Lemma clean_hooks_filter (original cleaned : list json) :
  Install.clean_hooks original = Some cleaned ->
  cleaned = filter (fun e => negb (group_names_tool e)) original.
Proof.
  revert cleaned; induction original as [|hook rest IH]; simpl; intros cleaned.
  - intros H; injection H as <-; reflexivity.
  - unfold group_names_tool.
    destruct (Py.is_dict_with "hooks" hook); simpl.
    + destruct (Py.iterate (Py.get_or_empty_list "hooks" hook)) as [subs|];
        simpl; [|discriminate].
      destruct (Install.clean_hooks rest) as [c|]; simpl; [|discriminate].
      intros H; injection H as <-. rewrite (IH c eq_refl).
      destruct (existsb Install.sub_hook_names_tool subs); reflexivity.
    + destruct (Install.clean_hooks rest) as [c|]; simpl; [|discriminate].
      intros H; injection H as <-. rewrite (IH c eq_refl). reflexivity.
Qed.

(** The hooks object the installer starts from: the one in the document,
    or an empty one. *)
Definition hooks_of (items : list (string * json)) : option json :=
  match Py.dict_get "hooks" items with
  | Some h => Some h
  | None => Some (JDict [])
  end.

(** X1.  Whenever [setup_claude_hooks] gets to write a document, it differs
    from the one read only under [hooks.PreToolUse]: every other top-level
    key and every other key of [hooks] keeps its value, and when
    [PreToolUse] was a list the new list is the old one without the groups
    that name the tool, in the same order, followed by the new hook. *)
Theorem setup_hooks_frame (hook_command : string) (settings out : json) :
  Install.setup_claude_hooks_document hook_command settings = Some out ->
  exists items hitems out_items out_hitems,
    settings = JDict items
    /\ hooks_of items = Some (JDict hitems)
    /\ out = JDict out_items
    /\ Py.dict_get "hooks" out_items = Some (JDict out_hitems)
    /\ (forall k, k <> "hooks" ->
                  Py.dict_get k out_items = Py.dict_get k items)
    /\ (forall k, k <> "PreToolUse" ->
                  Py.dict_get k out_hitems = Py.dict_get k hitems)
    /\ (forall original,
          Py.dict_get "PreToolUse" hitems = Some (JList original) ->
          Py.dict_get "PreToolUse" out_hitems
          = Some (JList (filter (fun e => negb (group_names_tool e)) original
                         ++ [Install.new_hook hook_command]))).
Proof.
  unfold Install.setup_claude_hooks_document, hooks_of. intros H.
  destruct settings as [|b|n|s|l|items]; cbn in H; try discriminate.
  - destruct (contains "hooks" s); discriminate.
  - destruct (existsb _ l); discriminate.
  - rewrite dict_has_get in H.
    destruct (Py.dict_get "hooks" items) as [hooks|] eqn:Hh; cbn in H.
    + rewrite Hh in H; cbn in H.
      destruct hooks as [|b|n|s|hl|hitems]; cbn in H; try discriminate.
      * destruct (contains "PreToolUse" s); discriminate.
      * destruct (existsb _ hl); discriminate.
      * rewrite dict_has_get in H.
        destruct (Py.dict_get "PreToolUse" hitems) as [original|] eqn:Ho;
          cbn in H.
        -- rewrite Ho in H; cbn in H.
           destruct (Py.iterate original) as [original_hooks|] eqn:Hit;
             cbn in H; [|discriminate].
           destruct (Install.clean_hooks original_hooks) as [cleaned|] eqn:Hcl;
             cbn in H; [|discriminate].
           injection H as <-.
           assert (Hres : forall orig, original = JList orig ->
                     JList (cleaned ++ [Install.new_hook hook_command])
                     = JList (filter (fun e => negb (group_names_tool e)) orig
                              ++ [Install.new_hook hook_command])).
           { intros orig ->. cbn in Hit. injection Hit as <-.
             rewrite (clean_hooks_filter _ _ Hcl); reflexivity. }
           exists items, hitems. do 2 eexists.
           split; [reflexivity|]. split; [rewrite Hh; reflexivity|].
           split; [reflexivity|]. split; [apply dict_get_set_eq|].
           split; [intros k Hk; rewrite dict_get_set_ne by assumption; auto|].
           split; [intros k Hk; rewrite dict_get_set_ne by assumption; auto|].
           intros orig Horig. rewrite dict_get_set_eq.
           rewrite Horig in Ho. injection Ho as <-. f_equal. apply Hres.
           reflexivity.
        -- rewrite dict_get_set_eq in H; cbn in H. injection H as <-.
           exists items, hitems. do 2 eexists.
           split; [reflexivity|]. split; [rewrite Hh; reflexivity|].
           split; [reflexivity|]. split; [apply dict_get_set_eq|].
           split; [intros k Hk; rewrite dict_get_set_ne by assumption; auto|].
           split; [intros k Hk; rewrite !dict_get_set_ne by assumption; auto|].
           intros orig Horig. congruence.
    + rewrite dict_get_set_eq in H; cbn in H. injection H as <-.
      exists items, []. do 2 eexists.
      split; [reflexivity|]. split; [rewrite Hh; reflexivity|].
      split; [reflexivity|]. split; [apply dict_get_set_eq|].
      split; [intros k Hk; rewrite !dict_get_set_ne by assumption; auto|].
      split; [intros k Hk; cbn; apply String.eqb_neq in Hk; rewrite Hk; auto|].
      intros orig Horig. discriminate.
Qed.

Lemma setup_hooks_frame_witness :
  exists items hitems out_items out_hitems,
    settings_with [bare_entry; flat_entry; other_hook; docs_hook] = JDict items
    /\ hooks_of items = Some (JDict hitems)
    /\ settings_with [bare_entry; flat_entry; other_hook;
                      Install.new_hook "/opt/docs/claude-docs-helper.sh hook-check"]
       = JDict out_items
    /\ Py.dict_get "hooks" out_items = Some (JDict out_hitems)
    /\ (forall k, k <> "hooks" ->
                  Py.dict_get k out_items = Py.dict_get k items)
    /\ (forall k, k <> "PreToolUse" ->
                  Py.dict_get k out_hitems = Py.dict_get k hitems)
    /\ (forall original,
          Py.dict_get "PreToolUse" hitems = Some (JList original) ->
          Py.dict_get "PreToolUse" out_hitems
          = Some (JList (filter (fun e => negb (group_names_tool e)) original
                         ++ [Install.new_hook
                               "/opt/docs/claude-docs-helper.sh hook-check"]))).
Proof.
  apply (setup_hooks_frame "/opt/docs/claude-docs-helper.sh hook-check").
  reflexivity.
Defined.

(** ** The uninstaller's cleanup *)

Section UninstallFacts.

Variable E : environment.

(** The uninstaller's check is conservative: only a status command that
    exits with 0 and prints nothing but blanks makes it answer [False]. *)
Lemma uninstall_has_uncommitted_changes_run (repo_dir : path) (w : world) :
  Uninstall._git_has_uncommitted_changes E repo_dir w =
  (Ret match git_answer E ["status"; "--porcelain"] (Some repo_dir) w with
       | Some c => negb (returncode c =? 0)%Z || truthy (strip (stdout c))
       | None => true
       end,
   after w [status_call repo_dir]).
Proof.
  unfold Uninstall._git_has_uncommitted_changes, Uninstall._run_git_command,
    try, bind, git, ret, after, status_call; simpl.
  destruct (git_answer E _ _ w) as [c|]; [|reflexivity].
  destruct (returncode c =? 0)%Z; reflexivity.
Qed.

End UninstallFacts.

(** X2.  The uninstaller's side of the cleanup policy: when the status
    check on a version-controlled directory fails (the command raises or
    exits non-zero), [remove_directories] leaves the directory in place,
    calls no [shutil.rmtree] on it and reports it as preserved. *)
Theorem uninstall_preserves_when_status_fails (E : environment)
  (windows : bool) (dir : path) (w : world) :
  fs w dir = Some Dir ->
  fs w (child dir ".git") = Some Dir ->
  (forall w', exits_zero (git_answer E ["status"; "--porcelain"]
                            (Some dir) w') = false) ->
  let r := Uninstall.remove_directories E windows [dir] w in
  fst r = Ret true
  /\ untouched dir w (snd r)
  /\ In (Print ("[!] Preserved " ^^ str_path dir ^^ " (has uncommitted changes)"))
        (trace (snd r)).
Proof.
  intros Hdir Hgit Hstatus. cbv zeta.
  change (wp (Uninstall.remove_directories E windows [dir])
            (fun o w' =>
               o = Ret true
               /\ untouched dir w w'
               /\ In (Print ("[!] Preserved " ^^ str_path dir
                             ^^ " (has uncommitted changes)")) (trace w')) w).
  unfold Uninstall.remove_directories, Install.for_each, Uninstall.remove_one.
  repeat wp_basic. rewrite !fs_after, Hdir. cbv iota. cbn [negb].
  repeat wp_basic. rewrite !fs_after, Hgit. cbv iota.
  repeat wp_basic.
  apply wp_run. intros o w' Hrun.
  rewrite uninstall_has_uncommitted_changes_run in Hrun.
  match type of Hrun with
  | context [git_answer E ?a ?c ?x] =>
      pose proof (Hstatus x) as Hs; unfold exits_zero in Hs;
      destruct (git_answer E a c x) as [r|]
  end; [rewrite Hs in Hrun|]; injection Hrun as <- <-; cbv beta iota;
    cbn [negb orb]; repeat wp_basic.
  all: split; [reflexivity|]; split;
    [|rewrite !trace_after, !in_app_iff; simpl; tauto].
  all: split; [rewrite !fs_after; auto|].
  all: rewrite !trace_after, <- !app_assoc; eexists; split; [reflexivity|].
  all: simpl; intros H;
    repeat (destruct H as [H|H]; [discriminate H|]); exact H.
Qed.

(** With the status command exiting with 128 the uninstaller keeps the
    directory that the installer's cleanup removes. *)
Lemma uninstall_preserves_when_status_fails_witness :
  let r := Uninstall.remove_directories (status_env 128 "" None) false
             [old_install] old_world in
  fst r = Ret true
  /\ untouched old_install old_world (snd r)
  /\ In (Print ("[!] Preserved " ^^ str_path old_install
                ^^ " (has uncommitted changes)"))
        (trace (snd r)).
Proof.
  apply (uninstall_preserves_when_status_fails (status_env 128 "" None) false
           old_install old_world); reflexivity.
Defined.

(** ** Directories that are not under version control *)

(** Builds a frame proof from the rules for the monad and the given rules
    for the primitives. *)
Ltac frame_with refl trans prims :=
  repeat first
    [ prims
    | apply respects_ret; [apply refl | apply trans]
    | apply respects_bind; [apply refl | apply trans | | intros]
    | apply respects_try; [apply refl | apply trans | | intros]
    | apply respects_when; [apply refl | apply trans | ]
    | match goal with
      | |- respects _ (if ?c then _ else _) => destruct c
      | |- respects _ (match ?x with Some _ => _ | None => _ end) => destruct x
      | |- respects _ (match ?l with [] => _ | _ :: _ => _ end) => destruct l
      end ].

(** No [.git] directory appears where there was none. *)
Definition no_new_repository (dir : path) (w w' : world) : Prop :=
  fs w (child dir ".git") <> Some Dir -> fs w' (child dir ".git") <> Some Dir.

Lemma no_new_repository_refl (dir : path) (w : world) :
  no_new_repository dir w w.
Proof. intros H; exact H. Qed.

Lemma no_new_repository_trans (dir : path) (w1 w2 w3 : world) :
  no_new_repository dir w1 w2 -> no_new_repository dir w2 w3 ->
  no_new_repository dir w1 w3.
Proof. unfold no_new_repository; auto. Qed.

Section Unversioned.

Variable E : environment.
Variable dir : path.

Lemma no_new_repository_print (line : string) :
  respects (no_new_repository dir) (print line).
Proof. intros w H; exact H. Qed.

Lemma no_new_repository_is_dir (p : path) :
  respects (no_new_repository dir) (is_dir p).
Proof. intros w H; exact H. Qed.

Lemma no_new_repository_git (args : list string) (c : option path) (t : Z) :
  respects (no_new_repository dir) (git E args c t None).
Proof.
  intros w H. unfold git. destruct (git_answer E args c w); exact H.
Qed.

Lemma no_new_repository_rmtree (p : path) :
  respects (no_new_repository dir) (rmtree E p).
Proof.
  intros w H. unfold rmtree, bind, emit; simpl.
  destruct (fs w p) as [[|]|]; simpl; try exact H.
  destruct (rmtree_error E p _); simpl; [exact H|].
  unfold remove_tree. destruct (under p _); [discriminate|exact H].
Qed.





Ltac no_new_repository :=
  frame_with no_new_repository_refl no_new_repository_trans
    ltac:(first [ apply no_new_repository_print
                | apply no_new_repository_is_dir
                | apply no_new_repository_git
                | apply no_new_repository_rmtree ]).






End Unversioned.



Example cleanup_removes_only_the_clean_repository :
  let r := Install.cleanup_old_installations (status_env 0 "" None)
             [old_install; home] old_world in
  fs (snd r) old_install = None /\ fs (snd r) home = Some Dir.
Proof. cbv zeta; split; reflexivity. Qed.

(** ** Update in place: the quick path *)

(** A git subcommand that discards or rewrites local state. *)
Definition destructive (e : event) : bool :=
  match e with
  | Git (sub :: _) _ _ =>
      existsb (String.eqb sub) ["reset"; "checkout"; "clean"; "merge"; "rebase"]
  | Rmtree _ => true
  | _ => false
  end.

Definition pull_call (repo_dir : path) : event :=
  Git ["pull"; "--quiet"; "origin"; Install.INSTALL_BRANCH] (Some repo_dir) 60.

(** X4.  When the quiet pull of the target branch exits with 0,
    [_safe_git_update] returns [True] at once: the pull is the last thing it
    does, and before it the run neither prompts nor runs a fetch or a
    destructive git subcommand. *)
Theorem pull_success_is_enough (E : environment) (repo_dir : path)
  (w : world) :
  (forall w', exits_zero (git_answer E ["pull"; "--quiet"; "origin";
                                         Install.INSTALL_BRANCH]
                            (Some repo_dir) w') = true) ->
  let r := Install._safe_git_update E repo_dir w in
  fst r = Ret true
  /\ exists es,
       trace (snd r) = trace w ++ es ++ [pull_call repo_dir]
       /\ Forall (fun e => is_input e = false /\ destructive e = false) es.
Proof.
  intros Hpull. cbv zeta.
  change (wp (Install._safe_git_update E repo_dir)
            (fun o w' =>
               o = Ret true
               /\ exists es,
                    trace w' = trace w ++ es ++ [pull_call repo_dir]
                    /\ Forall (fun e => is_input e = false
                                        /\ destructive e = false) es) w).
  unfold Install._safe_git_update, Install._git_get_current_branch.
  repeat (wp_step;
          try match goal with
              | Hx : git_answer E ("pull" :: _) _ ?x = _ |- _ =>
                  let Hp := fresh in
                  pose proof (Hpull x) as Hp; unfold Install.INSTALL_BRANCH in *;
                  rewrite Hx in Hp; simpl in Hp;
                  first [discriminate Hp | rewrite Hp; cbv iota]
              end).
  all: split; [reflexivity|].
  all: rewrite !trace_after, <- ?app_assoc; simpl.
  all: eexists;
    (split; [match goal with
             | |- _ ++ ?l = _ =>
                 change l with (removelast l ++ [pull_call repo_dir])
             end; reflexivity|]).
  all: simpl; repeat constructor.
Qed.

Lemma pull_success_is_enough_witness :
  let r := Install._safe_git_update (status_env 0 "" None) old_install
             old_world in
  fst r = Ret true
  /\ exists es,
       trace (snd r) = trace old_world ++ es ++ [pull_call old_install]
       /\ Forall (fun e => is_input e = false /\ destructive e = false) es.
Proof.
  apply (pull_success_is_enough (status_env 0 "" None) old_install old_world).
  intros w'; reflexivity.
Defined.

(** ** Update in place: declining the prompt *)

(** Between two worlds the trace only grew, and by no destructive step. *)
Definition gentle (w w' : world) : Prop :=
  exists es, trace w' = trace w ++ es
             /\ Forall (fun e => destructive e = false) es.

(** Both at once: no prompt and no destructive step. *)
Definition calm (w w' : world) : Prop :=
  exists es, trace w' = trace w ++ es
             /\ Forall (fun e => is_input e = false /\ destructive e = false) es.

(** The operator's answer is not a confirmation. *)
Definition declines (answer : option string) : Prop :=
  match answer with
  | Some s => lower (strip s) <> "y" /\ lower (strip s) <> "yes"
  | None => True
  end.

Section Calm.

Lemma gentle_refl (w : world) : gentle w w.
Proof. exists []; rewrite app_nil_r; auto. Qed.

Lemma gentle_trans (w1 w2 w3 : world) :
  gentle w1 w2 -> gentle w2 w3 -> gentle w1 w3.
Proof.
  intros [es1 [H1 F1]] [es2 [H2 F2]]. exists (es1 ++ es2); split.
  - rewrite H2, H1, app_assoc; reflexivity.
  - apply Forall_app; auto.
Qed.

Lemma calm_refl (w : world) : calm w w.
Proof. exists []; rewrite app_nil_r; auto. Qed.

Lemma calm_trans (w1 w2 w3 : world) : calm w1 w2 -> calm w2 w3 -> calm w1 w3.
Proof.
  intros [es1 [H1 F1]] [es2 [H2 F2]]. exists (es1 ++ es2); split.
  - rewrite H2, H1, app_assoc; reflexivity.
  - apply Forall_app; auto.
Qed.

Lemma calm_no_prompt (w w' : world) : calm w w' -> no_prompt w w'.
Proof.
  intros [es [H F]]. exists es; split; [exact H|].
  eapply Forall_impl; [|exact F]. simpl; tauto.
Qed.

Lemma calm_gentle (w w' : world) : calm w w' -> gentle w w'.
Proof.
  intros [es [H F]]. exists es; split; [exact H|].
  eapply Forall_impl; [|exact F]. simpl; tauto.
Qed.

Lemma no_prompt_snoc (w0 w : world) (e : event) :
  no_prompt w0 w -> is_input e = false -> no_prompt w0 (after w [e]).
Proof.
  intros H He. eapply no_prompt_trans; [exact H|]. exists [e]; auto.
Qed.

Lemma gentle_snoc (w0 w : world) (e : event) :
  gentle w0 w -> destructive e = false -> gentle w0 (after w [e]).
Proof.
  intros H He. eapply gentle_trans; [exact H|]. exists [e]; auto.
Qed.

Variable E : environment.

Lemma calm_print (line : string) : respects calm (print line).
Proof. intros w; exists [Print line]; simpl; auto. Qed.

(** A git subcommand that is not destructive keeps the run calm. *)
Lemma calm_git (args : list string) (c : option path) (t : Z) :
  destructive (Git args c t) = false ->
  respects calm (Install._run_git_command E args c t).
Proof.
  intros Hd w. unfold Install._run_git_command, git.
  destruct (git_answer E args c w); exists [Git args c t]; simpl; auto.
Qed.

End Calm.

Ltac calm_frames :=
  frame_with calm_refl calm_trans
    ltac:(first [ apply calm_print | apply calm_git; reflexivity ]).

Ltac quiet_frames :=
  frame_with no_prompt_refl no_prompt_trans
    ltac:(first [ apply quiet_print | apply quiet_run_git | apply quiet_git ]).

(** Shows [R w0 w] for a world [w] reached from [w0] through recorded
    events and through runs known to be calm or quiet. *)
Ltac no_prompt_chain :=
  first
    [ apply no_prompt_refl
    | apply no_prompt_snoc; [no_prompt_chain | reflexivity]
    | match goal with
      | H : calm ?wk ?w' |- no_prompt _ ?w' =>
          apply (no_prompt_trans _ wk);
          [no_prompt_chain | apply calm_no_prompt; exact H]
      | H : no_prompt ?wk ?w' |- no_prompt _ ?w' =>
          apply (no_prompt_trans _ wk); [no_prompt_chain | exact H]
      end ].

Ltac gentle_chain :=
  first
    [ apply gentle_refl
    | apply gentle_snoc; [gentle_chain | reflexivity]
    | match goal with
      | H : calm ?wk ?w' |- gentle _ ?w' =>
          apply (gentle_trans _ wk);
          [gentle_chain | apply calm_gentle; exact H]
      end ].

Section Summaries.

(** A run summarised by a relation it maintains. *)
Lemma wp_frame {A} (R : world -> world -> Prop) (m : M A) Q w :
  respects R m -> (forall o w', R w w' -> Q o w') -> wp m Q w.
Proof. intros Hr HQ. unfold wp. apply HQ, Hr. Qed.

(** The same for a run that never raises. *)
Lemma wp_frame_total {A} (R : world -> world -> Prop) (m : M A) Q w :
  (forall w0, exists a, fst (m w0) = Ret a) -> respects R m ->
  (forall a w', R w w' -> Q (Ret a) w') -> wp m Q w.
Proof.
  intros Ht Hr HQ. unfold wp. destruct (Ht w) as [a ->]. apply HQ, Hr.
Qed.

End Summaries.

(** Shows that a computation guarded by [try] with returning handlers
    always returns. *)
Ltac always_returns :=
  let w0 := fresh "w" in
  intros w0;
  unfold Install._git_has_conflicts, Install._git_has_uncommitted_changes,
    Install._git_has_untracked_files, Install._git_get_current_branch,
    Install._run_git_command, try, bind, git, ret, print, emit;
  simpl;
  repeat match goal with
         | |- context [match git_answer ?e ?a ?c ?x with _ => _ end] =>
             destruct (git_answer e a c x); simpl
         | |- context [if ?c then _ else _] => destruct c; simpl
         end;
  eexists; reflexivity.

(** One step through [_safe_git_update] in which the guarded git calls
    and the status checks are taken by their summaries. *)
Ltac update_step :=
  lazymatch goal with
  | |- wp (bind _ _) _ _ => apply wp_bind
  | |- wp (ret _) _ _ => apply wp_ret
  | |- wp (print _) _ _ => apply wp_print
  | |- wp (Install.when ?c _) _ _ => destruct c; unfold Install.when
  | |- wp (Install._git_get_current_branch _ _) _ _ =>
      apply (wp_frame_total calm);
      [ always_returns
      | unfold Install._git_get_current_branch; solve [calm_frames]
      | intros ? ? ? ]
  | |- wp (Install._git_has_conflicts _ _ _) _ _ =>
      apply (wp_frame_total calm);
      [ always_returns
      | unfold Install._git_has_conflicts; solve [calm_frames]
      | intros ? ? ? ]
  | |- wp (Install._git_has_uncommitted_changes _ _ _) _ _ =>
      apply (wp_frame_total calm);
      [ always_returns
      | unfold Install._git_has_uncommitted_changes; solve [calm_frames]
      | intros ? ? ? ]
  | |- wp (Install._git_has_untracked_files _ _) _ _ =>
      apply (wp_frame_total calm);
      [ always_returns
      | unfold Install._git_has_untracked_files; solve [calm_frames]
      | intros ? ? ? ]
  | |- wp (Install.note_manifest_changes _ _) _ _ =>
      apply (wp_frame calm);
      [ unfold Install.note_manifest_changes; solve [calm_frames]
      | intros [?|?] ? ? ]
  | |- wp (Install._git_abort_operations _ _) _ _ =>
      apply (wp_frame no_prompt);
      [ apply quiet_abort_operations | intros [?|?] ? ? ]
  | |- wp (Install._git_force_clean_checkout _ _ _) _ _ =>
      apply (wp_frame no_prompt);
      [ apply quiet_force_clean_checkout | intros [?|?] ? ? ]
  | |- wp (try _ _) _ _ =>
      apply (wp_frame_total calm);
      [ always_returns | solve [calm_frames] | intros ? ? ? ]
  | |- wp (if negb true then _ else _) _ _ => cbn [negb]
  | |- wp (if negb false then _ else _) _ _ => cbn [negb]
  | |- wp (if true then _ else _) _ _ => idtac
  | |- wp (if false then _ else _) _ _ => idtac
  | |- wp (if ?c then _ else _) _ _ => destruct c eqn:?
  | |- wp (let '(_, _) := ?p in _) _ _ => destruct p
  end; cbv beta iota.

(** X5.  If the operator does not confirm (any answer but [y] or [yes],
    end of input, an interrupt), then a run of [_safe_git_update] that
    reaches the prompt returns [False] and runs no destructive step at all
    (no reset, checkout, clean, merge or rebase subcommand): either the run
    records no [input] call, or it returns [False] and is gentle. *)
Theorem declined_prompt_changes_nothing (E : environment) (repo_dir : path)
  (w : world) :
  (forall prompt w', declines (input_answer E prompt w')) ->
  let r := Install._safe_git_update E repo_dir w in
  no_prompt w (snd r) \/ (fst r = Ret false /\ gentle w (snd r)).
Proof.
  intros Hdecl. cbv zeta.
  change (wp (Install._safe_git_update E repo_dir)
            (fun o w' => no_prompt w w' \/ (o = Ret false /\ gentle w w')) w).
  unfold Install._safe_git_update. apply wp_try.
  repeat update_step.
  all: try (left; solve [no_prompt_chain]).
  all: unfold Install.confirm_discard.
  all: apply wp_try, wp_bind, wp_input;
    [ intros _ e
    | intros s Hs; specialize (Hdecl "Continue and discard local changes? [y/N]: ");
      match type of Hs with
      | input_answer _ _ ?x = _ =>
          specialize (Hdecl x); rewrite Hs in Hdecl; destruct Hdecl as [Hy Hyes]
      end;
      apply String.eqb_neq in Hy, Hyes; rewrite Hy, Hyes; cbn [orb negb] ];
    cbv beta iota.
  all: repeat update_step.
  all: right; split; [reflexivity|gentle_chain].
Qed.

(** On the target branch, with local changes and the answer [n], the run
    prompts, returns [False] and has run no destructive step. *)
Lemma declined_prompt_changes_nothing_witness :
  let r := Install._safe_git_update (dirty_env "main" (Some "n"))
             old_install old_world in
  no_prompt old_world (snd r) \/ (fst r = Ret false /\ gentle old_world (snd r)).
Proof.
  apply (declined_prompt_changes_nothing (dirty_env "main" (Some "n"))
           old_install old_world).
  intros prompt w'; simpl; split; discriminate.
Defined.

(** ** Untracked files *)

(** A line the untracked-file check counts: it begins with [??] and the
    name after the status code, stripped, ends in none of the temporary
    extensions. *)
Definition untracked_entry (l : string) : bool :=
  startswith "??" l
  && negb (existsb (fun ext => endswith ext (strip (drop 3 l)))
             Install.temp_extensions).

Section UntrackedFacts.

Lemma rstrip_blank (b : string) : all_space b = true -> rstrip b = "".
Proof.
  intros H. pose proof (truthy_rstrip b) as T. rewrite H in T.
  destruct (rstrip b); [reflexivity|discriminate].
Qed.

Lemma rstrip_trailing (s b : string) :
  all_space b = true -> rstrip (s ^^ b) = rstrip s.
Proof.
  intros Hb; induction s as [|c s IH]; simpl.
  - apply rstrip_blank; assumption.
  - rewrite IH; reflexivity.
Qed.

Lemma lstrip_trailing (s b : string) :
  all_space s = false -> lstrip (s ^^ b) = lstrip s ^^ b.
Proof.
  induction s as [|c s IH]; simpl; [discriminate|].
  destruct (isspace c); simpl; auto.
Qed.

(** Blanks after a string do not change what [strip] returns. *)
Lemma strip_trailing (s b : string) :
  all_space b = true -> strip (s ^^ b) = strip s.
Proof.
  intros Hb. destruct (all_space s) eqn:Hs.
  - assert (H : all_space (s ^^ b) = true) by (rewrite all_space_app, Hs, Hb; auto).
    apply strip_empty_iff in H, Hs. congruence.
  - unfold strip. rewrite lstrip_trailing by assumption.
    apply rstrip_trailing; assumption.
Qed.

Lemma all_space_drop (n : nat) (b : string) :
  all_space b = true -> all_space (drop n b) = true.
Proof.
  revert b; induction n as [|n IH]; intros [|c b]; simpl; auto.
  intros H; apply andb_true_iff in H as [_ H]; auto.
Qed.

Lemma drop_trailing (n : nat) (s b : string) :
  all_space b = true ->
  exists b', all_space b' = true /\ drop n (s ^^ b) = drop n s ^^ b'.
Proof.
  intros Hb. revert s; induction n as [|n IH]; intros s.
  - exists b; auto.
  - destruct s as [|c s]; simpl.
    + exists (drop (S n) b); split; [apply all_space_drop; assumption|reflexivity].
    + apply IH.
Qed.

Lemma untracked_entry_trailing (l b : string) :
  all_space b = true -> untracked_entry (l ^^ b) = untracked_entry l.
Proof.
  intros Hb. unfold untracked_entry, startswith.
  rewrite prefix_trailing_space by (assumption || reflexivity).
  destruct (drop_trailing 3 l b Hb) as [b' [Hb' ->]].
  rewrite strip_trailing by assumption. reflexivity.
Qed.

Lemma untracked_entry_not_blank (l : string) :
  untracked_entry l = true -> all_space l = false.
Proof.
  unfold untracked_entry, startswith. intros H.
  apply andb_true_iff in H as [H _].
  apply two_char_prefix in H as [r ->]. reflexivity.
Qed.

(** Blanks before [??] would hide it: a counted line has none. *)
Lemma within_untracked (l' l : string) :
  within l' l -> untracked_entry l = true -> untracked_entry l' = true.
Proof.
  intros [a [b [Ha [Hb ->]]]] H. destruct a as [|c a].
  - simpl in H. rewrite untracked_entry_trailing in H; assumption.
  - exfalso. unfold untracked_entry, startswith in H.
    apply andb_true_iff in H as [H _].
    apply two_char_prefix in H as [r Heq].
    simpl in Heq, Ha. injection Heq as -> _. discriminate Ha.
Qed.

(** On a well-formed line, stripping the output uncovers no [??]. *)
Lemma untracked_within (l' l : string) :
  within l' l -> porcelain_line l = true ->
  untracked_entry l' = true -> untracked_entry l = true.
Proof.
  intros [a [b [Ha [Hb ->]]]] Hshape H. destruct a as [|c a].
  - simpl. rewrite untracked_entry_trailing; assumption.
  - exfalso. unfold untracked_entry, startswith in H.
    apply andb_true_iff in H as [H _].
    apply two_char_prefix in H as [r ->].
    simpl in Ha; apply andb_true_iff in Ha as [Hc Ha].
    destruct a as [|d a].
    + destruct (porcelain_after_blank _ _ _ Hshape Hc) as [_ [rest' Heq]].
      simpl in Heq. discriminate Heq.
    + simpl in Ha; apply andb_true_iff in Ha as [Hd Ha].
      destruct (porcelain_after_blank _ _ _ Hshape Hc) as [Hd' _].
      congruence.
Qed.

Lemma untracked_iff (out : string) :
  (forall l, In l (split newline out) -> porcelain_line l = true) ->
  Install.status_has_untracked out = true <->
  exists l, In l (split newline out) /\ untracked_entry l = true.
Proof.
  intros Hshape. unfold Install.status_has_untracked.
  rewrite truthy_strip. split.
  - destruct (all_space out) eqn:Ho; simpl; [discriminate|].
    intros H. apply existsb_exists in H as [l' [Hin Hf]].
    rewrite <- andb_assoc in Hf. apply andb_true_iff in Hf as [_ Hf].
    destruct (lines_of_strip _ _ _ Hin) as [l [Hl Hw]].
    exists l; split; [assumption|].
    exact (untracked_within _ _ Hw (Hshape l Hl) Hf).
  - intros [l [Hin Hf]].
    pose proof (untracked_entry_not_blank l Hf) as Hb.
    rewrite (line_not_blank _ _ _ Hin Hb); simpl.
    destruct (lines_to_strip _ _ _ Hin Hb) as [l' [Hl' Hw]].
    apply existsb_exists. exists l'; split; [assumption|].
    rewrite truthy_strip, <- (within_all_space _ _ Hw), Hb. simpl.
    exact (within_untracked _ _ Hw Hf).
Qed.

End UntrackedFacts.

(** X6.  On a [status --porcelain] output (exit code 0, every line of the
    porcelain shape) [_git_has_untracked_files] returns [True] exactly when
    some line begins with [??] and the name that follows the status code,
    with the blanks around it removed, ends in none of [.tmp], [.log] and
    [.swp]: untracked temporary files alone never count, and neither does
    any line with another status code. *)
Theorem untracked_detection_correct (E : environment) (repo_dir : path)
  (w : world) (out err : string) :
  git_answer E ["status"; "--porcelain"] (Some repo_dir) w
    = Some (Completed 0 out err) ->
  (forall l, In l (split newline out) -> porcelain_line l = true) ->
  fst (Install._git_has_untracked_files E repo_dir w) = Ret true <->
  exists l, In l (split newline out)
            /\ startswith "??" l = true
            /\ forall ext, In ext Install.temp_extensions ->
                           endswith ext (strip (drop 3 l)) = false.
Proof.
  intros Hans Hshape.
  assert (Hrun : fst (Install._git_has_untracked_files E repo_dir w)
                 = Ret (Install.status_has_untracked out))
    by (rewrite has_untracked_files_run, Hans; reflexivity).
  rewrite Hrun. split.
  - intros H. injection H as H.
    apply (untracked_iff out Hshape) in H as [l [Hin Hc]].
    unfold untracked_entry in Hc. apply andb_true_iff in Hc as [Hq Hx].
    exists l; repeat split; [assumption|assumption|].
    intros ext Hext. apply negb_true_iff in Hx.
    destruct (endswith ext (strip (drop 3 l))) eqn:He; [|reflexivity].
    assert (Hex : existsb (fun ext => endswith ext (strip (drop 3 l)))
                    Install.temp_extensions = true)
      by (apply existsb_exists; eauto).
    congruence.
  - intros [l [Hin [Hq Hx]]]. f_equal.
    apply (untracked_iff out Hshape). exists l; split; [assumption|].
    unfold untracked_entry. rewrite Hq. cbn [andb]. apply negb_true_iff.
    destruct (existsb _ Install.temp_extensions) eqn:He; [|reflexivity].
    apply existsb_exists in He as [ext [Hext He]].
    rewrite (Hx ext Hext) in He; discriminate.
Qed.

(** An editor's swap file and a log are not reported; a new source file
    is. *)
Lemma untracked_detection_correct_witness :
  (fst (Install._git_has_untracked_files
          (status_env 0 ("?? notes.txt.swp" ^^ String newline
                         "?? build.log" ^^ String newline
                         "?? tools/new.py" ^^ String newline "") None)
          old_install old_world) = Ret true <->
   exists l, In l (split newline ("?? notes.txt.swp" ^^ String newline
                                  "?? build.log" ^^ String newline
                                  "?? tools/new.py" ^^ String newline ""))
             /\ startswith "??" l = true
             /\ forall ext, In ext Install.temp_extensions ->
                            endswith ext (strip (drop 3 l)) = false).
Proof.
  apply (untracked_detection_correct
           (status_env 0 ("?? notes.txt.swp" ^^ String newline
                          "?? build.log" ^^ String newline
                          "?? tools/new.py" ^^ String newline "") None)
           old_install old_world _ "").
  - reflexivity.
  - intros l [<-|[<-|[<-|[<-|[]]]]]; reflexivity.
Defined.

Example untracked_temporary_files_ignored :
  fst (Install._git_has_untracked_files
         (status_env 0 ("?? notes.txt.swp" ^^ String newline
                        "?? build.log" ^^ String newline "") None)
         old_install old_world) = Ret false
  /\ fst (Install._git_has_untracked_files
            (status_env 0 ("?? notes.txt.swp" ^^ String newline
                           "?? tools/new.py" ^^ String newline "") None)
            old_install old_world) = Ret true.
Proof. split; reflexivity. Qed.

(** ** Reconciliation: the three installation states *)

(** An event of a run confined to the working copy [dir]: output, a
    prompt, entering [dir], or a git subcommand other than [clone] run in
    [dir]. *)
Definition confined_event (dir : path) (e : event) : Prop :=
  match e with
  | Print _ | Input _ => True
  | Chdir p => p = dir
  | Git (sub :: _) (Some c) _ => c = dir /\ sub <> "clone"
  | _ => False
  end.

(** Between two worlds the file system is the same and the trace grew by
    confined events only. *)
Definition confined (dir : path) (w w' : world) : Prop :=
  fs w' = fs w
  /\ exists es, trace w' = trace w ++ es /\ Forall (confined_event dir) es.

Section Confined.

Variable E : environment.
Variable dir : path.

Lemma confined_refl (w : world) : confined dir w w.
Proof. split; [reflexivity|]. exists []; rewrite app_nil_r; auto. Qed.

Lemma confined_trans (w1 w2 w3 : world) :
  confined dir w1 w2 -> confined dir w2 w3 -> confined dir w1 w3.
Proof.
  intros [F1 [es1 [H1 A1]]] [F2 [es2 [H2 A2]]]. split; [congruence|].
  exists (es1 ++ es2); split.
  - rewrite H2, H1, app_assoc; reflexivity.
  - apply Forall_app; auto.
Qed.

Lemma confined_print (line : string) : respects (confined dir) (print line).
Proof.
  intros w; split; [reflexivity|]. exists [Print line]; simpl.
  split; [reflexivity|repeat constructor].
Qed.

Lemma confined_input (prompt : string) :
  respects (confined dir) (input E prompt).
Proof.
  intros w; unfold input.
  destruct (input_answer E prompt w); (split; [reflexivity|]);
    exists [Input prompt]; simpl; (split; [reflexivity|repeat constructor]).
Qed.

Lemma confined_git (sub : string) (args : list string) (t : Z) :
  sub <> "clone" ->
  respects (confined dir)
    (Install._run_git_command E (sub :: args) (Some dir) t).
Proof.
  intros Hsub w. unfold Install._run_git_command, git.
  destruct (git_answer E _ _ w); (split; [reflexivity|]);
    exists [Git (sub :: args) (Some dir) t]; simpl;
    (split; [reflexivity|repeat constructor; assumption]).
Qed.

Lemma confined_chdir : respects (confined dir) (chdir dir).
Proof.
  intros w. unfold chdir, bind, emit; simpl.
  destruct (fs w dir) as [[|]|]; simpl; (split; [reflexivity|]);
    exists [Chdir dir]; simpl; (split; [reflexivity|repeat constructor]).
Qed.

Ltac confined_frames :=
  frame_with confined_refl confined_trans
    ltac:(first [ apply confined_print
                | apply confined_input
                | apply confined_git; discriminate
                | apply confined_chdir
                | match goal with
                  | |- respects _ (let '(_, _) := ?p in _) => destruct p
                  end ]).

(** An update in place stays in the working copy. *)
Lemma confined_safe_git_update :
  respects (confined dir) (Install._safe_git_update E dir).
Proof.
  unfold Install._safe_git_update, Install._git_get_current_branch,
    Install._git_has_conflicts, Install._git_has_uncommitted_changes,
    Install._git_has_untracked_files, Install.confirm_discard,
    Install.note_manifest_changes, Install._git_abort_operations,
    Install._git_force_clean_checkout.
  confined_frames.
Qed.

End Confined.

(** A guarded computation whose handler returns always returns. *)
Lemma try_returns {A} (m : M A) (h : exn -> M A) :
  (forall e w, exists a, fst (h e w) = Ret a) ->
  forall w, exists a, fst (try m h w) = Ret a.
Proof.
  intros Hh w. unfold try. destruct (m w) as [[a|e] w']; simpl; eauto.
Qed.

Lemma safe_git_update_returns (E : environment) (repo_dir : path) (w : world) :
  exists b, fst (Install._safe_git_update E repo_dir w) = Ret b.
Proof.
  unfold Install._safe_git_update. apply try_returns.
  intros e w'; exists false; reflexivity.
Qed.

(** X7.  When the install directory holds the manifest,
    [clone_or_update_repo] updates it in place whatever the list of old
    installations: the run returns a boolean, leaves the file system as it
    is (no [shutil.rmtree], no directory created), runs no [clone] and no
    git command outside the install directory, and on success has made the
    install directory the working directory. *)
Theorem update_in_place_is_confined (E : environment)
  (install_dir : path) (old_installations : list path) (w : world) :
  fs w install_dir = Some Dir ->
  fs w (Install.manifest_file install_dir) <> None ->
  let r := Install.clone_or_update_repo E install_dir old_installations w in
  confined install_dir w (snd r)
  /\ exists b, fst r = Ret b /\ (b = true -> cwd (snd r) = install_dir).
Proof.
  intros Hdir Hman. cbv zeta.
  change (wp (Install.clone_or_update_repo E install_dir old_installations)
            (fun o w' =>
               confined install_dir w w'
               /\ exists b, o = Ret b /\ (b = true -> cwd w' = install_dir)) w).
  unfold Install.clone_or_update_repo.
  repeat wp_basic. rewrite !fs_after, Hdir.
  destruct (fs w (Install.manifest_file install_dir)) eqn:Hm; [|congruence].
  cbn [andb]. cbv iota. repeat wp_basic.
  apply (wp_frame_total (confined install_dir));
    [apply safe_git_update_returns|apply confined_safe_git_update|].
  intros b w' Hc.
  assert (Hw : confined install_dir w w').
  { eapply confined_trans; [|exact Hc].
    split; [reflexivity|]. eexists; split; [rewrite !trace_after, <- !app_assoc; reflexivity|].
    simpl; repeat constructor. }
  destruct b; cbv iota.
  - repeat wp_basic.
    + destruct Hw as [Hfs _]. rewrite Hfs in *. congruence.
    + split; [|exists true; auto].
      eapply confined_trans; [exact Hw|].
      split; [reflexivity|]. exists [Chdir install_dir]; simpl.
      split; [reflexivity|repeat constructor].
  - repeat wp_basic. split; [|exists false; split; [reflexivity|discriminate]].
    eapply confined_trans; [exact Hw|].
    apply confined_print.
Qed.

Lemma update_in_place_is_confined_witness :
  let r := Install.clone_or_update_repo (status_env 0 "" None) old_install
             [home] old_world in
  confined old_install old_world (snd r)
  /\ exists b, fst r = Ret b /\ (b = true -> cwd (snd r) = old_install).
Proof.
  apply (update_in_place_is_confined (status_env 0 "" None) old_install
           [home] old_world).
  - reflexivity.
  - intros H; vm_compute in H; discriminate H.
Defined.

Section Reconciliation.

Variable E : environment.
Variable install_dir : path.

Lemma untouched_input (old : path) (prompt : string) :
  respects (untouched old) (input E prompt).
Proof.
  intros w. unfold input, untouched.
  destruct (input_answer E prompt w); simpl;
    (split; [auto|]); exists [Input prompt]; (split; [reflexivity|]);
    intros [H|[]]; discriminate.
Qed.

Ltac spare_frames :=
  frame_with untouched_refl untouched_trans
    ltac:(first [ apply untouched_print
                | apply untouched_input
                | apply untouched_path_exists
                | apply untouched_chdir
                | apply untouched_run_git
                | apply untouched_fresh_clone; assumption
                | apply untouched_rmtree; assumption
                | match goal with
                  | |- respects _ (let '(_, _) := ?p in _) => destruct p
                  end ]).

(** An update in place removes nothing. *)
Lemma untouched_safe_git_update (old repo_dir : path) :
  respects (untouched old) (Install._safe_git_update E repo_dir).
Proof.
  unfold Install._safe_git_update, Install._git_get_current_branch,
    Install._git_has_conflicts, Install._git_has_uncommitted_changes,
    Install._git_has_untracked_files, Install.confirm_discard,
    Install.note_manifest_changes, Install._git_abort_operations,
    Install._git_force_clean_checkout.
  spare_frames.
Qed.

(** A migration removes nothing outside the install directory and the old
    installation. *)
Lemma untouched_migrate_installation (old old_dir : path) :
  under install_dir old = false -> under old_dir old = false ->
  respects (untouched old) (Install._migrate_installation E install_dir old_dir).
Proof.
  intros Hi Ho.
  unfold Install._migrate_installation, Install._git_has_uncommitted_changes.
  spare_frames.
Qed.

Lemma untouched_clone_or_update_repo (old : path)
  (old_installations : list path) :
  under install_dir old = false ->
  (forall first, hd_error old_installations = Some first ->
                 under first old = false) ->
  respects (untouched old)
    (Install.clone_or_update_repo E install_dir old_installations).
Proof.
  intros Hi Ho. unfold Install.clone_or_update_repo.
  destruct old_installations as [|first rest].
  - frame_with untouched_refl untouched_trans
      ltac:(first [ apply untouched_print
                  | apply untouched_path_exists
                  | apply untouched_chdir
                  | apply untouched_safe_git_update
                  | apply untouched_fresh_clone; assumption ]).
  - assert (Hf : under first old = false) by (apply Ho; reflexivity).
    frame_with untouched_refl untouched_trans
      ltac:(first [ apply untouched_print
                  | apply untouched_path_exists
                  | apply untouched_chdir
                  | apply untouched_safe_git_update
                  | apply untouched_migrate_installation; assumption ]).
Qed.

End Reconciliation.

(** X8.  Whatever the installation state, [clone_or_update_repo] leaves in
    place, and never hands to [shutil.rmtree], any directory that lies
    neither inside the install directory nor inside the first old
    installation: of several old installations only the first is migrated,
    the others are not touched at this stage. *)
Theorem reconcile_spares_other_directories (E : environment)
  (install_dir : path) (old_installations : list path) (d : path)
  (w : world) :
  under install_dir d = false ->
  (forall first, hd_error old_installations = Some first ->
                 under first d = false) ->
  untouched d w
    (snd (Install.clone_or_update_repo E install_dir old_installations w)).
Proof.
  intros Hi Ho. apply untouched_clone_or_update_repo; assumption.
Qed.

(** A second old installation, with local changes or not, survives the
    migration from the first. *)
Definition second_install : path :=
  ["home"; "user"; "projects"; "claude-code-docs"].

Definition two_installs_world : world :=
  World (make_dirs [parent second_install; second_install;
                    child second_install ".git"] old_fs)
    home [].

Lemma reconcile_spares_other_directories_witness :
  untouched second_install two_installs_world
    (snd (Install.clone_or_update_repo (status_env 0 "" None) target
            [old_install; second_install] two_installs_world)).
Proof.
  apply (reconcile_spares_other_directories (status_env 0 "" None) target
           [old_install; second_install] second_install two_installs_world).
  - reflexivity.
  - intros first H; injection H as <-; reflexivity.
Defined.

Example migration_takes_the_first_old_installation :
  let r := Install.clone_or_update_repo (status_env 0 "" None) target
             [old_install; second_install] two_installs_world in
  fst r = Ret true
  /\ fs (snd r) old_install = None
  /\ fs (snd r) second_install = Some Dir
  /\ fs (snd r) (Install.manifest_file target) = Some File.
Proof. cbv zeta; repeat split; reflexivity. Qed.

(** ** Reconciliation: what success means *)

Lemma wp_conseq {A} (m : M A) (Q Q' : outcome A -> world -> Prop) w :
  wp m Q w -> (forall o w', Q o w' -> Q' o w') -> wp m Q' w.
Proof. unfold wp; auto. Qed.

(** The install directory holds the manifest and is the working
    directory. *)
Definition installed (install_dir : path) (w : world) : Prop :=
  fs w (Install.manifest_file install_dir) <> None /\ cwd w = install_dir.

Section Success.

Variable E : environment.
Variable install_dir : path.



End Success.



(** Run from a directory that holds the manifest, is not under version
    control and contains the install directory, the migration reports
    success after removing that directory, the new installation
    included. *)
Definition enclosing_fs : filesystem :=
  fun p => if existsb (path_eqb p)
                [[]; ["home"]; home; child home "docs";
                 Install.manifest_file home]
           then (if path_eqb p (Install.manifest_file home)
                 then Some File else Some Dir)
           else None.

Example migration_from_enclosing_directory :
  let r := Install.clone_or_update_repo (status_env 0 "" None) target
             [home] (World enclosing_fs home []) in
  fst r = Ret true
  /\ fs (snd r) target = None
  /\ fs (snd r) home = None.
Proof. cbv zeta; repeat split; reflexivity. Qed.

(** ** Migration from a directory that is not under version control *)

(** An event that looks into a working copy: a git subcommand run in
    one. *)
Definition inspects (e : event) : bool :=
  match e with Git _ (Some _) _ => true | _ => false end.

(** Between two worlds the trace only grew, and no working copy was
    looked into. *)
Definition blind (w w' : world) : Prop :=
  exists es, trace w' = trace w ++ es
             /\ Forall (fun e => inspects e = false) es.

Section Blind.

Variable E : environment.

Lemma blind_refl (w : world) : blind w w.
Proof. exists []; rewrite app_nil_r; auto. Qed.

Lemma blind_trans (w1 w2 w3 : world) : blind w1 w2 -> blind w2 w3 -> blind w1 w3.
Proof.
  intros [es1 [H1 F1]] [es2 [H2 F2]]. exists (es1 ++ es2); split.
  - rewrite H2, H1, app_assoc; reflexivity.
  - apply Forall_app; auto.
Qed.

Lemma blind_snoc (w0 w : world) (e : event) :
  blind w0 w -> inspects e = false -> blind w0 (after w [e]).
Proof.
  intros H He. eapply blind_trans; [exact H|]. exists [e]; auto.
Qed.

Lemma blind_emit (e : event) : inspects e = false -> respects blind (emit e).
Proof. intros He w; exists [e]; simpl; auto. Qed.

Lemma blind_print (line : string) : respects blind (print line).
Proof. apply blind_emit; reflexivity. Qed.

Lemma blind_path_exists (p : path) : respects blind (path_exists p).
Proof. intros w; apply blind_refl. Qed.

Lemma blind_clone (args : list string) (t : Z) (dest : option path) :
  respects blind (git E args None t dest).
Proof.
  intros w; unfold git.
  destruct (git_answer E args None w); [destruct dest|];
    exists [Git args None t]; simpl; auto.
Qed.

Lemma blind_rmtree (p : path) : respects blind (rmtree E p).
Proof.
  intros w. unfold rmtree, bind, emit; simpl.
  destruct (fs w p) as [[|]|]; simpl;
    try solve [exists [Rmtree p]; simpl; auto].
  destruct (rmtree_error E p _); exists [Rmtree p]; simpl; auto.
Qed.

Lemma blind_mkdir_parents (p : path) : respects blind (mkdir_parents E p).
Proof.
  intros w. unfold mkdir_parents, bind, emit; simpl.
  destruct (mkdir_error E p _); simpl; [solve [exists [Mkdir p]; simpl; auto]|].
  destruct (existsb _ (ancestors p)); exists [Mkdir p]; simpl; auto.
Qed.

Lemma blind_chdir (p : path) : respects blind (chdir p).
Proof.
  intros w. unfold chdir, bind, emit; simpl.
  destruct (fs w p) as [[|]|]; exists [Chdir p]; simpl; auto.
Qed.

Lemma blind_fresh_clone (install_dir : path) :
  respects blind (Install._fresh_clone E install_dir).
Proof.
  unfold Install._fresh_clone.
  frame_with blind_refl blind_trans
    ltac:(first [ apply blind_print
                | apply blind_path_exists
                | apply blind_clone
                | apply blind_rmtree
                | apply blind_mkdir_parents
                | apply blind_chdir ]).
Qed.

End Blind.

(** X10.  An old directory without [.git] is not examined by
    [_migrate_installation]: no git command is run in it, and once the
    fresh clone has succeeded the directory is handed to [shutil.rmtree];
    the migration returns [True], and either the directory is gone with all
    it contained or the failure of the removal is printed. *)
Theorem migration_removes_unversioned (E : environment)
  (install_dir old_dir : path) (w : world) :
  fs w (child old_dir ".git") = None ->
  fst (Install._fresh_clone E install_dir w) = Ret true ->
  let r := Install._migrate_installation E install_dir old_dir w in
  fst r = Ret true
  /\ blind w (snd r)
  /\ In (Rmtree old_dir) (trace (snd r))
  /\ ((forall q, under old_dir q = true -> fs (snd r) q = None)
      \/ exists e,
           In (Print ("[!] Could not remove old installation: " ^^ e))
              (trace (snd r))).
Proof.
  intros Hgit Hclone. cbv zeta.
  change (wp (Install._migrate_installation E install_dir old_dir)
            (fun o w' =>
               o = Ret true
               /\ blind w w'
               /\ In (Rmtree old_dir) (trace w')
               /\ ((forall q, under old_dir q = true -> fs w' q = None)
                   \/ exists e,
                        In (Print ("[!] Could not remove old installation: "
                                   ^^ e)) (trace w'))) w).
  unfold Install._migrate_installation.
  apply wp_try, wp_bind, wp_path_exists. rewrite Hgit. cbv beta iota.
  repeat wp_basic.
  apply wp_run. intros o w1 Hrun.
  pose proof (blind_fresh_clone E install_dir w) as Hb.
  rewrite Hrun in Hclone, Hb. simpl in Hclone, Hb. subst o.
  cbv beta iota. cbn [negb].
  wp_run; simpl; rewrite ?in_app_iff; simpl.
  - split; [reflexivity|]. split; [|split; [tauto|]].
    + repeat (apply blind_snoc; [|reflexivity]). exact Hb.
    + right. exists (exn_msg e). rewrite !in_app_iff; simpl. tauto.
  - split; [reflexivity|]. split; [|split; [tauto|]].
    + destruct Hb as [es [Ht Hf]].
      exists (es ++ [Print "Removing old installation..."; Rmtree old_dir;
                     Print "[+] Old installation removed"; Print "";
                     Print "[+] Migration complete!"]).
      split.
      * simpl. rewrite Ht, <- !app_assoc. reflexivity.
      * apply Forall_app; split; [exact Hf|repeat constructor].
    + left. intros q Hq. unfold remove_tree. rewrite Hq. reflexivity.
Qed.

(** A download of the repository, unpacked and edited in the home
    directory, holds no [.git]: the migration removes it. *)
Definition unpacked_fs : filesystem :=
  fun p => if existsb (path_eqb p)
                [[]; ["home"]; home; old_install; child old_install "docs";
                 Install.manifest_file old_install;
                 child old_install "notes.md"]
           then (if path_eqb p (child old_install "docs")
                    || (Nat.leb (length p) 3)
                 then Some Dir else Some File)
           else None.

Lemma migration_removes_unversioned_witness :
  let r := Install._migrate_installation (status_env 0 "" None) target
             old_install (World unpacked_fs home []) in
  fst r = Ret true
  /\ blind (World unpacked_fs home []) (snd r)
  /\ In (Rmtree old_install) (trace (snd r))
  /\ ((forall q, under old_install q = true -> fs (snd r) q = None)
      \/ exists e,
           In (Print ("[!] Could not remove old installation: " ^^ e))
              (trace (snd r))).
Proof.
  apply (migration_removes_unversioned (status_env 0 "" None) target
           old_install (World unpacked_fs home [])); reflexivity.
Defined.

Example migration_deletes_unversioned_notes :
  let w := World unpacked_fs home [] in
  let r := Install._migrate_installation (status_env 0 "" None) target
             old_install w in
  fs w (child old_install "notes.md") = Some File
  /\ fst r = Ret true
  /\ fs (snd r) (child old_install "notes.md") = None.
Proof. cbv zeta; repeat split; reflexivity. Qed.

(** ** Update in place: without a connection *)

Definition fetch_call (repo_dir : path) : event :=
  Git ["fetch"; "origin"; Install.INSTALL_BRANCH] (Some repo_dir) 60.

Lemma calm_snoc (w0 w : world) (e : event) :
  calm w0 w -> is_input e = false -> destructive e = false ->
  calm w0 (after w [e]).
Proof.
  intros H Hi Hd. eapply calm_trans; [exact H|]. exists [e]; auto.
Qed.

Ltac calm_chain :=
  first
    [ apply calm_refl
    | apply calm_snoc; [calm_chain | reflexivity | reflexivity]
    | match goal with
      | H : calm ?wk ?w' |- calm _ ?w' =>
          apply (calm_trans _ wk); [calm_chain | exact H]
      end ].

(** Finds an event among those a run appended to the trace. *)
Ltac in_trace :=
  apply in_or_app;
  first [ right; simpl; solve [repeat first [left; reflexivity | right]]
        | left; in_trace ].

(** X11.  When neither the quiet pull nor the fetch of the target branch
    succeeds (each raises or exits non-zero), [_safe_git_update] returns
    [False] after the fetch: it has not prompted and has run no destructive
    step, so the working copy is as it was; the failure to fetch is
    printed. *)
Theorem offline_update_changes_nothing (E : environment) (repo_dir : path)
  (w : world) :
  (forall w', exits_zero (git_answer E ["pull"; "--quiet"; "origin";
                                         Install.INSTALL_BRANCH]
                            (Some repo_dir) w') = false) ->
  (forall w', exits_zero (git_answer E ["fetch"; "origin";
                                         Install.INSTALL_BRANCH]
                            (Some repo_dir) w') = false) ->
  let r := Install._safe_git_update E repo_dir w in
  fst r = Ret false
  /\ calm w (snd r)
  /\ In (fetch_call repo_dir) (trace (snd r))
  /\ In (Print "  [!] Could not fetch from GitHub (offline?)") (trace (snd r)).
Proof.
  intros Hpull Hfetch. cbv zeta.
  change (wp (Install._safe_git_update E repo_dir)
            (fun o w' =>
               o = Ret false
               /\ calm w w'
               /\ In (fetch_call repo_dir) (trace w')
               /\ In (Print "  [!] Could not fetch from GitHub (offline?)")
                     (trace w')) w).
  unfold Install._safe_git_update. apply wp_try.
  repeat first
    [ lazymatch goal with
      | |- wp (try (bind (Install._run_git_command _ ("pull" :: _) _ _) _) _)
              _ ?x =>
          apply wp_try, wp_bind, wp_git;
          [ intros _ ?
          | let r := fresh "r" in
            let Hr := fresh "Hr" in
            intros r Hr; pose proof (Hpull x) as Hp;
            unfold Install.INSTALL_BRANCH in Hr, Hp; rewrite Hr in Hp;
            simpl in Hp; cbv beta iota; rewrite Hp; clear Hr Hp ]
      | |- wp (try (bind (Install._run_git_command _ ("fetch" :: _) _ _) _) _)
              _ ?x =>
          apply wp_try, wp_bind, wp_git;
          [ intros _ ?
          | let r := fresh "r" in
            let Hr := fresh "Hr" in
            intros r Hr; pose proof (Hfetch x) as Hp;
            unfold Install.INSTALL_BRANCH in Hr, Hp; rewrite Hr in Hp;
            simpl in Hp; cbv beta iota; rewrite Hp; clear Hr Hp ]
      end; cbv beta iota
    | update_step ].
  all: split; [reflexivity|]; split; [calm_chain|].
  all: unfold fetch_call, Install.INSTALL_BRANCH; rewrite !trace_after.
  all: split; in_trace.
Qed.

(** With every git command failing the update in place gives up without
    touching anything. *)
Definition offline_env : environment :=
  Environment
    (fun args _ _ =>
       match args with
       | "rev-parse" :: _ => Some (Completed 0 ("main" ^^ String newline "") "")
       | "config" :: _ => Some (Completed 0 "false" "")
       | _ => Some (Completed 128 "" "fatal: unable to access")
       end)
    (fun _ => []) (fun _ _ => None) (fun _ _ => None) (fun _ _ => None).

Lemma offline_update_changes_nothing_witness :
  let r := Install._safe_git_update offline_env old_install old_world in
  fst r = Ret false
  /\ calm old_world (snd r)
  /\ In (fetch_call old_install) (trace (snd r))
  /\ In (Print "  [!] Could not fetch from GitHub (offline?)") (trace (snd r)).
Proof.
  apply (offline_update_changes_nothing offline_env old_install old_world);
    intros w'; reflexivity.
Defined.

(** ** Update in place: when the status cannot be read *)

Section StatusUnreadable.

Variable E : environment.

Lemma wp_has_conflicts (repo_dir : path) (ex : bool) Q w :
  Q (Ret match git_answer E ["status"; "--porcelain"] (Some repo_dir) w with
         | Some c => (returncode c =? 0)%Z
                     && Install.status_has_conflicts (stdout c) ex
         | None => false
         end) (after w [status_call repo_dir]) ->
  wp (Install._git_has_conflicts E repo_dir ex) Q w.
Proof. unfold wp. rewrite has_conflicts_run. exact (fun H => H). Qed.

Lemma wp_has_uncommitted_changes (repo_dir : path) (ex : bool) Q w :
  Q (Ret match git_answer E ["status"; "--porcelain"] (Some repo_dir) w with
         | Some c => (returncode c =? 0)%Z
                     && Install.status_has_changes (stdout c) ex
         | None => false
         end) (after w [status_call repo_dir]) ->
  wp (Install._git_has_uncommitted_changes E repo_dir ex) Q w.
Proof. unfold wp. rewrite has_uncommitted_changes_run. exact (fun H => H). Qed.

Lemma wp_has_untracked_files (repo_dir : path) Q w :
  Q (Ret match git_answer E ["status"; "--porcelain"] (Some repo_dir) w with
         | Some c => (returncode c =? 0)%Z
                     && Install.status_has_untracked (stdout c)
         | None => false
         end) (after w [status_call repo_dir]) ->
  wp (Install._git_has_untracked_files E repo_dir) Q w.
Proof. unfold wp. rewrite has_untracked_files_run. exact (fun H => H). Qed.

Lemma no_prompt_keeps (w w' : world) (e : event) :
  no_prompt w w' -> In e (trace w) -> In e (trace w').
Proof. intros [es [-> _]] H. apply in_or_app; auto. Qed.

Lemma abort_operations_returns (repo_dir : path) (w : world) :
  exists a, fst (Install._git_abort_operations E repo_dir w) = Ret a.
Proof.
  unfold Install._git_abort_operations, Install._run_git_command,
    try, bind, git, ret; simpl.
  repeat match goal with
         | |- context [match git_answer ?e ?a ?c ?x with _ => _ end] =>
             destruct (git_answer e a c x); simpl
         end;
  eexists; reflexivity.
Qed.

(** The force-clean checkout always returns, never prompts, and begins by
    resetting the index. *)
Lemma force_clean_checkout_resets (repo_dir : path) (branch : string)
  (w : world) :
  wp (Install._git_force_clean_checkout E repo_dir branch)
     (fun o w' => (exists a, o = Ret a)
                  /\ no_prompt w w'
                  /\ In (reset_call repo_dir) (trace w')) w.
Proof.
  unfold Install._git_force_clean_checkout. wp_run.
  all: split; [eexists; reflexivity|]; split; [no_prompt_chain|].
  all: unfold reset_call; rewrite !trace_after, <- ?app_assoc;
    apply in_or_app; right; left; reflexivity.
Qed.

End StatusUnreadable.

(** Finds an event in the trace of a world reached through recorded events
    and through runs that only extend the trace. *)
Ltac in_chain :=
  first
    [ assumption
    | rewrite trace_after; apply in_or_app;
      first [ right; simpl; solve [repeat first [left; reflexivity | right]]
            | left; in_chain ]
    | match goal with
      | H : no_prompt ?wk ?w' |- In _ (trace ?w') =>
          apply (no_prompt_keeps _ _ _ H); in_chain
      | H : calm ?wk ?w' |- In _ (trace ?w') =>
          apply (no_prompt_keeps _ _ _ (calm_no_prompt _ _ H)); in_chain
      end ].

(** X12.  On the target branch, after a failed pull and a successful fetch,
    a [status --porcelain] that exits non-zero makes all three checks of
    [_safe_git_update] answer [False]: the run takes the working copy for
    clean, does not prompt, and goes on to abort pending operations and to
    the force-clean checkout, whose first step resets the index. *)
Theorem unreadable_status_resets_without_prompt (E : environment)
  (repo_dir : path) (w : world) :
  fst (Install._git_get_current_branch E repo_dir w)
    = Ret Install.INSTALL_BRANCH ->
  (forall w', exits_zero (git_answer E ["pull"; "--quiet"; "origin";
                                         Install.INSTALL_BRANCH]
                            (Some repo_dir) w') = false) ->
  (forall w', exits_zero (git_answer E ["fetch"; "origin";
                                         Install.INSTALL_BRANCH]
                            (Some repo_dir) w') = true) ->
  (forall w', exists c,
      git_answer E ["status"; "--porcelain"] (Some repo_dir) w' = Some c
      /\ (returncode c =? 0)%Z = false) ->
  let r := Install._safe_git_update E repo_dir w in
  (exists b, fst r = Ret b)
  /\ no_prompt w (snd r)
  /\ In (Print "  Updating to clean state...") (trace (snd r))
  /\ In (reset_call repo_dir) (trace (snd r)).
Proof.
  intros Hbranch Hpull Hfetch Hstatus. cbv zeta.
  change (wp (Install._safe_git_update E repo_dir)
            (fun o w' =>
               (exists b, o = Ret b)
               /\ no_prompt w w'
               /\ In (Print "  Updating to clean state...") (trace w')
               /\ In (reset_call repo_dir) (trace w')) w).
  unfold Install._safe_git_update. apply wp_try, wp_bind.
  apply wp_run. intros o w1 Hrun.
  pose proof (quiet_get_current_branch E repo_dir w) as Hq.
  rewrite Hrun in Hbranch, Hq. simpl in Hbranch, Hq. subst o.
  cbv beta iota zeta. rewrite String.eqb_refl. cbn [negb].
  repeat first
    [ lazymatch goal with
      | |- wp (try (bind (Install._run_git_command _ ("pull" :: _) _ _) _) _)
              _ ?x =>
          apply wp_try, wp_bind, wp_git;
          [ intros _ ?
          | let r := fresh "r" in
            let Hr := fresh "Hr" in
            intros r Hr; pose proof (Hpull x) as Hp;
            unfold Install.INSTALL_BRANCH in Hr, Hp; rewrite Hr in Hp;
            simpl in Hp; cbv beta iota; rewrite Hp; clear Hr Hp ]
      | |- wp (try (bind (Install._run_git_command _ ("fetch" :: _) _ _) _) _)
              _ ?x =>
          apply wp_try, wp_bind, wp_git;
          [ let Hr := fresh "Hr" in
            intros Hr; pose proof (Hfetch x) as Hp;
            unfold Install.INSTALL_BRANCH in Hr, Hp; rewrite Hr in Hp;
            discriminate Hp
          | let r := fresh "r" in
            let Hr := fresh "Hr" in
            intros r Hr; pose proof (Hfetch x) as Hp;
            unfold Install.INSTALL_BRANCH in Hr, Hp; rewrite Hr in Hp;
            simpl in Hp; cbv beta iota; rewrite Hp; clear Hr Hp ]
      | |- wp (Install._git_has_conflicts _ _ _) _ ?x =>
          apply wp_has_conflicts;
          let c := fresh "c" in
          let Hc := fresh "Hc" in
          let Hrc := fresh "Hrc" in
          destruct (Hstatus x) as [c [Hc Hrc]]; rewrite Hc, Hrc; cbn [andb];
          clear c Hc Hrc
      | |- wp (Install._git_has_uncommitted_changes _ _ _) _ ?x =>
          apply wp_has_uncommitted_changes;
          let c := fresh "c" in
          let Hc := fresh "Hc" in
          let Hrc := fresh "Hrc" in
          destruct (Hstatus x) as [c [Hc Hrc]]; rewrite Hc, Hrc; cbn [andb];
          clear c Hc Hrc
      | |- wp (Install._git_has_untracked_files _ _) _ ?x =>
          apply wp_has_untracked_files;
          let c := fresh "c" in
          let Hc := fresh "Hc" in
          let Hrc := fresh "Hrc" in
          destruct (Hstatus x) as [c [Hc Hrc]]; rewrite Hc, Hrc; cbn [andb];
          clear c Hc Hrc; cbv beta iota zeta; cbn [orb]
      | |- wp (Install.note_manifest_changes _ _) _ ?x =>
          unfold Install.note_manifest_changes;
          apply wp_bind, wp_git;
          [ let Hr := fresh "Hr" in
            intros Hr; destruct (Hstatus x) as [? [Hc _]]; congruence
          | let r := fresh "r" in
            let Hr := fresh "Hr" in
            intros r Hr; destruct (Hstatus x) as [c [Hc Hrc]];
            rewrite Hr in Hc; injection Hc as <-; cbv beta iota;
            rewrite Hrc; clear Hr Hrc ]
      | |- wp (Install._git_abort_operations _ _) _ _ =>
          apply (wp_frame_total no_prompt);
          [ apply abort_operations_returns
          | apply quiet_abort_operations
          | intros ? ? ? ]
      | |- wp (Install._git_force_clean_checkout _ _ _) _ _ =>
          eapply wp_conseq; [apply force_clean_checkout_resets|];
          intros ? ? [[? ->] [? ?]]
      end; cbv beta iota
    | update_step ].
  all: split; [eexists; reflexivity|]; split; [no_prompt_chain|].
  all: split; in_chain.
Qed.

(** The status command exits with 128 while pull fails and fetch works:
    the update resets the working copy without asking. *)
Definition unreadable_status_env : environment :=
  Environment
    (fun args _ _ =>
       match args with
       | "rev-parse" :: _ => Some (Completed 0 ("main" ^^ String newline "") "")
       | "pull" :: _ => Some (Completed 1 "" "error: cannot pull")
       | "status" :: _ => Some (Completed 128 "" "fatal: index file corrupt")
       | _ => Some (Completed 0 "" "")
       end)
    (fun _ => []) (fun _ _ => None) (fun _ _ => None) (fun _ _ => None).

Lemma unreadable_status_resets_without_prompt_witness :
  let r := Install._safe_git_update unreadable_status_env old_install
             old_world in
  (exists b, fst r = Ret b)
  /\ no_prompt old_world (snd r)
  /\ In (Print "  Updating to clean state...") (trace (snd r))
  /\ In (reset_call old_install) (trace (snd r)).
Proof.
  apply (unreadable_status_resets_without_prompt unreadable_status_env
           old_install old_world).
  - reflexivity.
  - intros w'; reflexivity.
  - intros w'; reflexivity.
  - intros w'; eexists; split; reflexivity.
Defined.

Example unreadable_status_discards_changes :
  let r := Install._safe_git_update unreadable_status_env old_install
             old_world in
  fst r = Ret true
  /\ In (hard_reset_call old_install "main") (trace (snd r))
  /\ In (clean_call old_install) (trace (snd r)).
Proof.
  cbv zeta. split; [reflexivity|]. split; vm_compute; tauto.
Qed.

(** ** Installing the hook twice *)

Section MoreDictFacts.

Lemma dict_set_set (k : string) (v v' : json) (items : list (string * json)) :
  Py.dict_set k v (Py.dict_set k v' items) = Py.dict_set k v items.
Proof.
  induction items as [|[k0 v0] items IH]; simpl.
  - rewrite String.eqb_refl; reflexivity.
  - destruct (String.eqb k k0) eqn:Hk; simpl; rewrite Hk; congruence.
Qed.

Lemma dict_set_same (k : string) (v : json) (items : list (string * json)) :
  Py.dict_get k items = Some v -> Py.dict_set k v items = items.
Proof.
  induction items as [|[k0 v0] items IH]; simpl; [discriminate|].
  destruct (String.eqb k k0) eqn:Hk.
  - intros H; injection H as ->; reflexivity.
  - intros H; rewrite IH by assumption; reflexivity.
Qed.

Lemma dict_del_set_absent (k : string) (v : json)
  (items : list (string * json)) :
  Py.dict_get k items = None -> Py.dict_del k (Py.dict_set k v items) = items.
Proof.
  unfold Py.dict_del.
  induction items as [|[k0 v0] items IH]; simpl.
  - rewrite String.eqb_refl; reflexivity.
  - destruct (String.eqb k k0) eqn:Hk; [discriminate|].
    intros H. simpl. rewrite Hk. simpl. rewrite IH by assumption. reflexivity.
Qed.

End MoreDictFacts.

(** What [setup_claude_hooks] writes for a settings object, in one
    expression: the cleaned entries and the new hook under
    [hooks.PreToolUse], everything else in place. *)
Definition setup_result (hook_command : string)
  (items : list (string * json)) : option json :=
  match hooks_of items with
  | Some (JDict hitems) =>
      original <~ match Py.dict_get "PreToolUse" hitems with
                  | Some o => Py.iterate o
                  | None => Some []
                  end ;;
      cleaned <~ Install.clean_hooks original ;;
      Some (JDict (Py.dict_set "hooks"
                     (JDict (Py.dict_set "PreToolUse"
                               (JList (cleaned ++ [Install.new_hook hook_command]))
                               hitems))
                     items))
  | _ => None
  end.

Section SetupTwice.

Variable hook_command : string.

Lemma setup_hooks_document_result (items : list (string * json)) :
  Install.setup_claude_hooks_document hook_command (JDict items)
  = setup_result hook_command items.
Proof.
  unfold Install.setup_claude_hooks_document, setup_result, hooks_of.
  cbn [Py.contains_key Py.obind]. rewrite dict_has_get.
  destruct (Py.dict_get "hooks" items) as [hooks|] eqn:Hh;
    cbn [negb Py.obind Py.setitem Py.getitem].
  - rewrite Hh. cbn [Py.obind].
    destruct hooks as [|b|n|s|hl|hitems];
      cbn [Py.contains_key Py.obind Py.setitem Py.getitem]; try reflexivity.
    + destruct (contains "PreToolUse" s); reflexivity.
    + destruct (existsb _ hl); reflexivity.
    + rewrite dict_has_get.
      destruct (Py.dict_get "PreToolUse" hitems) as [original|] eqn:Ho;
        cbn [negb Py.obind Py.setitem Py.getitem].
      * rewrite Ho. cbn [Py.obind].
        destruct (Py.iterate original) as [l|]; cbn [Py.obind]; [|reflexivity].
        destruct (Install.clean_hooks l) as [c|]; cbn [Py.obind]; reflexivity.
      * rewrite dict_get_set_eq. cbn [Py.obind Py.iterate Install.clean_hooks].
        rewrite dict_set_set. reflexivity.
  - rewrite dict_get_set_eq. cbn. rewrite dict_set_set. reflexivity.
Qed.

Lemma clean_hooks_app (a b : list json) :
  Install.clean_hooks (a ++ b)
  = (ca <~ Install.clean_hooks a ;;
     cb <~ Install.clean_hooks b ;;
     Some (ca ++ cb)).
Proof.
  induction a as [|x a IH]; simpl.
  - destruct (Install.clean_hooks b); reflexivity.
  - destruct (if Py.is_dict_with "hooks" x then _ else _) as [keep|];
      simpl; [|reflexivity].
    rewrite IH. destruct (Install.clean_hooks a) as [ca|]; simpl;
      [|reflexivity].
    destruct (Install.clean_hooks b) as [cb|]; simpl; [|reflexivity].
    destruct keep; reflexivity.
Qed.

(** What the loop kept once, it keeps again. *)
Lemma clean_hooks_idempotent (original cleaned : list json) :
  Install.clean_hooks original = Some cleaned ->
  Install.clean_hooks cleaned = Some cleaned.
Proof.
  revert cleaned; induction original as [|x l IH]; simpl; intros cleaned.
  - intros H; injection H as <-; reflexivity.
  - destruct (if Py.is_dict_with "hooks" x then _ else _) as [keep|] eqn:Hk;
      simpl; [|discriminate].
    destruct (Install.clean_hooks l) as [c|]; simpl; [|discriminate].
    specialize (IH c eq_refl).
    destruct keep; intros H; injection H as <-; [|exact IH].
    simpl. rewrite Hk, IH. reflexivity.
Qed.

Hypothesis command_names_tool : contains TOOL hook_command = true.

(** The hook the installer registers is one it takes for its own. *)
Lemma new_hook_names_tool :
  group_names_tool (Install.new_hook hook_command) = true.
Proof.
  unfold group_names_tool, Install.new_hook. cbn.
  rewrite command_names_tool. reflexivity.
Qed.

Lemma clean_hooks_new_hook :
  Install.clean_hooks [Install.new_hook hook_command] = Some [].
Proof. cbn. rewrite command_names_tool. reflexivity. Qed.

End SetupTwice.

(** X13.  When the hook command contains [claude-code-docs] (as the
    command built from the install directory does), what
    [setup_claude_hooks] writes is a fixed point: run on its own output it
    writes the same document again.  In that document exactly one
    [PreToolUse] entry is a group that names the tool, the new hook, so
    installing again never duplicates it. *)
Theorem setup_hooks_idempotent (hook_command : string) (settings out : json) :
  contains TOOL hook_command = true ->
  Install.setup_claude_hooks_document hook_command settings = Some out ->
  Install.setup_claude_hooks_document hook_command out = Some out
  /\ exists hooks entries,
       Py.getitem out "hooks" = Some hooks
       /\ Py.getitem hooks "PreToolUse" = Some (JList entries)
       /\ filter group_names_tool entries = [Install.new_hook hook_command].
Proof.
  intros Hcmd Hrun.
  destruct settings as [|b|n|s|l|items];
    try (cbn in Hrun;
         repeat match type of Hrun with
                | context [if ?c then _ else _] => destruct c; cbn in Hrun
                end; discriminate Hrun).
  rewrite setup_hooks_document_result in Hrun. unfold setup_result in Hrun.
  destruct (hooks_of items) as [[| | | | |hitems]|]; try discriminate.
  destruct (match Py.dict_get "PreToolUse" hitems with
            | Some o => Py.iterate o
            | None => Some []
            end) as [original|]; cbn [Py.obind] in Hrun; [|discriminate].
  destruct (Install.clean_hooks original) as [cleaned|] eqn:Hclean;
    cbn [Py.obind] in Hrun; [|discriminate].
  injection Hrun as <-. split.
  - rewrite setup_hooks_document_result. unfold setup_result, hooks_of.
    rewrite dict_get_set_eq, dict_get_set_eq. cbn [Py.iterate Py.obind].
    rewrite clean_hooks_app, (clean_hooks_idempotent _ _ Hclean).
    rewrite (clean_hooks_new_hook _ Hcmd). cbn [Py.obind].
    rewrite app_nil_r, !dict_set_set. reflexivity.
  - do 2 eexists. cbn [Py.getitem].
    split; [apply dict_get_set_eq|]. split; [apply dict_get_set_eq|].
    rewrite filter_app. cbn [filter].
    rewrite (new_hook_names_tool _ Hcmd).
    rewrite (clean_hooks_filter _ _ Hclean).
    replace (filter group_names_tool
               (filter (fun e => negb (group_names_tool e)) original))
      with (@nil json); [reflexivity|].
    clear Hclean. induction original as [|x l' IH]; [reflexivity|]. simpl.
    destruct (group_names_tool x) eqn:Hx; simpl; [|rewrite Hx]; exact IH.
Qed.

(** The settings with the tool's hook of an earlier run: installing again
    leaves one hook of the tool. *)
Lemma setup_hooks_idempotent_witness :
  Install.setup_claude_hooks_document (Install.hook_command target false)
    (settings_with [other_hook; Install.new_hook (Install.hook_command target false)])
  = Some (settings_with [other_hook; Install.new_hook (Install.hook_command target false)])
  /\ exists hooks entries,
       Py.getitem (settings_with [other_hook;
                                  Install.new_hook (Install.hook_command target false)])
         "hooks" = Some hooks
       /\ Py.getitem hooks "PreToolUse" = Some (JList entries)
       /\ filter group_names_tool entries
          = [Install.new_hook (Install.hook_command target false)].
Proof.
  apply (setup_hooks_idempotent (Install.hook_command target false)
           (settings_with [docs_hook; other_hook])); reflexivity.
Defined.

(** ** What the uninstaller leaves in the settings *)

Section RemovalFacts.

Variable py_str : json -> string.

(** A [PreToolUse] entry the uninstaller takes for the tool's: a dict with
    a ["hooks"] list in which some hook has a command that, rendered by
    [str], contains the tool's name. *)
Definition entry_names_tool (entry : json) : bool :=
  Py.is_dict_with "hooks" entry
  && match Py.get_or_empty_list "hooks" entry with
     | JList l => existsb (Uninstall.hook_names_tool py_str) l
     | _ => false
     end.

Lemma filter_hooks_filter (entries : list json) :
  Uninstall.filter_hooks py_str entries
  = filter (fun e => Py.is_dict_with "hooks" e && negb (entry_names_tool e))
      entries.
Proof.
  induction entries as [|x l IH]; simpl; [reflexivity|].
  unfold entry_names_tool.
  destruct (Py.is_dict_with "hooks" x); simpl; [|exact IH].
  destruct (negb _); rewrite IH; reflexivity.
Qed.

Lemma filter_same_length {A} (f : A -> bool) (l : list A) :
  length (filter f l) = length l -> filter f l = l.
Proof.
  induction l as [|x l IH]; simpl; [reflexivity|].
  destruct (f x); simpl; intros H.
  - f_equal; apply IH; lia.
  - pose proof (filter_length_le f l). lia.
Qed.

Lemma filter_hooks_kept (entries : list json) (e : json) :
  In e (Uninstall.filter_hooks py_str entries) ->
  Py.is_dict_with "hooks" e = true /\ entry_names_tool e = false.
Proof.
  rewrite filter_hooks_filter. intros H. apply filter_In in H as [_ H].
  apply andb_true_iff in H as [H1 H2]. apply negb_true_iff in H2. auto.
Qed.

Lemma filter_hooks_idempotent (entries : list json) :
  Uninstall.filter_hooks py_str (Uninstall.filter_hooks py_str entries)
  = Uninstall.filter_hooks py_str entries.
Proof.
  rewrite !filter_hooks_filter.
  induction entries as [|x l IH]; simpl; [reflexivity|].
  destruct (Py.is_dict_with "hooks" x && negb (entry_names_tool x)) eqn:Hx;
    simpl; rewrite ?Hx, IH; reflexivity.
Qed.


(** The two phases of [remove_hooks]: filtering [hooks.PreToolUse], then
    removing the structures left empty. *)
Definition strip_hooks (settings : json) : option (json * bool) :=
  has_hooks <~ Py.contains_key "hooks" settings ;;
  if has_hooks then
    hooks <~ Py.getitem settings "hooks" ;;
    has_pre <~ Py.contains_key "PreToolUse" hooks ;;
    if has_pre then
      original_hooks <~ Py.getitem hooks "PreToolUse" ;;
      match original_hooks with
      | JList original =>
          let filtered_hooks := Uninstall.filter_hooks py_str original in
          if negb (length filtered_hooks =? length original)%nat then
            hooks <~ Py.setitem hooks "PreToolUse" (JList filtered_hooks) ;;
            settings <~ Py.setitem settings "hooks" hooks ;;
            Some (settings, true)
          else Some (settings, false)
      | _ => Some (settings, false)
      end
    else Some (settings, false)
  else Some (settings, false).

Definition tidy (settings : json) (changed : bool) : option (json * bool) :=
  has_hooks <~ Py.contains_key "hooks" settings ;;
  if has_hooks then
    hooks <~ Py.getitem settings "hooks" ;;
    has_pre <~ Py.contains_key "PreToolUse" hooks ;;
    state <~ (if has_pre then
                pre <~ Py.getitem hooks "PreToolUse" ;;
                if negb (Py.truth pre) then
                  hooks <~ Py.delitem hooks "PreToolUse" ;;
                  settings <~ Py.setitem settings "hooks" hooks ;;
                  Some (settings, hooks, true)
                else Some (settings, hooks, changed)
              else Some (settings, hooks, changed)) ;;
    let '(settings, hooks, changed) := state in
    if negb (Py.truth hooks) then
      settings <~ Py.delitem settings "hooks" ;;
      Some (settings, true)
    else Some (settings, changed)
  else Some (settings, changed).

Lemma remove_hooks_document_phases (settings : json) :
  Uninstall.remove_hooks_document py_str settings
  = (state <~ strip_hooks settings ;;
     let '(settings, changed) := state in tidy settings changed).
Proof.
  unfold Uninstall.remove_hooks_document, strip_hooks.
  destruct (Py.contains_key "hooks" settings) as [[|]|]; reflexivity.
Qed.

(** Every entry of the document's [hooks.PreToolUse] list is a group that
    does not name the tool. *)
Definition free_of_tool (doc : json) : Prop :=
  forall hooks entries e,
    Py.getitem doc "hooks" = Some hooks ->
    Py.getitem hooks "PreToolUse" = Some (JList entries) ->
    In e entries ->
    Py.is_dict_with "hooks" e = true /\ entry_names_tool e = false.

Lemma strip_hooks_spec (settings out : json) (changed : bool) :
  strip_hooks settings = Some (out, changed) ->
  free_of_tool out /\ (changed = false -> out = settings).
Proof.
  unfold strip_hooks, free_of_tool. intros H.
  destruct settings as [|b|n|s|l|items]; cbn in H; try discriminate.
  - destruct (contains "hooks" s) eqn:Hc; cbn in H; [discriminate|].
    injection H as <- <-.
    split; [intros hooks entries e Hg; discriminate Hg|reflexivity].
  - destruct (existsb _ l) eqn:Hc; cbn in H; [discriminate|].
    injection H as <- <-.
    split; [intros hooks entries e Hg; discriminate Hg|reflexivity].
  - rewrite dict_has_get in H.
    destruct (Py.dict_get "hooks" items) as [hooks|] eqn:Hh; cbn in H.
    2:{ injection H as <- <-. split; [|reflexivity].
        intros hooks entries e Hg. cbn in Hg. congruence. }
    destruct hooks as [|b|n|s|hl|hitems]; cbn in H; try discriminate.
    + destruct (contains "PreToolUse" s); cbn in H; [discriminate|].
      injection H as <- <-. split; [|reflexivity].
      intros hooks entries e Hg Hp. cbn in Hg. rewrite Hh in Hg.
      injection Hg as <-. discriminate Hp.
    + destruct (existsb _ hl); cbn in H; [discriminate|].
      injection H as <- <-. split; [|reflexivity].
      intros hooks entries e Hg Hp. cbn in Hg. rewrite Hh in Hg.
      injection Hg as <-. discriminate Hp.
    + rewrite dict_has_get in H.
      destruct (Py.dict_get "PreToolUse" hitems) as [pre|] eqn:Hp; cbn in H.
      2:{ injection H as <- <-. split; [|reflexivity].
          intros hooks entries e Hg Hq. cbn in Hg. rewrite Hh in Hg.
          injection Hg as <-. cbn in Hq. congruence. }
      destruct pre as [|b|n|s|original|d];
        try (injection H as <- <-; split; [|reflexivity];
             intros hooks entries e Hg Hq; cbn in Hg; rewrite Hh in Hg;
             injection Hg as <-; cbn in Hq; congruence).
      destruct (length (Uninstall.filter_hooks py_str original)
                =? length original)%nat eqn:Hlen; cbn in H;
        injection H as <- <-.
      * split; [|reflexivity].
        intros hooks entries e Hg Hq. cbn in Hg. rewrite Hh in Hg.
        injection Hg as <-. cbn in Hq. rewrite Hp in Hq. injection Hq as <-.
        apply Nat.eqb_eq in Hlen.
        rewrite filter_hooks_filter in Hlen. apply filter_same_length in Hlen.
        rewrite <- Hlen, <- filter_hooks_filter. apply filter_hooks_kept.
      * split; [|discriminate].
        intros hooks entries e Hg Hq. cbn in Hg. rewrite dict_get_set_eq in Hg.
        injection Hg as <-. cbn in Hq. rewrite dict_get_set_eq in Hq.
        injection Hq as <-. apply filter_hooks_kept.
Qed.

Lemma tidy_spec (settings out : json) (changed changed' : bool) :
  tidy settings changed = Some (out, changed') ->
  (free_of_tool settings -> free_of_tool out)
  /\ (changed' = false -> out = settings /\ changed = false).
Proof.
  unfold tidy, free_of_tool. intros H.
  destruct settings as [|b|n|s|l|items]; cbn in H; try discriminate.
  - destruct (contains "hooks" s) eqn:Hc; cbn in H; [discriminate|].
    injection H as <- <-. auto.
  - destruct (existsb _ l) eqn:Hc; cbn in H; [discriminate|].
    injection H as <- <-. auto.
  - rewrite dict_has_get in H.
    destruct (Py.dict_get "hooks" items) as [hooks|] eqn:Hh; cbn in H.
    2:{ injection H as <- <-. auto. }
    assert (Hgone : forall hooks0 entries (e : json),
              Py.getitem (JDict (Py.dict_del "hooks" items)) "hooks"
              = Some hooks0 ->
              Py.getitem hooks0 "PreToolUse" = Some (JList entries) ->
              In e entries ->
              Py.is_dict_with "hooks" e = true /\ entry_names_tool e = false).
    { intros hooks0 entries e Hg. cbn in Hg. rewrite dict_get_del_eq in Hg.
      discriminate. }
    destruct hooks as [|b|n|s|hl|hitems]; cbn in H; try discriminate.
    + destruct (contains "PreToolUse" s); cbn in H; [discriminate|].
      destruct s; cbn in H; injection H as <- <-;
        (split; [auto|try discriminate; auto]).
    + destruct (existsb _ hl); cbn in H; [discriminate|].
      destruct hl; cbn in H; injection H as <- <-;
        (split; [auto|try discriminate; auto]).
    + rewrite dict_has_get in H.
      destruct (Py.dict_get "PreToolUse" hitems) as [pre|] eqn:Hp; cbn in H.
      * destruct (Py.truth pre) eqn:Ht; cbn in H.
        -- destruct hitems as [|i hitems']; [discriminate Hp|].
           cbn in H. injection H as <- <-. auto.
        -- destruct (Py.dict_del "PreToolUse" hitems) as [|i rest] eqn:Hd;
             cbn in H; injection H as <- <-; (split; [|discriminate]).
           ++ intros _ hooks0 entries e Hg. cbn in Hg.
              rewrite dict_get_del_eq in Hg. discriminate.
           ++ intros _ hooks0 entries e Hg Hq. cbn in Hg.
              rewrite dict_get_set_eq in Hg. injection Hg as <-.
              cbn [Py.getitem] in Hq.
              rewrite <- Hd, dict_get_del_eq in Hq. discriminate.
      * destruct hitems as [|i hitems']; cbn in H; injection H as <- <-;
          (split; [auto|try discriminate; auto]).
Qed.

End RemovalFacts.

(** X14.  Whatever [remove_hooks] returns as the document to keep, every
    entry of its [hooks.PreToolUse] list is a group [{hooks: ...}] in which
    no hook's command contains [claude-code-docs]; and when it reports no
    change (so that nothing is written back) the document is the one it
    read. *)
Theorem remove_hooks_leaves_no_tool_hook (py_str : json -> string)
  (settings out : json) (changed : bool) :
  Uninstall.remove_hooks_document py_str settings = Some (out, changed) ->
  (forall hooks entries e,
     Py.getitem out "hooks" = Some hooks ->
     Py.getitem hooks "PreToolUse" = Some (JList entries) ->
     In e entries ->
     Py.is_dict_with "hooks" e = true /\ entry_names_tool py_str e = false)
  /\ (changed = false -> out = settings).
Proof.
  rewrite remove_hooks_document_phases. intros H.
  destruct (strip_hooks py_str settings) as [[s1 c1]|] eqn:Hs;
    cbn [Py.obind] in H; [|discriminate].
  destruct (strip_hooks_spec _ _ _ _ Hs) as [Hfree Hsame].
  destruct (tidy_spec py_str _ _ _ _ H) as [Hkeep Hsame'].
  split; [exact (Hkeep Hfree)|].
  intros Hc. destruct (Hsame' Hc) as [-> ->]. auto.
Qed.

(** The uninstaller removes the tool's hook and leaves the other tool's
    group. *)
Lemma remove_hooks_leaves_no_tool_hook_witness :
  (forall hooks entries e,
     Py.getitem (settings_with [other_hook]) "hooks" = Some hooks ->
     Py.getitem hooks "PreToolUse" = Some (JList entries) ->
     In e entries ->
     Py.is_dict_with "hooks" e = true
     /\ entry_names_tool (fun _ => "") e = false)
  /\ (true = false -> settings_with [other_hook]
                      = settings_with [other_hook; docs_hook]).
Proof.
  apply (remove_hooks_leaves_no_tool_hook (fun _ => "")
           (settings_with [other_hook; docs_hook])).
  reflexivity.
Defined.

(** ** Uninstalling twice *)

Section RemoveTwice.

Variable py_str : json -> string.

(** A document the first phase leaves as it is. *)
Definition stripped (doc : json) : Prop :=
  strip_hooks py_str doc = Some (doc, false).

(** A document on which a second run changes nothing. *)
Definition settled (doc : json) : Prop :=
  stripped doc /\ tidy doc false = Some (doc, false).

Lemma strip_hooks_stripped (settings out : json) (changed : bool) :
  strip_hooks py_str settings = Some (out, changed) -> stripped out.
Proof.
  intros H. destruct changed.
  2:{ destruct (strip_hooks_spec _ _ _ _ H) as [_ Hs].
      rewrite (Hs eq_refl). rewrite (Hs eq_refl) in H. exact H. }
  unfold stripped. unfold strip_hooks in H.
  destruct settings as [|b|n|s|l|items]; cbn in H; try discriminate.
  - destruct (contains "hooks" s); discriminate.
  - destruct (existsb _ l); discriminate.
  - rewrite dict_has_get in H.
    destruct (Py.dict_get "hooks" items) as [hooks|] eqn:Hh; cbn in H;
      [|discriminate].
    destruct hooks as [|b|n|s|hl|hitems]; cbn in H; try discriminate.
    + destruct (contains "PreToolUse" s); discriminate.
    + destruct (existsb _ hl); discriminate.
    + rewrite dict_has_get in H.
      destruct (Py.dict_get "PreToolUse" hitems) as [pre|] eqn:Hp; cbn in H;
        [|discriminate].
      destruct pre as [|b|n|s|original|d]; try discriminate.
      destruct (length (Uninstall.filter_hooks py_str original)
                =? length original)%nat eqn:Hlen; cbn in H; [discriminate|].
      injection H as <-. unfold strip_hooks.
      cbn [Py.contains_key Py.obind Py.getitem].
      rewrite !dict_has_get, !dict_get_set_eq.
      cbn [Py.contains_key Py.obind Py.getitem].
      rewrite !dict_has_get, !dict_get_set_eq. cbn [Py.obind].
      rewrite filter_hooks_idempotent, Nat.eqb_refl. reflexivity.
Qed.

Lemma deleted_hooks_settled (items : list (string * json)) :
  settled (JDict (Py.dict_del "hooks" items)).
Proof.
  unfold settled, stripped, strip_hooks, tidy.
  cbn [Py.contains_key Py.obind]. rewrite dict_has_get, dict_get_del_eq.
  split; reflexivity.
Qed.

(** A document whose ["hooks"] object is not empty and has no
    ["PreToolUse"] key. *)
Lemma without_pre_settled (items hitems : list (string * json)) :
  Py.dict_get "hooks" items = Some (JDict hitems) ->
  Py.dict_get "PreToolUse" hitems = None ->
  hitems <> [] ->
  settled (JDict items).
Proof.
  intros Hh Hp Hne. unfold settled, stripped, strip_hooks, tidy.
  cbn [Py.contains_key Py.obind Py.getitem]. rewrite !dict_has_get, Hh.
  cbn [Py.contains_key Py.obind Py.getitem]. rewrite !dict_has_get, Hp.
  cbn [Py.obind Py.truth]. destruct hitems; [congruence|].
  split; reflexivity.
Qed.

Lemma tidy_settled (settings out : json) (changed changed' : bool) :
  tidy settings changed = Some (out, changed') ->
  stripped settings -> settled out.
Proof.
  intros H Hs.
  assert (Hsame : tidy settings false = Some (settings, false) ->
                  settled settings) by (intros Ht; split; assumption).
  unfold tidy in H, Hsame.
  destruct settings as [|b|n|s|l|items]; cbn in H; try discriminate.
  - destruct (contains "hooks" s) eqn:Hc; cbn in H; [discriminate|].
    injection H as <- <-. apply Hsame. cbn. rewrite Hc. reflexivity.
  - destruct (existsb _ l) eqn:Hc; cbn in H; [discriminate|].
    injection H as <- <-. apply Hsame. cbn. rewrite Hc. reflexivity.
  - cbn [Py.contains_key Py.obind Py.getitem] in Hsame.
    rewrite dict_has_get in H, Hsame.
    destruct (Py.dict_get "hooks" items) as [hooks|] eqn:Hh; cbn in H.
    2:{ injection H as <- <-. apply Hsame. reflexivity. }
    cbn [Py.obind] in Hsame.
    destruct hooks as [|b|n|s|hl|hitems]; cbn in H; try discriminate.
    + cbn [Py.contains_key Py.obind] in Hsame.
      destruct (contains "PreToolUse" s); cbn in H; [discriminate|].
      destruct s; cbn in H; injection H as <- <-.
      * apply deleted_hooks_settled.
      * apply Hsame. reflexivity.
    + cbn [Py.contains_key Py.obind] in Hsame.
      destruct (existsb _ hl); cbn in H; [discriminate|].
      destruct hl; cbn in H; injection H as <- <-.
      * apply deleted_hooks_settled.
      * apply Hsame. reflexivity.
    + cbn [Py.contains_key Py.obind Py.getitem] in Hsame.
      rewrite dict_has_get in H, Hsame.
      destruct (Py.dict_get "PreToolUse" hitems) as [pre|] eqn:Hp; cbn in H.
      * cbn [Py.obind] in Hsame.
        destruct (Py.truth pre) eqn:Ht; cbn in H.
        -- destruct hitems as [|i hitems']; [discriminate Hp|].
           cbn in H. injection H as <- <-. apply Hsame. reflexivity.
        -- destruct (Py.dict_del "PreToolUse" hitems) as [|i rest] eqn:Hd;
             cbn in H; injection H as <- <-.
           ++ apply deleted_hooks_settled.
           ++ apply (without_pre_settled _ (i :: rest)).
              ** apply dict_get_set_eq.
              ** rewrite <- Hd. apply dict_get_del_eq.
              ** discriminate.
      * destruct hitems as [|i hitems']; cbn in H; injection H as <- <-.
        -- apply deleted_hooks_settled.
        -- apply Hsame. reflexivity.
Qed.

End RemoveTwice.

(** X15.  What [remove_hooks] returns as the document to keep is settled:
    run on it again, [remove_hooks] returns the same document and reports
    no change, so a second uninstall never rewrites the settings. *)
Theorem remove_hooks_idempotent (py_str : json -> string)
  (settings out : json) (changed : bool) :
  Uninstall.remove_hooks_document py_str settings = Some (out, changed) ->
  Uninstall.remove_hooks_document py_str out = Some (out, false).
Proof.
  rewrite !remove_hooks_document_phases. intros H.
  destruct (strip_hooks py_str settings) as [[s1 c1]|] eqn:Hs;
    cbn [Py.obind] in H; [|discriminate].
  pose proof (strip_hooks_stripped _ _ _ _ Hs) as Hst.
  destruct (tidy_settled _ _ _ _ _ H Hst) as [Hs' Ht'].
  unfold stripped in Hs'. rewrite Hs'. cbn [Py.obind]. exact Ht'.
Qed.

Lemma remove_hooks_idempotent_witness :
  Uninstall.remove_hooks_document (fun _ => "") (settings_with [other_hook])
  = Some (settings_with [other_hook], false).
Proof.
  apply (remove_hooks_idempotent (fun _ => "")
           (settings_with [bare_entry; other_hook; docs_hook])
           (settings_with [other_hook]) true).
  reflexivity.
Defined.

(** ** Installing the hook, then uninstalling *)

Section RoundTrip.

Variable py_str : json -> string.

(** A well-formed group of another tool: a dict whose ["hooks"] value is a
    list in which no hook's command names [claude-code-docs]. *)
Definition foreign_group (entry : json) : Prop :=
  Py.is_dict_with "hooks" entry = true
  /\ exists sub_hooks,
       Py.get_or_empty_list "hooks" entry = JList sub_hooks
       /\ existsb (Uninstall.hook_names_tool py_str) sub_hooks = false.

(** Settings the tool has never touched and that hold no empty hook
    structure: no ["hooks"] key, or a non-empty ["hooks"] object that has
    no ["PreToolUse"] key or a non-empty list of foreign groups under
    it. *)
Definition pristine (items : list (string * json)) : Prop :=
  match Py.dict_get "hooks" items with
  | None => True
  | Some (JDict hitems) =>
      hitems <> []
      /\ match Py.dict_get "PreToolUse" hitems with
         | None => True
         | Some (JList entries) => entries <> [] /\ Forall foreign_group entries
         | Some _ => False
         end
  | Some _ => False
  end.

Lemma sub_hook_names_tool_weaker (sub_hook : json) :
  Install.sub_hook_names_tool sub_hook = true ->
  Uninstall.hook_names_tool py_str sub_hook = true.
Proof.
  unfold Install.sub_hook_names_tool, Uninstall.hook_names_tool.
  destruct sub_hook as [| | | | |items]; try discriminate.
  destruct (Py.dict_get "command" items) as [[| | |c| |]|]; auto; discriminate.
Qed.

Lemma foreign_clean_hooks (entries : list json) :
  Forall foreign_group entries -> Install.clean_hooks entries = Some entries.
Proof.
  induction 1 as [|e l [Hd [subs [Hs Hn]]] _ IH]; simpl; [reflexivity|].
  rewrite Hd, Hs, IH. cbn [Py.iterate Py.obind].
  assert (Hi : existsb Install.sub_hook_names_tool subs = false).
  { destruct (existsb Install.sub_hook_names_tool subs) eqn:Hx; [|reflexivity].
    apply existsb_exists in Hx as [x [Hin Hx]].
    apply sub_hook_names_tool_weaker in Hx.
    assert (existsb (Uninstall.hook_names_tool py_str) subs = true)
      by (apply existsb_exists; eauto).
    congruence. }
  rewrite Hi. reflexivity.
Qed.

Lemma foreign_filter_hooks (entries : list json) :
  Forall foreign_group entries ->
  Uninstall.filter_hooks py_str entries = entries.
Proof.
  induction 1 as [|e l [Hd [subs [Hs Hn]]] _ IH]; simpl; [reflexivity|].
  rewrite Hd, Hs, Hn, IH. reflexivity.
Qed.

Lemma filter_hooks_app (a b : list json) :
  Uninstall.filter_hooks py_str (a ++ b)
  = Uninstall.filter_hooks py_str a ++ Uninstall.filter_hooks py_str b.
Proof. rewrite !filter_hooks_filter. apply filter_app. Qed.

Variable hook_command : string.
Hypothesis command_names_tool : contains TOOL hook_command = true.

Lemma filter_hooks_new_hook :
  Uninstall.filter_hooks py_str [Install.new_hook hook_command] = [].
Proof. cbn. rewrite command_names_tool. reflexivity. Qed.

(** Uninstalling from the document the installer wrote for a list of
    foreign groups. *)
Lemma remove_after_setup (items hitems : list (string * json))
  (entries : list json) :
  Forall foreign_group entries ->
  Uninstall.remove_hooks_document py_str
    (JDict (Py.dict_set "hooks"
              (JDict (Py.dict_set "PreToolUse"
                        (JList (entries ++ [Install.new_hook hook_command]))
                        hitems))
              items))
  = tidy (JDict (Py.dict_set "hooks"
                   (JDict (Py.dict_set "PreToolUse" (JList entries) hitems))
                   items))
      true.
Proof.
  intros Hf. rewrite remove_hooks_document_phases. unfold strip_hooks.
  cbn [Py.contains_key Py.obind Py.getitem Py.setitem].
  rewrite !dict_has_get, !dict_get_set_eq.
  cbn [Py.contains_key Py.obind Py.getitem Py.setitem].
  rewrite !dict_has_get, !dict_get_set_eq. cbn [Py.obind].
  rewrite filter_hooks_app, (foreign_filter_hooks _ Hf), filter_hooks_new_hook.
  rewrite app_nil_r, length_app. cbn [length].
  replace (length entries =? length entries + 1)%nat with false
    by (symmetry; apply Nat.eqb_neq; lia).
  cbn [negb Py.obind]. rewrite !dict_set_set. reflexivity.
Qed.

End RoundTrip.

(** X16.  Installing the hook into pristine settings and then uninstalling
    gives the settings back: [setup_claude_hooks] succeeds, and
    [remove_hooks] on what it wrote returns the original document, marked
    as changed.  This is for a hook command that contains
    [claude-code-docs], and settings whose [PreToolUse] entries, if any, are
    well-formed groups of other tools. *)
Theorem install_then_uninstall_restores (py_str : json -> string)
  (hook_command : string) (items : list (string * json)) :
  contains TOOL hook_command = true ->
  pristine py_str items ->
  exists installed,
    Install.setup_claude_hooks_document hook_command (JDict items)
    = Some installed
    /\ Uninstall.remove_hooks_document py_str installed
       = Some (JDict items, true).
Proof.
  intros Hcmd Hp. unfold pristine in Hp.
  rewrite setup_hooks_document_result. unfold setup_result, hooks_of.
  destruct (Py.dict_get "hooks" items) as [hooks|] eqn:Hh.
  - destruct hooks as [| | | | |hitems]; try contradiction.
    destruct Hp as [Hne Hp].
    destruct (Py.dict_get "PreToolUse" hitems) as [pre|] eqn:Hpre.
    + destruct pre as [| | | |entries|]; try contradiction.
      destruct Hp as [Hne' Hf].
      cbn [Py.iterate Py.obind]. rewrite (foreign_clean_hooks _ _ Hf).
      cbn [Py.obind]. eexists; split; [reflexivity|].
      rewrite (remove_after_setup _ _ Hcmd _ _ _ Hf).
      rewrite (dict_set_same _ _ _ Hpre), (dict_set_same _ _ _ Hh).
      unfold tidy. cbn [Py.contains_key Py.obind Py.getitem].
      rewrite !dict_has_get, Hh. cbn [Py.contains_key Py.obind Py.getitem].
      rewrite !dict_has_get, Hpre. cbn [Py.obind Py.truth].
      destruct entries; [congruence|]. cbn [negb].
      destruct hitems; [congruence|]. reflexivity.
    + cbn [Py.obind Install.clean_hooks app]. eexists; split; [reflexivity|].
      rewrite (remove_after_setup _ _ Hcmd _ _ [] (Forall_nil _)).
      unfold tidy. cbn [Py.contains_key Py.obind Py.getitem].
      rewrite !dict_has_get, !dict_get_set_eq.
      cbn [Py.contains_key Py.obind Py.getitem].
      rewrite !dict_has_get, !dict_get_set_eq.
      cbn [Py.obind Py.truth negb Py.delitem Py.setitem].
      rewrite (dict_del_set_absent _ _ _ Hpre), dict_set_set.
      rewrite (dict_set_same _ _ _ Hh).
      destruct hitems; [congruence|]. reflexivity.
  - cbn [Py.dict_get Py.obind Install.clean_hooks app].
    eexists; split; [reflexivity|].
    rewrite (remove_after_setup _ _ Hcmd _ _ [] (Forall_nil _)).
    unfold tidy. cbn [Py.contains_key Py.obind Py.getitem].
    rewrite !dict_has_get, !dict_get_set_eq.
    cbn [Py.contains_key Py.obind Py.getitem].
    rewrite !dict_has_get, !dict_get_set_eq.
    cbn [Py.obind Py.truth negb Py.delitem Py.setitem].
    rewrite (dict_del_set_absent "PreToolUse" _ [] eq_refl), dict_set_set.
    cbn [Py.truth negb Py.obind].
    rewrite (dict_del_set_absent _ _ _ Hh). reflexivity.
Qed.

(** Settings with a model and another tool's hooks come back as they
    were. *)
Lemma install_then_uninstall_restores_witness :
  exists installed,
    Install.setup_claude_hooks_document (Install.hook_command target false)
      (settings_with [other_hook])
    = Some installed
    /\ Uninstall.remove_hooks_document (fun _ => "") installed
       = Some (settings_with [other_hook], true).
Proof.
  apply (install_then_uninstall_restores (fun _ => "")
           (Install.hook_command target false)).
  - reflexivity.
  - unfold pristine. cbn. split; [discriminate|]. split; [discriminate|].
    repeat constructor. exists [JDict [("type", JStr "command");
                                       ("command", JStr "prettier --write")]].
    split; reflexivity.
Defined.

(** An entry without the structure does not come back. *)
Example round_trip_loses_unstructured_entry :
  exists installed,
    Install.setup_claude_hooks_document (Install.hook_command target false)
      (settings_with [flat_entry; other_hook])
    = Some installed
    /\ Uninstall.remove_hooks_document (fun _ => "") installed
       = Some (settings_with [other_hook], true).
Proof. eexists; split; reflexivity. Qed.

(** ** The uninstaller undoes the installer's hook *)

Section ContainsFacts.

Lemma prefix_app_l (p a b : string) :
  String.prefix p a = true -> String.prefix p (a ^^ b) = true.
Proof.
  revert a; induction p as [|c p IH]; intros a;
    [intros _; destruct (a ^^ b); reflexivity|].
  destruct a as [|d a]; simpl; [discriminate|].
  destruct (ascii_dec c d); [apply IH|discriminate].
Qed.

Lemma contains_app_l (sub a b : string) :
  contains sub a = true -> contains sub (a ^^ b) = true.
Proof.
  induction a as [|c a IH]; cbn [contains append].
  - rewrite orb_false_r. destruct sub; [|discriminate].
    intros _. destruct b; reflexivity.
  - intros H. apply orb_true_iff in H as [H|H].
    + pose proof (prefix_app_l sub (String c a) b H) as Hp.
      cbn [append] in Hp. rewrite Hp. reflexivity.
    + rewrite (IH H). apply orb_true_r.
Qed.

Lemma contains_app_r (sub a b : string) :
  contains sub b = true -> contains sub (a ^^ b) = true.
Proof.
  intros H. induction a as [|c a IH]; cbn [contains append]; [exact H|].
  rewrite IH. apply orb_true_r.
Qed.

(** The text of a path that has a component containing [sub] contains
    [sub]. *)
Lemma str_path_contains (sub c : string) (p : path) :
  In c p -> contains sub c = true -> contains sub (str_path p) = true.
Proof.
  intros Hin Hc. unfold str_path.
  destruct p as [|c0 p0]; [destruct Hin|].
  revert Hin. generalize (c0 :: p0) as q. clear c0 p0.
  induction q as [|d q IH]; [intros []|].
  intros [->|Hin]; cbn [fold_right].
  - apply (contains_app_r sub "/"), contains_app_l, Hc.
  - apply (contains_app_r sub "/"), contains_app_r, IH, Hin.
Qed.

End ContainsFacts.

(** The hook command of an install directory named [.claude-code-docs]
    names the tool, on either platform flavour. *)
Lemma hook_command_names_tool (home_dir : path) (windows : bool) :
  contains TOOL
    (Install.hook_command (child home_dir ".claude-code-docs") windows)
  = true.
Proof.
  unfold Install.hook_command. apply contains_app_l.
  apply (str_path_contains TOOL ".claude-code-docs").
  - unfold child. rewrite !in_app_iff. simpl. tauto.
  - reflexivity.
Qed.

Section Undo.

Variable py_str : json -> string.

(** On a settings object whose ["hooks"] value is an object the second
    phase of [remove_hooks] always succeeds, and keeps a change
    recorded. *)
Lemma tidy_returns (items hitems : list (string * json)) :
  Py.dict_get "hooks" items = Some (JDict hitems) ->
  exists out, tidy (JDict items) true = Some (out, true).
Proof.
  intros Hh. unfold tidy. cbn [Py.contains_key Py.obind Py.getitem].
  rewrite !dict_has_get, Hh. cbn [Py.contains_key Py.obind Py.getitem].
  rewrite !dict_has_get.
  destruct (Py.dict_get "PreToolUse" hitems) as [pre|]; cbn [Py.obind].
  - destruct (Py.truth pre); cbn [negb Py.obind Py.delitem Py.setitem].
    + destruct (negb (Py.truth (JDict hitems))); cbn [Py.obind Py.delitem];
        eexists; reflexivity.
    + destruct (negb (Py.truth (JDict (Py.dict_del "PreToolUse" hitems))));
        cbn [Py.obind Py.delitem]; eexists; reflexivity.
  - destruct (negb (Py.truth (JDict hitems))); cbn [Py.obind Py.delitem];
      eexists; reflexivity.
Qed.

Lemma filter_hooks_shorter_with_tool (entries : list json) (e : json) :
  In e entries -> entry_names_tool py_str e = true ->
  (length (Uninstall.filter_hooks py_str entries) < length entries)%nat.
Proof.
  rewrite filter_hooks_filter.
  induction entries as [|x l IH]; simpl; [intros []|].
  intros [->|Hin] He.
  - rewrite He, andb_false_r. pose proof (filter_length_le
      (fun e => Py.is_dict_with "hooks" e && negb (entry_names_tool py_str e)) l).
    lia.
  - specialize (IH Hin He).
    destruct (Py.is_dict_with "hooks" x && negb (entry_names_tool py_str x));
      simpl; lia.
Qed.

Lemma new_hook_entry_names_tool (hook_command : string) :
  contains TOOL hook_command = true ->
  entry_names_tool py_str (Install.new_hook hook_command) = true.
Proof. intros H. cbn. rewrite H. reflexivity. Qed.

End Undo.

(** X17.  The uninstaller undoes what the installer registered.  Whatever
    the settings were, on the document [setup_claude_hooks] wrote for an
    install directory named [.claude-code-docs], [remove_hooks] succeeds,
    reports a change, and the document it keeps holds the new hook in no
    [PreToolUse] list (nor any other group naming the tool). *)
Theorem uninstall_removes_installed_hook (py_str : json -> string)
  (home_dir : path) (windows : bool) (settings installed : json) :
  Install.setup_claude_hooks_document
    (Install.hook_command (child home_dir ".claude-code-docs") windows)
    settings = Some installed ->
  exists out,
    Uninstall.remove_hooks_document py_str installed = Some (out, true)
    /\ free_of_tool py_str out
    /\ forall hooks entries,
         Py.getitem out "hooks" = Some hooks ->
         Py.getitem hooks "PreToolUse" = Some (JList entries) ->
         ~ In (Install.new_hook
                 (Install.hook_command (child home_dir ".claude-code-docs")
                    windows)) entries.
Proof.
  pose proof (hook_command_names_tool home_dir windows) as Hcmd.
  generalize dependent (Install.hook_command
                          (child home_dir ".claude-code-docs") windows).
  intros hook_command Hcmd Hrun.
  assert (Hout : exists out,
             Uninstall.remove_hooks_document py_str installed = Some (out, true)
             /\ free_of_tool py_str out).
  { destruct settings as [|b|n|s|l|items];
      try (cbn in Hrun;
           repeat match type of Hrun with
                  | context [if ?c then _ else _] => destruct c; cbn in Hrun
                  end; discriminate Hrun).
    rewrite setup_hooks_document_result in Hrun. unfold setup_result in Hrun.
    destruct (hooks_of items) as [[| | | | |hitems]|]; try discriminate.
    destruct (match Py.dict_get "PreToolUse" hitems with
              | Some o => Py.iterate o
              | None => Some []
              end) as [original|]; cbn [Py.obind] in Hrun; [|discriminate].
    destruct (Install.clean_hooks original) as [cleaned|];
      cbn [Py.obind] in Hrun; [|discriminate].
    injection Hrun as <-.
    rewrite remove_hooks_document_phases.
    destruct (strip_hooks py_str _) as [[s1 c1]|] eqn:Hs.
    2:{ exfalso. unfold strip_hooks in Hs.
        cbn [Py.contains_key Py.obind Py.getitem] in Hs.
        rewrite !dict_has_get, !dict_get_set_eq in Hs.
        cbn [Py.contains_key Py.obind Py.getitem] in Hs.
        rewrite !dict_has_get, !dict_get_set_eq in Hs. cbn [Py.obind] in Hs.
        destruct (negb _) in Hs; discriminate Hs. }
    cbn [Py.obind].
    destruct (strip_hooks_spec _ _ _ _ Hs) as [Hfree _].
    assert (Hs1 : c1 = true
                  /\ exists items1 hitems1,
                       s1 = JDict items1
                       /\ Py.dict_get "hooks" items1 = Some (JDict hitems1)).
    { unfold strip_hooks in Hs.
      cbn [Py.contains_key Py.obind Py.getitem] in Hs.
      rewrite !dict_has_get, !dict_get_set_eq in Hs.
      cbn [Py.contains_key Py.obind Py.getitem] in Hs.
      rewrite !dict_has_get, !dict_get_set_eq in Hs. cbn [Py.obind] in Hs.
      assert (Hlt : (length (Uninstall.filter_hooks py_str
                               (cleaned ++ [Install.new_hook hook_command]))
                     =? length (cleaned ++ [Install.new_hook hook_command]))%nat
                    = false).
      { apply Nat.eqb_neq.
        pose proof (filter_hooks_shorter_with_tool py_str
                      (cleaned ++ [Install.new_hook hook_command])
                      (Install.new_hook hook_command)) as Hlt.
        rewrite in_app_iff in Hlt.
        specialize (Hlt (or_intror (or_introl eq_refl))
                        (new_hook_entry_names_tool py_str _ Hcmd)).
        lia. }
      rewrite Hlt in Hs. cbn [negb Py.setitem Py.obind] in Hs.
      injection Hs as <- <-. split; [reflexivity|].
      do 2 eexists. split; [reflexivity|]. apply dict_get_set_eq. }
    destruct Hs1 as [-> [items1 [hitems1 [-> Hh1]]]].
    destruct (tidy_returns _ _ Hh1) as [out Hout].
    exists out. split; [exact Hout|].
    exact (proj1 (tidy_spec py_str _ _ _ _ Hout) Hfree). }
  destruct Hout as [out [Hout Hfree]].
  exists out. split; [exact Hout|]. split; [exact Hfree|].
  intros hooks entries Hg Hp Hin.
  destruct (Hfree hooks entries _ Hg Hp Hin) as [_ Hn].
  rewrite (new_hook_entry_names_tool py_str _ Hcmd) in Hn. discriminate.
Qed.

Lemma uninstall_removes_installed_hook_witness :
  exists out,
    Uninstall.remove_hooks_document (fun _ => "")
      (settings_with
         [bare_entry; other_hook;
          Install.new_hook
            (Install.hook_command (child home ".claude-code-docs") false)])
    = Some (out, true)
    /\ free_of_tool (fun _ => "") out
    /\ forall hooks entries,
         Py.getitem out "hooks" = Some hooks ->
         Py.getitem hooks "PreToolUse" = Some (JList entries) ->
         ~ In (Install.new_hook
                 (Install.hook_command (child home ".claude-code-docs") false))
              entries.
Proof.
  apply (uninstall_removes_installed_hook (fun _ => "") home false
           (settings_with [bare_entry; other_hook])).
  reflexivity.
Defined.

Example uninstall_after_install :
  exists installed,
    Install.setup_claude_hooks_document (Install.hook_command target false)
      (settings_with [bare_entry; other_hook]) = Some installed
    /\ Uninstall.remove_hooks_document (fun _ => "") installed
       = Some (settings_with [other_hook], true).
Proof. eexists; split; reflexivity. Qed.

(** ** The platform, the two directories and the git executable *)

(** What [_find_git_executable] asks of the system, in order: a lookup of
    a name with [where] or [which], a run of a candidate with
    [--version], the existence of a fallback path. *)
Inductive probe : Type :=
| Lookup (tool name : string)
| Version (executable : string)
| Exists (candidate : string).

(** The system's answers, each possibly depending on what was asked
    before; [None] when [subprocess.run] raises [TimeoutExpired] or
    [OSError]. *)
Record prober : Type := Prober
  { lookup_answer : string -> string -> list probe -> option completed;
    version_answer : string -> list probe -> option completed;
    exists_answer : string -> list probe -> bool }.

Module FindGit.

Section Search.

Variable P : prober.

(** The verification of a candidate: [[git_path, "--version"]] ran and
    exited with 0. *)
Definition verify (git_path : string) (h : list probe) : bool * list probe :=
  (match version_answer P git_path h with
   | Some test_result => (returncode test_result =? 0)%Z
   | None => false
   end,
   h ++ [Version git_path]).

(** The loop over [git_names]. *)
Fixpoint search_path (tool : string) (git_names : list string)
  (h : list probe) : option string * list probe :=
  match git_names with
  | [] => (None, h)
  | git_name :: rest =>
      let h1 := h ++ [Lookup tool git_name] in
      match lookup_answer P tool git_name h with
      | Some result =>
          if (returncode result =? 0)%Z && truthy (strip (stdout result)) then
            let git_path := hd "" (split newline (strip (stdout result))) in
            let '(ok, h2) := verify git_path h1 in
            if ok then (Some git_path, h2) else search_path tool rest h2
          else search_path tool rest h1
      | None => search_path tool rest h1
      end
  end.

Definition fallback_paths : list string :=
  ["C:\Program Files\Git\bin\git.exe";
   "C:\Program Files (x86)\Git\bin\git.exe";
   "C:\Git\bin\git.exe";
   "C:\msys64\usr\bin\git.exe";
   "C:\Program Files\Git\cmd\git.exe"].

(** The loop over [fallback_paths]. *)
Fixpoint search_fallbacks (paths : list string) (h : list probe)
  : option string * list probe :=
  match paths with
  | [] => (None, h)
  | path :: rest =>
      let h1 := h ++ [Exists path] in
      if exists_answer P path h then
        let '(ok, h2) := verify path h1 in
        if ok then (Some path, h2) else search_fallbacks rest h2
      else search_fallbacks rest h1
  end.

(** The search proper, common to both programs. *)
Definition search (os_type : string) (h : list probe)
  : option string * list probe :=
  let windows := String.eqb os_type "windows" in
  let git_names := "git" :: (if windows then ["git.exe"; "git.cmd"] else []) in
  match search_path (if windows then "where" else "which") git_names h with
  | (Some git_path, h1) => (Some git_path, h1)
  | (None, h1) => if windows then search_fallbacks fallback_paths h1
                  else (None, h1)
  end.

End Search.

End FindGit.



(** [CrossPlatformInstaller] *)
Module Installer.

Section Directories.

Variable Path : string -> path.
Variable path_home : path.
Variable environ : string -> option string.

(** [_detect_os()], given [platform.system()]. *)
Definition _detect_os (platform_system : string) : string :=
  let system := lower platform_system in
  if String.eqb system "windows" then "windows"
  else if String.eqb system "darwin" then "macos"
  else if String.eqb system "linux" then "linux"
  else "linux".

Definition _get_install_dir (os_type : string) : outcome path :=
  if String.eqb os_type "windows" then
    match environ "USERPROFILE" with
    | Some (String c s as user_profile) =>
        Ret (child (Path user_profile) ".claude-code-docs")
    | _ =>
        match environ "HOME" with
        | Some (String c s as home) =>
            Ret (child (Path home) ".claude-code-docs")
        | _ => Raise (Exn "RuntimeError"
                        "Could not determine user home directory on Windows")
        end
    end
  else
    match environ "HOME" with
    | Some (String c s as home) => Ret (child (Path home) ".claude-code-docs")
    | _ => Ret (child path_home ".claude-code-docs")
    end.

Definition _get_claude_dir (os_type : string) : outcome path :=
  if String.eqb os_type "windows" then
    match environ "USERPROFILE" with
    | Some (String c s as user_profile) =>
        Ret (child (Path user_profile) ".claude")
    | _ =>
        match environ "HOME" with
        | Some (String c s as home) => Ret (child (Path home) ".claude")
        | _ => Raise (Exn "RuntimeError"
                        "Could not determine user home directory on Windows")
        end
    end
  else
    match environ "HOME" with
    | Some (String c s as home) => Ret (child (Path home) ".claude")
    | _ => Ret (child path_home ".claude")
    end.

End Directories.

(** [_find_git_executable()]: the result, the new value of
    [self.git_executable] and the probes made. *)
Definition _find_git_executable (P : prober) (os_type : string)
  (git_executable : option string) (h : list probe)
  : option string * option string * list probe :=
  match git_executable with
  | Some (String _ _ as cached) => (Some cached, git_executable, h)
  | _ =>
      match FindGit.search P os_type h with
      | (Some git_path, h1) => (Some git_path, Some git_path, h1)
      | (None, h1) => (None, git_executable, h1)
      end
  end.

End Installer.

(** [CrossPlatformUninstaller] *)
Module Uninstaller.

Section Directories.

Variable Path : string -> path.
Variable path_home : path.
Variable environ : string -> option string.

Definition _detect_os (platform_system : string) : string :=
  let system := lower platform_system in
  if String.eqb system "windows" then "windows"
  else if String.eqb system "darwin" then "macos"
  else if String.eqb system "linux" then "linux"
  else "linux".

Definition _get_claude_dir (os_type : string) : outcome path :=
  if String.eqb os_type "windows" then
    match environ "USERPROFILE" with
    | Some (String c s as user_profile) =>
        Ret (child (Path user_profile) ".claude")
    | _ =>
        match environ "HOME" with
        | Some (String c s as home) => Ret (child (Path home) ".claude")
        | _ => Raise (Exn "RuntimeError"
                        "Could not determine user home directory on Windows")
        end
    end
  else
    match environ "HOME" with
    | Some (String c s as home) => Ret (child (Path home) ".claude")
    | _ => Ret (child path_home ".claude")
    end.

End Directories.

(** [_find_git_executable()], which keeps nothing between calls. *)
Definition _find_git_executable (P : prober) (os_type : string)
  (h : list probe) : option string * list probe :=
  FindGit.search P os_type h.

End Uninstaller.


(** *** The directories *)

(** The home directory both programs settle on. *)
Definition home_of (Path : string -> path) (path_home : path)
  (environ : string -> option string) (windows : bool) : option path :=
  let fallback := if windows then None else Some path_home in
  match (if windows then environ "USERPROFILE" else None) with
  | Some (String c s as user_profile) => Some (Path user_profile)
  | _ =>
      match environ "HOME" with
      | Some (String c s as home) => Some (Path home)
      | _ => fallback
      end
  end.

(** X18.  On every platform name and environment the installer and the
    uninstaller settle on the same home directory: when it can be
    determined, the installer's install directory is its
    [.claude-code-docs] child and the Claude directory of both programs is
    its [.claude] child; when it cannot (Windows with neither
    [USERPROFILE] nor [HOME] set to a non-empty value) all three raise. *)
Theorem directories_agree (Path : string -> path) (path_home : path)
  (environ : string -> option string) (platform_system : string) :
  let os_type := Installer._detect_os platform_system in
  Uninstaller._detect_os platform_system = os_type
  /\ match home_of Path path_home environ (String.eqb os_type "windows") with
     | Some base =>
         Installer._get_install_dir Path path_home environ os_type
         = Ret (child base ".claude-code-docs")
         /\ Installer._get_claude_dir Path path_home environ os_type
            = Ret (child base ".claude")
         /\ Uninstaller._get_claude_dir Path path_home environ os_type
            = Ret (child base ".claude")
     | None =>
         String.eqb (lower platform_system) "windows" = true
         /\ (exists e, Installer._get_install_dir Path path_home environ os_type
                       = Raise e)
         /\ (exists e, Installer._get_claude_dir Path path_home environ os_type
                       = Raise e)
         /\ (exists e, Uninstaller._get_claude_dir Path path_home environ os_type
                       = Raise e)
     end.
Proof.
  cbv zeta. split; [reflexivity|].
  unfold home_of, Installer._get_install_dir, Installer._get_claude_dir,
    Uninstaller._get_claude_dir, Installer._detect_os.
  cbv zeta.
  destruct (String.eqb (lower platform_system) "windows") eqn:Hw.
  - change (String.eqb "windows" "windows") with true. cbv iota.
    destruct (environ "USERPROFILE") as [[|c s]|];
      destruct (environ "HOME") as [[|c' s']|];
      repeat split; try reflexivity; eexists; reflexivity.
  - assert (Hos : String.eqb
                    (if String.eqb (lower platform_system) "darwin" then "macos"
                     else if String.eqb (lower platform_system) "linux"
                          then "linux" else "linux") "windows" = false).
    { destruct (String.eqb (lower platform_system) "darwin"); [reflexivity|].
      destruct (String.eqb (lower platform_system) "linux"); reflexivity. }
    rewrite Hos.
    destruct (environ "HOME") as [[|c' s']|]; repeat split.
Qed.

Example windows_without_home_fails :
  exists e,
    Installer._get_install_dir (fun _ => []) [] (fun _ => None)
      (Installer._detect_os "Windows") = Raise e.
Proof. eexists; reflexivity. Qed.

Example linux_uses_home :
  Installer._get_install_dir (fun _ => home) [] 
    (fun name => if String.eqb name "HOME" then Some "/home/user" else None)
    (Installer._detect_os "Linux") = Ret target.
Proof. reflexivity. Qed.

(** *** Finding the git executable *)

Section FindGitFacts.

Variable P : prober.

(** The executable was found by a verification that succeeded at the very
    end of the probes. *)
Definition just_verified (git_path : string) (h h' : list probe) : Prop :=
  git_path <> ""
  /\ exists between r,
       h' = (h ++ between) ++ [Version git_path]
       /\ version_answer P git_path (h ++ between) = Some r
       /\ returncode r = 0%Z.

Lemma just_verified_later (git_path : string) (h h1 h' : list probe)
  (more : list probe) :
  h1 = h ++ more -> just_verified git_path h1 h' -> just_verified git_path h h'.
Proof.
  intros -> [Hne [between [r [Hh [Hv Hr]]]]]. split; [exact Hne|].
  exists (more ++ between), r. rewrite app_assoc. auto.
Qed.

Lemma verify_true (git_path : string) (h h' : list probe) :
  FindGit.verify P git_path h = (true, h') ->
  git_path <> "" -> just_verified git_path h h'.
Proof.
  unfold FindGit.verify. intros H Hne. injection H as Hv <-.
  split; [exact Hne|]. destruct (version_answer P git_path h) as [r|] eqn:Hr;
    [|discriminate].
  exists [], r. rewrite app_nil_r. repeat split; auto.
  apply Z.eqb_eq; exact Hv.
Qed.

Lemma verify_history (git_path : string) (h : list probe) :
  snd (FindGit.verify P git_path h) = h ++ [Version git_path].
Proof. reflexivity. Qed.

(** The first line of a stripped text that is not empty is not empty. *)
Lemma first_line_not_empty (s : string) :
  truthy (strip s) = true -> hd "" (split newline (strip s)) <> "".
Proof.
  unfold strip. intros H.
  assert (Hhead : forall t, truthy t = true ->
                            (forall c r, t = String c r -> isspace c = false) ->
                            hd "" (split newline t) <> "").
  { intros t Ht Hc. destruct t as [|c r]; [discriminate|].
    specialize (Hc c r eq_refl). simpl.
    destruct (Ascii.eqb c newline) eqn:Hn.
    - apply Ascii.eqb_eq in Hn; subst c. discriminate Hc.
    - destruct (split newline r); discriminate. }
  apply Hhead; [exact H|].
  intros c r Heq.
  assert (Hl : forall u c r, lstrip u = String c r -> isspace c = false).
  { induction u as [|d u IH]; simpl; [discriminate|].
    intros c0 r0. destruct (isspace d) eqn:Hd; [apply IH|].
    intros Hu; injection Hu as <- _; exact Hd. }
  assert (Hr : forall u c r, rstrip u = String c r ->
                             exists r', u = String c r').
  { intros u; destruct u as [|d u]; simpl; [discriminate|].
    intros c0 r0. destruct (rstrip u).
    - destruct (isspace d); [discriminate|].
      intros Hu; injection Hu as <- _; eauto.
    - intros Hu; injection Hu as <- _; eauto. }
  destruct (Hr _ _ _ Heq) as [r' Hr']. exact (Hl _ _ _ Hr').
Qed.

Lemma search_path_found (tool : string) (git_names : list string)
  (h h' : list probe) (git_path : string) :
  FindGit.search_path P tool git_names h = (Some git_path, h') ->
  just_verified git_path h h'.
Proof.
  revert h; induction git_names as [|n rest IH];
    cbn [FindGit.search_path]; intros h; [discriminate|].
  cbv zeta.
  destruct (lookup_answer P tool n h) as [result|].
  - destruct ((returncode result =? 0)%Z && truthy (strip (stdout result)))
      eqn:Hok.
    + apply andb_true_iff in Hok as [_ Ht].
      destruct (FindGit.verify P _ (h ++ [Lookup tool n])) as [ok h2] eqn:Hv.
      destruct ok.
      * intros H; injection H as <- <-.
        eapply just_verified_later; [reflexivity|].
        apply verify_true; [exact Hv|]. apply first_line_not_empty, Ht.
      * intros H. apply IH in H.
        pose proof (verify_history
                      (hd "" (split newline (strip (stdout result))))
                      (h ++ [Lookup tool n])) as Hh.
        rewrite Hv in Hh; simpl in Hh.
        eapply just_verified_later; [|exact H].
        rewrite Hh, <- app_assoc. reflexivity.
    + intros H. apply IH in H.
      eapply just_verified_later; [reflexivity|exact H].
  - intros H. apply IH in H.
    eapply just_verified_later; [reflexivity|exact H].
Qed.

Lemma search_fallbacks_found (paths : list string) (h h' : list probe)
  (git_path : string) :
  Forall (fun p => p <> "") paths ->
  FindGit.search_fallbacks P paths h = (Some git_path, h') ->
  just_verified git_path h h'.
Proof.
  intros Hne. revert h; induction Hne as [|p rest Hp _ IH];
    cbn [FindGit.search_fallbacks]; intros h; [discriminate|].
  cbv zeta.
  destruct (exists_answer P p h).
  - destruct (FindGit.verify P p (h ++ [Exists p])) as [ok h2] eqn:Hv.
    destruct ok.
    + intros H; injection H as <- <-.
      eapply just_verified_later; [reflexivity|].
      apply verify_true; [exact Hv|exact Hp].
    + intros H. apply IH in H.
      pose proof (verify_history p (h ++ [Exists p])) as Hh.
      rewrite Hv in Hh; simpl in Hh.
      eapply just_verified_later; [|exact H].
      rewrite Hh, <- app_assoc. reflexivity.
  - intros H. apply IH in H.
    eapply just_verified_later; [reflexivity|exact H].
Qed.

Lemma search_path_history (tool : string) (git_names : list string)
  (h : list probe) :
  exists more, snd (FindGit.search_path P tool git_names h) = h ++ more.
Proof.
  revert h; induction git_names as [|n rest IH]; simpl; intros h.
  - exists []; rewrite app_nil_r; reflexivity.
  - destruct (lookup_answer P tool n h) as [result|].
    + destruct ((returncode result =? 0)%Z && truthy (strip (stdout result))).
      * unfold FindGit.verify.
        destruct (match version_answer P _ _ with
                  | Some t => (returncode t =? 0)%Z
                  | None => false
                  end).
        -- simpl. eexists. rewrite <- app_assoc. reflexivity.
        -- destruct (IH ((h ++ [Lookup tool n])
                         ++ [Version (hd "" (split newline
                                               (strip (stdout result))))]))
             as [more Hm].
           rewrite Hm. eexists. rewrite <- !app_assoc. reflexivity.
      * destruct (IH (h ++ [Lookup tool n])) as [more Hm].
        rewrite Hm. eexists. rewrite <- !app_assoc. reflexivity.
    + destruct (IH (h ++ [Lookup tool n])) as [more Hm].
      rewrite Hm. eexists. rewrite <- !app_assoc. reflexivity.
Qed.

Lemma search_found (os_type : string) (h h' : list probe)
  (git_path : string) :
  FindGit.search P os_type h = (Some git_path, h') ->
  just_verified git_path h h'.
Proof.
  unfold FindGit.search. cbv zeta.
  destruct (FindGit.search_path P _ _ h) as [[p|] h1] eqn:Hs.
  - intros H; injection H as <- <-. eapply search_path_found; exact Hs.
  - destruct (String.eqb os_type "windows"); [|discriminate].
    intros H. apply search_fallbacks_found in H.
    + destruct (search_path_history "where" ["git"; "git.exe"; "git.cmd"] h)
        as [more Hm].
      rewrite Hs in Hm; simpl in Hm.
      eapply just_verified_later; [exact Hm|exact H].
    + unfold FindGit.fallback_paths. repeat constructor; discriminate.
Qed.

End FindGitFacts.

(** X19.  A path [_find_git_executable] returns on a first call has just
    been verified: it is not empty and the last thing the search did was to
    run it with [--version], which exited with 0 (in the installer and in
    the uninstaller alike).  The installer remembers it: every later call
    returns the same path and asks nothing of the system. *)
Theorem found_git_was_verified (P : prober) (os_type : string)
  (h h' : list probe) (git_path : string) (cache : option string) :
  Installer._find_git_executable P os_type None h
    = (Some git_path, cache, h') ->
  just_verified P git_path h h'
  /\ Uninstaller._find_git_executable P os_type h = (Some git_path, h')
  /\ forall later,
       Installer._find_git_executable P os_type cache later
       = (Some git_path, cache, later).
Proof.
  unfold Installer._find_git_executable,
    Uninstaller._find_git_executable.
  destruct (FindGit.search P os_type h) as [[p|] h1] eqn:Hs; [|discriminate].
  intros H; injection H as <- <- <-.
  pose proof (search_found P _ _ _ _ Hs) as Hv.
  split; [exact Hv|]. split; [reflexivity|].
  intros later. destruct Hv as [Hne _].
  destruct p; [congruence|reflexivity].
Qed.

(** On Linux [which git] prints a path whose [--version] exits with 0. *)
Definition linux_prober : prober :=
  Prober
    (fun tool name _ =>
       if String.eqb tool "which" && String.eqb name "git"
       then Some (Completed 0 ("/usr/bin/git" ^^ String newline "") "")
       else Some (Completed 1 "" ""))
    (fun executable _ =>
       if String.eqb executable "/usr/bin/git"
       then Some (Completed 0 "git version 2.43.0" "")
       else None)
    (fun _ _ => false).

Lemma found_git_was_verified_witness :
  just_verified linux_prober "/usr/bin/git" []
    [Lookup "which" "git"; Version "/usr/bin/git"]
  /\ Uninstaller._find_git_executable linux_prober "linux" []
     = (Some "/usr/bin/git", [Lookup "which" "git"; Version "/usr/bin/git"])
  /\ forall later,
       Installer._find_git_executable linux_prober "linux"
         (Some "/usr/bin/git") later
       = (Some "/usr/bin/git", Some "/usr/bin/git", later).
Proof.
  apply (found_git_was_verified linux_prober "linux" []
           [Lookup "which" "git"; Version "/usr/bin/git"] "/usr/bin/git"
           (Some "/usr/bin/git")).
  reflexivity.
Defined.

(** On Windows, with git absent from the search path, the second fallback
    path is found after the first failed its verification. *)
Definition windows_prober : prober :=
  Prober
    (fun _ _ _ => Some (Completed 1 "" "INFO: Could not find files"))
    (fun executable _ =>
       if String.eqb executable "C:\Program Files (x86)\Git\bin\git.exe"
       then Some (Completed 0 "git version 2.43.0.windows.1" "")
       else None)
    (fun candidate _ =>
       String.eqb candidate "C:\Program Files\Git\bin\git.exe"
       || String.eqb candidate "C:\Program Files (x86)\Git\bin\git.exe").

Example windows_fallback_found :
  Installer._find_git_executable windows_prober "windows" None []
  = (Some "C:\Program Files (x86)\Git\bin\git.exe",
     Some "C:\Program Files (x86)\Git\bin\git.exe",
     [Lookup "where" "git"; Lookup "where" "git.exe"; Lookup "where" "git.cmd";
      Exists "C:\Program Files\Git\bin\git.exe";
      Version "C:\Program Files\Git\bin\git.exe";
      Exists "C:\Program Files (x86)\Git\bin\git.exe";
      Version "C:\Program Files (x86)\Git\bin\git.exe"]).
Proof. reflexivity. Qed.

(** ** The uninstaller's confirmation *)

Module UninstallRun.

Definition UNINSTALLER_VERSION : string := "0.4.0".

Section Run.

Variable E : environment.

(** [remove_command_file()] and [remove_hooks()], which work on files of
    the Claude directory. *)
Variables remove_command_file remove_hooks : M bool.

(** [self.os_type == "windows"] *)
Variable windows : bool.

Definition not_empty {A} (l : list A) : bool :=
  match l with [] => false | _ :: _ => true end.

(** [uninstall()], given the result of [find_installations()]. *)
Definition uninstall (installations : list path) : M bool :=
  print ("Claude Code Docs Cross-Platform Uninstaller v" ^^ UNINSTALLER_VERSION) ;;;
  print "============================================================" ;;;
  print "" ;;;
  Install.when (not_empty installations)
    (print "Found installations at:" ;;;
     Install.for_each installations
       (fun path => print ("  [DIR] " ^^ str_path path)) ;;;
     print "") ;;;
  print "This will remove:" ;;;
  print "  - The /docs command from ~/.claude/commands/docs.md" ;;;
  print "  - All claude-code-docs hooks from ~/.claude/settings.json" ;;;
  Install.when (not_empty installations)
    (print "  - Installation directories (if safe to remove)") ;;;
  print "" ;;;
  confirmed <- try (response <- input E "Continue? (y/N): " ;;
                    let response := lower (strip response) in
                    if negb (String.eqb response "y" || String.eqb response "yes")
                    then print "Cancelled." ;;; ret false
                    else ret true)
                   (fun _ => print (String newline "Cancelled.") ;;; ret false) ;;
  if negb confirmed then ret false
  else
    removed <- remove_command_file ;;
    if negb removed then ret false
    else
      removed <- remove_hooks ;;
      if negb removed then ret false
      else
        removed <- Uninstall.remove_directories E windows installations ;;
        if negb removed then ret false
        else
          print "" ;;;
          print "[SUCCESS] Uninstall complete!" ;;;
          print "" ;;;
          print "To reinstall:" ;;;
          (if windows
           then print "curl -o install.py https://raw.githubusercontent.com/mccloudmedia/claude-code-docs/main/install.py; python install.py"
           else print "curl -o install.py https://raw.githubusercontent.com/mccloudmedia/claude-code-docs/main/install.py && python3 install.py") ;;;
          ret true.

End Run.

End UninstallRun.

(** An event that only talks to the operator. *)
Definition talks (e : event) : bool :=
  match e with Print _ | Input _ => true | _ => false end.

(** Between two worlds nothing happened but output and prompts. *)
Definition only_talk (w w' : world) : Prop :=
  fs w' = fs w /\ cwd w' = cwd w
  /\ exists es, trace w' = trace w ++ es /\ Forall (fun e => talks e = true) es.

Section OnlyTalk.

Lemma only_talk_refl (w : world) : only_talk w w.
Proof. repeat split. exists []; rewrite app_nil_r; auto. Qed.

Lemma only_talk_trans (w1 w2 w3 : world) :
  only_talk w1 w2 -> only_talk w2 w3 -> only_talk w1 w3.
Proof.
  intros [F1 [C1 [es1 [H1 A1]]]] [F2 [C2 [es2 [H2 A2]]]].
  split; [congruence|]. split; [congruence|].
  exists (es1 ++ es2); split.
  - rewrite H2, H1, app_assoc; reflexivity.
  - apply Forall_app; auto.
Qed.

Lemma only_talk_snoc (w0 w : world) (e : event) :
  only_talk w0 w -> talks e = true -> only_talk w0 (after w [e]).
Proof.
  intros H He. eapply only_talk_trans; [exact H|].
  repeat split. exists [e]; auto.
Qed.

Lemma only_talk_print (line : string) : respects only_talk (print line).
Proof. intros w. repeat split. exists [Print line]; auto. Qed.

Lemma for_each_print_run {A} (f : A -> string) (xs : list A) (w : world) :
  Install.for_each xs (fun x => print (f x)) w
  = (Ret tt, after w (map (fun x => Print (f x)) xs)).
Proof.
  revert w; induction xs as [|x xs IH]; intros w.
  - unfold after; simpl. rewrite app_nil_r. destruct w; reflexivity.
  - cbn [Install.for_each map]. unfold bind, print, emit. cbn [fst snd].
    rewrite IH. unfold after; simpl. rewrite <- app_assoc. reflexivity.
Qed.

Lemma only_talk_prints {A} (f : A -> string) (xs : list A) (w0 w : world) :
  only_talk w0 w -> only_talk w0 (after w (map (fun x => Print (f x)) xs)).
Proof.
  intros H. eapply only_talk_trans; [exact H|].
  repeat split. eexists; split; [reflexivity|].
  induction xs; simpl; auto.
Qed.

End OnlyTalk.

(** A step of symbolic execution that decides a literal condition instead
    of opening a case on it. *)
Ltac wp_literal :=
  lazymatch goal with
  | |- wp (if negb true then _ else _) _ _ => cbn [negb]; cbv iota
  | |- wp (if negb false then _ else _) _ _ => cbn [negb]; cbv iota
  end.

(** X20.  Nothing is removed without confirmation.  If the operator does
    not answer [y] or [yes] (any other answer, end of input, an interrupt),
    [uninstall] returns [False] having done nothing but print and prompt:
    the command file and the hooks are not touched, no directory is
    examined or removed, whatever installations were found. *)
Theorem uninstall_needs_confirmation (E : environment)
  (remove_command_file remove_hooks : M bool) (windows : bool)
  (installations : list path) (w : world) :
  (forall prompt w', declines (input_answer E prompt w')) ->
  let r := UninstallRun.uninstall E remove_command_file remove_hooks windows
             installations w in
  fst r = Ret false
  /\ only_talk w (snd r)
  /\ In (Input "Continue? (y/N): ") (trace (snd r)).
Proof.
  intros Hdecl. cbv zeta.
  change (wp (UninstallRun.uninstall E remove_command_file remove_hooks
                windows installations)
            (fun o w' => o = Ret false
                         /\ only_talk w w'
                         /\ In (Input "Continue? (y/N): ") (trace w')) w).
  unfold UninstallRun.uninstall.
  repeat first
    [ lazymatch goal with
      | |- wp (Install.for_each _ _) _ _ =>
          apply wp_run; intros ? ? Hrun; rewrite for_each_print_run in Hrun;
          injection Hrun as <- <-; cbv beta iota
      | |- wp (input _ _) _ ?x =>
          apply wp_input;
          [ intros _ ?
          | let s := fresh "s" in
            let Hs := fresh "Hs" in
            intros s Hs; pose proof (Hdecl "Continue? (y/N): " x) as Hd;
            rewrite Hs in Hd; destruct Hd as [Hy Hyes];
            apply String.eqb_neq in Hy, Hyes; cbv beta iota zeta;
            rewrite Hy, Hyes; cbn [orb negb] ]
      end
    | wp_literal
    | wp_step ].
  all: split; [reflexivity|]; split.
  all: try (repeat first [ apply only_talk_refl
                         | apply only_talk_snoc; [|reflexivity]
                         | apply only_talk_prints ]).
  all: rewrite ?trace_after; apply in_or_app; left;
    apply in_or_app; right; left; reflexivity.
Qed.

(** Installations were found, the operator answers [n]: they stay. *)
Lemma uninstall_needs_confirmation_witness :
  let r := UninstallRun.uninstall (status_env 0 "" (Some "n"))
             (ret true) (ret true) false [old_install] old_world in
  fst r = Ret false
  /\ only_talk old_world (snd r)
  /\ In (Input "Continue? (y/N): ") (trace (snd r)).
Proof.
  apply (uninstall_needs_confirmation (status_env 0 "" (Some "n"))
           (ret true) (ret true) false [old_install] old_world).
  intros prompt w'; simpl; split; discriminate.
Defined.

(** With the answer [y] and the two file steps done, the clean old
    installation is removed. *)
Example uninstall_confirmed :
  let r := UninstallRun.uninstall (status_env 0 "" (Some "y"))
             (ret true) (ret true) false [old_install] old_world in
  fst r = Ret true /\ fs (snd r) old_install = None.
Proof. cbv zeta; split; reflexivity. Qed.

(** ** Regular expressions, as the scanner uses them *)

(** The fragment of Python's [re] patterns the scanner is written in:
    literal characters, character classes, a greedy star over a class,
    sequences, capturing groups, an optional group and the end anchor.
    Matching is by backtracking, as in [re]: a star first takes all it can,
    an optional group is first tried, and the first way that lets the rest
    of the pattern match is the result. *)
Module Re.

Inductive regex : Type :=
| Eps
| Chr (c : ascii)
| Any (p : ascii -> bool)
| Star (p : ascii -> bool)
| Seq (a b : regex)
| Group (n : nat) (a : regex)
| Opt (a : regex)
| Eol.

(** [s[:n]] *)
Fixpoint take (n : nat) (s : string) : string :=
  match n, s with
  | O, _ => EmptyString
  | S _, EmptyString => EmptyString
  | S n', String c s' => String c (take n' s')
  end.

(** The text of each group that took part in the match. *)
Definition captures := list (nat * string).

Fixpoint group (n : nat) (cs : captures) : option string :=
  match cs with
  | [] => None
  | (k, s) :: rest => if Nat.eqb n k then Some s else group n rest
  end.

Section Matching.

Variable R : Type.

Fixpoint star (p : ascii -> bool) (s : string) (k : string -> option R)
  : option R :=
  match s with
  | EmptyString => k EmptyString
  | String c s' =>
      if p c then
        match star p s' k with
        | Some x => Some x
        | None => k s
        end
      else k s
  end.

(** [run r s cs k]: match [r] at the head of [s], then go on with [k] on
    what is left. *)
Fixpoint run (r : regex) (s : string) (cs : captures)
  (k : string -> captures -> option R) : option R :=
  match r with
  | Eps => k s cs
  | Chr c =>
      match s with
      | String d s' => if Ascii.eqb c d then k s' cs else None
      | EmptyString => None
      end
  | Any p =>
      match s with
      | String d s' => if p d then k s' cs else None
      | EmptyString => None
      end
  | Star p => star p s (fun s' => k s' cs)
  | Seq a b => run a s cs (fun s' cs' => run b s' cs' k)
  | Group n a =>
      run a s cs
        (fun s' cs' => k s' ((n, take (String.length s - String.length s') s) :: cs'))
  | Opt a =>
      match run a s cs k with
      | Some x => Some x
      | None => k s cs
      end
  | Eol =>
      match s with
      | EmptyString => k s cs
      | String c EmptyString => if Ascii.eqb c newline then k s cs else None
      | _ => None
      end
  end.

End Matching.

(** A literal text. *)
Fixpoint lit (s : string) : regex :=
  match s with
  | EmptyString => Eps
  | String c s' => Seq (Chr c) (lit s')
  end.

(** [c+] *)
Definition plus (p : ascii -> bool) : regex := Seq (Any p) (Star p).

(** [re.match(r, s)]: the groups and what follows the match. *)
Definition match_ (r : regex) (s : string) : option (captures * string) :=
  run _ r s [] (fun rest cs => Some (cs, rest)).

(** [re.search(r, s)]: the leftmost match. *)
Fixpoint search (r : regex) (s : string) : option (captures * string) :=
  match match_ r s with
  | Some m => Some m
  | None =>
      match s with
      | EmptyString => None
      | String _ s' => search r s'
      end
  end.

(** [re.findall(r, s)] for a pattern without groups that matches no empty
    text: the matches from left to right, each search starting where the
    previous match ended.  [skip] counts the characters of the current
    match still to pass. *)
Fixpoint findall_from (r : regex) (s : string) (skip : nat) : list string :=
  match s with
  | EmptyString => []
  | String _ s' =>
      match skip with
      | S skip' => findall_from r s' skip'
      | O =>
          match match_ r s with
          | Some (_, rest) =>
              match String.length s - String.length rest with
              | S n => take (S n) s :: findall_from r s' n
              | O => findall_from r s' 0
              end
          | None => findall_from r s' 0
          end
      end
  end.

Definition findall (r : regex) (s : string) : list string :=
  findall_from r s 0.

End Re.

(** The scanner's patterns. *)
Module Pattern.

Import Re.

Definition space : ascii := " "%char.
Definition quote : ascii := ascii_of_nat 34.

(** [.] *)
Definition dot (c : ascii) : bool := negb (Ascii.eqb c newline).
(** [[^\s]] *)
Definition not_space (c : ascii) : bool := negb (isspace c).
(** A character other than a space and a double quote. *)
Definition plain (c : ascii) : bool :=
  negb (Ascii.eqb c space) && negb (Ascii.eqb c quote).
(** A character other than a double quote. *)
Definition unquoted (c : ascii) : bool := negb (Ascii.eqb c quote).

(** [LOCAL\s+DOCS\s+AT:\s+([^\s]+)/docs/] *)
Definition v01 : regex :=
  Seq (lit "LOCAL") (Seq (plus isspace) (Seq (lit "DOCS") (Seq (plus isspace)
    (Seq (lit "AT:") (Seq (plus isspace)
      (Seq (Group 1 (plus not_space)) (lit "/docs/"))))))).

(** [Execute:.*claude-code-docs] *)
Definition execute : regex :=
  Seq (lit "Execute:") (Seq (Star dot) (lit TOOL)).

(** A run of plain characters around the tool's name. *)
Definition simple_path : regex :=
  Seq (Star plain) (Seq (lit TOOL) (Star plain)).

(** The tool's name between two double quotes, with no quote between. *)
Definition quoted_path : regex :=
  Seq (Chr quote) (Seq (Star unquoted) (Seq (lit TOOL)
    (Seq (Star unquoted) (Chr quote)))).

(** Group 1: anything, then a slash and the tool's name; then,
    optionally, a slash and anything; then the end. *)
Definition directory : regex :=
  Seq (Group 1 (Seq (Star dot) (lit ("/" ^^ TOOL))))
    (Seq (Opt (Group 2 (Seq (Chr "/") (Star dot)))) Eol).

End Pattern.

(** ** Paths as [pathlib] reads them *)

(** A [PurePosixPath]: the root (empty for a relative path, one slash, or
    the two leading slashes that POSIX sets apart) and the components. *)
Record ppath : Type := PPath { root : string; parts : list string }.

Module PosixPath.

Definition slash : ascii := "/"%char.

(** [Path(s)]: empty components and single dots are dropped. *)
Definition Path (s : string) : ppath :=
  PPath (match s with
         | String a (String b (String c _)) =>
             if Ascii.eqb a slash then
               if Ascii.eqb b slash && negb (Ascii.eqb c slash) then "//"
               else "/"
             else ""
         | String a (String b EmptyString) =>
             if Ascii.eqb a slash then
               if Ascii.eqb b slash then "//" else "/"
             else ""
         | String a EmptyString => if Ascii.eqb a slash then "/" else ""
         | EmptyString => ""
         end)
        (filter (fun c => negb (String.eqb c "" || String.eqb c "."))
                (split slash s)).

(** [p.parent] *)
Definition parent (p : ppath) : ppath := PPath (root p) (removelast (parts p)).

(** [p.name] *)
Definition name (p : ppath) : string := last (parts p) "".

End PosixPath.

(** ** The scanner ([find_existing_installations], [find_installations]) *)

Module Scanner.

Import Re.

Section Scan.

(** [str(Path.home())] *)
Variable home_str : string.

(** [p.is_dir()] at the time of the scan. *)
Variable is_dir : ppath -> bool.

(** The replacement of a leading tilde. *)
Definition expand_user (path_str : string) : string :=
  if startswith "~" path_str then home_str ^^ drop 1 path_str else path_str.

(** What one line of the command file contributes. *)
Definition command_line_paths (raw : string) : list ppath :=
  let line := strip raw in
  (match search Pattern.v01 line with
   | Some (cs, _) =>
       match group 1 cs with
       | Some path_str =>
           let path := PosixPath.Path (expand_user path_str) in
           if is_dir path then [path] else []
       | None => []
       end
   | None => []
   end)
  ++
  (match search Pattern.execute line with
   | Some _ =>
       match findall Pattern.simple_path line with
       | path_str :: _ =>
           let path := PosixPath.Path (expand_user path_str) in
           if is_dir path then [path]
           else if is_dir (PosixPath.parent path)
                   && String.eqb (PosixPath.name (PosixPath.parent path)) TOOL
                then [PosixPath.parent path]
                else []
       | [] => []
       end
   | None => []
   end).

(** The scan of [commands/docs.md], given the text read from it (in text
    mode, so with every line ending a newline) when the file exists. *)
Definition command_file_paths (text : option string) : list ppath :=
  match text with
  | Some t => flat_map command_line_paths (split newline t)
  | None => []
  end.

(** [s.strip(c)] for one character [c]. *)
Fixpoint lstrip_char (c : ascii) (s : string) : string :=
  match s with
  | EmptyString => EmptyString
  | String d s' => if Ascii.eqb d c then lstrip_char c s' else s
  end.

Fixpoint rstrip_char (c : ascii) (s : string) : string :=
  match s with
  | EmptyString => EmptyString
  | String d s' =>
      match rstrip_char c s' with
      | EmptyString => if Ascii.eqb d c then EmptyString else String d EmptyString
      | r => String d r
      end
  end.

Definition strip_char (c : ascii) (s : string) : string :=
  rstrip_char c (lstrip_char c s).

(** What one hook command contributes: first the quoted paths, then the
    plain ones. *)
Definition command_paths (cmd : string) : list ppath :=
  flat_map
    (fun quoted_path =>
       let path_str := strip_char Pattern.quote quoted_path in
       if negb (truthy path_str) then []
       else
         match match_ Pattern.directory path_str with
         | Some (cs, _) =>
             match group 1 cs with
             | Some path_str =>
                 let path := PosixPath.Path (expand_user path_str) in
                 if is_dir path then [path] else []
             | None => []
             end
         | None => []
         end)
    (findall Pattern.quoted_path cmd)
  ++
  flat_map
    (fun path_str =>
       if negb (truthy path_str) then []
       else
         let path_str := expand_user path_str in
         let path_str :=
           match match_ Pattern.directory path_str with
           | Some (cs, _) =>
               match group 1 cs with
               | Some dir => dir
               | None => path_str
               end
           | None => path_str
           end in
         let path := PosixPath.Path path_str in
         if is_dir path then [path] else [])
    (findall Pattern.simple_path cmd).

Definition sub_hook_paths (sub_hook : json) : list ppath :=
  match sub_hook with
  | JDict items =>
      match Py.dict_get "command" items with
      | Some (JStr cmd) => if contains TOOL cmd then command_paths cmd else []
      | _ => []
      end
  | _ => []
  end.

(** The loop over the hook groups; [None] when iterating over a ["hooks"]
    value raises. *)
Fixpoint hooks_paths (hooks : list json) : option (list ppath) :=
  match hooks with
  | [] => Some []
  | hook :: rest =>
      found <~ (if Py.is_dict_with "hooks" hook then
                  sub_hooks <~ Py.iterate (Py.get_or_empty_list "hooks" hook) ;;
                  Some (flat_map sub_hook_paths sub_hooks)
                else Some []) ;;
      more <~ hooks_paths rest ;;
      Some (found ++ more)
  end.

(** [v.get(k, default)]; [None] is the [AttributeError] of a value that
    is not a dict. *)
Definition get (v : json) (k : string) (default : json) : option json :=
  match v with
  | JDict items =>
      Some (match Py.dict_get k items with Some x => x | None => default end)
  | _ => None
  end.

(** The scan of [settings.json]: the file is missing ([None]), does not
    parse ([Some None]: a warning is printed) or holds a document.  The
    result is [None] when an exception other than the two the scan catches
    is raised, which ends the whole scan. *)
Definition settings_paths (settings_file : option (option json))
  : option (list ppath) :=
  match settings_file with
  | Some (Some settings_data) =>
      hooks <~ get settings_data "hooks" (JDict []) ;;
      pre_tool_use_hooks <~ get hooks "PreToolUse" (JList []) ;;
      hooks <~ Py.iterate pre_tool_use_hooks ;;
      hooks_paths hooks
  | _ => Some []
  end.

(** [Path.resolve()] *)
Variable resolve : ppath -> path.

(** The uninstaller's [find_installations()]. *)
Definition find_installations (command_file : option string)
  (settings_file : option (option json)) : option (list path) :=
  let from_command_file := command_file_paths command_file in
  from_settings <~ settings_paths settings_file ;;
  Some (Uninstall.find_installations (fun p => p)
          (map resolve from_command_file) (map resolve from_settings)).

End Scan.

End Scanner.

(** ** What the patterns match *)

Section RegexFacts.

Import Re.

Variable R : Type.

(** Every character satisfies [p]. *)
Fixpoint all_chars (p : ascii -> bool) (s : string) : bool :=
  match s with
  | EmptyString => true
  | String c s' => p c && all_chars p s'
  end.

(** The longest head of [s] made of characters that satisfy [p], and what
    follows it. *)
Fixpoint span (p : ascii -> bool) (s : string) : string * string :=
  match s with
  | EmptyString => (EmptyString, EmptyString)
  | String c s' =>
      if p c then (String c (fst (span p s')), snd (span p s'))
      else (EmptyString, s)
  end.

Lemma span_app (p : ascii -> bool) (s : string) :
  s = fst (span p s) ^^ snd (span p s).
Proof.
  induction s as [|c s IH]; simpl; [reflexivity|].
  destruct (p c); simpl; congruence.
Qed.

Lemma span_rest (p : ascii -> bool) (s : string) :
  match snd (span p s) with
  | EmptyString => True
  | String d _ => p d = false
  end.
Proof.
  induction s as [|c s IH]; simpl; [exact I|].
  destruct (p c) eqn:Hc; simpl; assumption.
Qed.

Lemma all_chars_app (p : ascii -> bool) (a b : string) :
  all_chars p (a ^^ b) = all_chars p a && all_chars p b.
Proof.
  induction a as [|c a IH]; simpl; [reflexivity|].
  rewrite IH, andb_assoc; reflexivity.
Qed.

(** A head of [p]-characters moves into the span. *)
Lemma span_head (p : ascii -> bool) (u s : string) :
  all_chars p u = true ->
  span p (u ^^ s) = (u ^^ fst (span p s), snd (span p s)).
Proof.
  induction u as [|c u IH]; simpl; intros H.
  - destruct (span p s); reflexivity.
  - apply andb_true_iff in H as [Hc Hu]. rewrite Hc, (IH Hu). reflexivity.
Qed.

Lemma prefix_split (u s : string) :
  String.prefix u s = true -> s = u ^^ drop (String.length u) s.
Proof.
  revert s; induction u as [|c u IH]; intros s.
  - intros _. destruct s; reflexivity.
  - destruct s as [|d s]; simpl; [discriminate|].
    destruct (ascii_dec c d) as [->|]; [|discriminate].
    intros H. f_equal. apply IH, H.
Qed.

Lemma prefix_app_same (u s : string) : String.prefix u (u ^^ s) = true.
Proof.
  induction u as [|c u IH]; simpl; [destruct s; reflexivity|].
  destruct (ascii_dec c c); [exact IH|congruence].
Qed.

Lemma drop_app_length (u s : string) : drop (String.length u) (u ^^ s) = s.
Proof. induction u; simpl; auto. Qed.

(** A literal matches exactly when it is at the head. *)
Lemma run_lit (u s : string) (cs : captures)
  (k : string -> captures -> option R) :
  run R (lit u) s cs k
  = if String.prefix u s then k (drop (String.length u) s) cs else None.
Proof.
  revert s; induction u as [|c u IH]; intros s.
  - destruct s; reflexivity.
  - destruct s as [|d s]; simpl; [reflexivity|].
    destruct (ascii_dec c d) as [->|Hne].
    + rewrite Ascii.eqb_refl. apply IH.
    + apply Ascii.eqb_neq in Hne. rewrite Hne. reflexivity.
Qed.

(** A star with a continuation that always accepts takes the whole
    span. *)
Lemma star_greedy (p : ascii -> bool) (s : string)
  (k : string -> option R) (f : string -> R) :
  (forall s', k s' = Some (f s')) ->
  star R p s k = Some (f (snd (span p s))).
Proof.
  intros Hk. induction s as [|c s IH]; simpl; [apply Hk|].
  destruct (p c); simpl; [rewrite IH; reflexivity|apply Hk].
Qed.

(** What a successful star took, and what the continuation accepted. *)
Lemma star_sound (p : ascii -> bool) (s : string) (k : string -> option R)
  (x : R) :
  star R p s k = Some x ->
  exists a s', s = a ^^ s' /\ all_chars p a = true /\ k s' = Some x.
Proof.
  induction s as [|c s IH]; simpl.
  - intros H. exists "", "". auto.
  - destruct (p c) eqn:Hc.
    + destruct (star R p s k) as [y|] eqn:Hs.
      * intros H; injection H as <-.
        destruct (IH eq_refl) as [a [s' [-> [Ha Hk]]]].
        exists (String c a), s'. simpl. rewrite Hc, Ha. auto.
      * intros H. exists "", (String c s). auto.
    + intros H. exists "", (String c s). auto.
Qed.

End RegexFacts.

Arguments all_chars p s : simpl nomatch.

(** *** Plain paths are tokens *)

(** The pieces of [s] between spaces and double quotes. *)
Fixpoint tokens (s : string) : list string :=
  match s with
  | EmptyString => [EmptyString]
  | String c s' =>
      if Pattern.plain c then
        match tokens s' with
        | t :: ts => String c t :: ts
        | [] => [String c EmptyString]
        end
      else EmptyString :: tokens s'
  end.

Section Tokens.

Import Re.

Lemma prefix_in_span (p : ascii -> bool) (u s : string) :
  all_chars p u = true ->
  String.prefix u s = String.prefix u (fst (span p s)).
Proof.
  revert s; induction u as [|c u IH]; intros s Hu.
  - destruct s as [|d s]; simpl; [reflexivity|].
    destruct (p d); reflexivity.
  - simpl in Hu. apply andb_true_iff in Hu as [Hc Hu].
    destruct s as [|d s]; simpl; [reflexivity|].
    destruct (ascii_dec c d) as [->|Hne].
    + rewrite Hc. simpl. destruct (ascii_dec d d); [|congruence].
      apply IH, Hu.
    + destruct (p d); simpl; [|reflexivity].
      destruct (ascii_dec c d); [contradiction|reflexivity].
Qed.

(** A star followed by a literal of the same class and a continuation that
    depends only on what follows the whole run: the literal must occur in
    the run. *)
Lemma star_find {R} (p : ascii -> bool) (u s : string)
  (k : string -> option R) (g : string -> R) :
  all_chars p u = true ->
  (forall s1, k s1 = if String.prefix u s1
                     then Some (g (snd (span p (drop (String.length u) s1))))
                     else None) ->
  star R p s k = if contains u (fst (span p s))
                 then Some (g (snd (span p s))) else None.
Proof.
  intros Hu Hk.
  assert (Hhead : forall s1, String.prefix u s1 = true ->
                             snd (span p (drop (String.length u) s1))
                             = snd (span p s1)).
  { intros s1 H. rewrite (prefix_split _ _ H) at 2.
    rewrite (span_head p u _ Hu). reflexivity. }
  induction s as [|c s IH].
  - cbn [star span fst snd contains]. rewrite Hk, orb_false_r.
    destruct (String.prefix u "") eqn:Hp; [|reflexivity].
    rewrite (Hhead _ Hp). reflexivity.
  - cbn [star span]. destruct (p c) eqn:Hc; cbn [fst snd].
    + rewrite IH. cbn [contains].
      destruct (contains u (fst (span p s))) eqn:Hin.
      * rewrite orb_true_r. reflexivity.
      * rewrite orb_false_r, Hk.
        rewrite (prefix_in_span p u (String c s) Hu). cbn [span].
        rewrite Hc. cbn [fst].
        destruct (String.prefix u (String c (fst (span p s)))) eqn:Hp;
          [|reflexivity].
        rewrite Hhead.
        -- cbn [span]. rewrite Hc. reflexivity.
        -- rewrite (prefix_in_span p u (String c s) Hu). cbn [span].
           rewrite Hc. exact Hp.
    + rewrite Hk. cbn [contains]. rewrite orb_false_r.
      rewrite (prefix_in_span p u (String c s) Hu). cbn [span].
      rewrite Hc. cbn [fst].
      destruct (String.prefix u "") eqn:Hp; [|reflexivity].
      destruct u; [|discriminate Hp].
      cbn [String.length drop span]. rewrite Hc. reflexivity.
Qed.

Lemma tool_plain : all_chars Pattern.plain TOOL = true.
Proof. reflexivity. Qed.

(** The plain-path pattern matches at the head of [s] exactly when the
    run of plain characters there contains the tool's name, and then it
    takes the whole run. *)
Lemma match_simple_path (s : string) :
  match_ Pattern.simple_path s
  = if contains TOOL (fst (span Pattern.plain s))
    then Some ([], snd (span Pattern.plain s)) else None.
Proof.
  unfold match_, Pattern.simple_path. cbn [run].
  apply (star_find Pattern.plain TOOL s _ (fun rest => ([], rest)) tool_plain).
  intros s1. rewrite run_lit.
  destruct (String.prefix TOOL s1); [|reflexivity].
  apply (star_greedy _ Pattern.plain _ _ (fun rest => ([], rest))).
  reflexivity.
Qed.

Lemma findall_from_skip (r : regex) (s : string) (n : nat) :
  findall_from r s n = findall_from r (drop n s) 0.
Proof.
  revert n; induction s as [|c s IH]; intros [|n]; try reflexivity.
  simpl. apply IH.
Qed.

Lemma tokens_span (s : string) :
  tokens s
  = fst (span Pattern.plain s)
    :: match snd (span Pattern.plain s) with
       | EmptyString => []
       | String _ r => tokens r
       end.
Proof.
  induction s as [|c s IH]; [reflexivity|].
  cbn [tokens span]. destruct (Pattern.plain c); [|reflexivity].
  rewrite IH. reflexivity.
Qed.

Lemma length_app_string (a b : string) :
  String.length (a ^^ b) = String.length a + String.length b.
Proof. induction a; simpl; auto. Qed.

Lemma take_app_length (a b : string) : take (String.length a) (a ^^ b) = a.
Proof. induction a; simpl; [destruct b; reflexivity|congruence]. Qed.

Lemma contains_tail (sub : string) (c : ascii) (s : string) :
  contains sub s = true -> contains sub (String c s) = true.
Proof. intros H. cbn [contains]. rewrite H. apply orb_true_r. Qed.

(** The matches of the plain-path pattern, from left to right. *)
Lemma findall_simple_path (s : string) :
  Re.findall_from Pattern.simple_path s 0 = filter (contains TOOL) (tokens s).
Proof.
  remember (String.length s) as n eqn:Hn.
  assert (Hle : String.length s <= n) by lia. clear Hn.
  revert s Hle. induction n as [|n IH]; intros s Hle.
  - destruct s; [reflexivity|simpl in Hle; lia].
  - destruct s as [|c s]; [reflexivity|].
    cbn [Re.findall_from]. rewrite match_simple_path.
    rewrite (tokens_span (String c s)).
    pose proof (span_app Pattern.plain (String c s)) as Happ.
    pose proof (span_rest Pattern.plain (String c s)) as Hrest.
    destruct (span Pattern.plain (String c s)) as [t rest] eqn:Hsp.
    cbn [fst snd] in *. cbn [filter].
    assert (Hskip : Re.findall_from Pattern.simple_path rest 0
                    = filter (contains TOOL)
                        match rest with
                        | EmptyString => []
                        | String _ r => tokens r
                        end).
    { destruct rest as [|d r]; [reflexivity|].
      cbn [Re.findall_from]. rewrite match_simple_path. cbn [span].
      rewrite Hrest. cbn [fst contains]. 
      change (String.prefix TOOL "") with false. cbn [orb].
      apply IH.
      assert (String.length (String c s)
              = String.length t + String.length (String d r))
        by (rewrite Happ at 1; apply length_app_string).
      simpl in *. lia. }
    destruct (contains TOOL t) eqn:Hin.
    + destruct t as [|c0 t0]; [discriminate Hin|].
      assert (Hlen : String.length (String c s) - String.length rest
                     = S (String.length t0)).
      { rewrite Happ at 1. rewrite length_app_string.
        cbn [String.length]. lia. }
      rewrite Hlen. f_equal.
      * rewrite Happ. apply (take_app_length (String c0 t0)).
      * rewrite findall_from_skip.
        replace (drop (String.length t0) s) with rest; [exact Hskip|].
        simpl in Happ. injection Happ as _ ->.
        symmetry; apply drop_app_length.
    + rewrite <- Hskip. clear Hskip.
      cbn [span] in Hsp. destruct (Pattern.plain c) eqn:Hc.
      * injection Hsp as <- <-.
        rewrite (IH s) by (simpl in Hle; lia).
        rewrite (tokens_span s). cbn [filter].
        assert (Hin' : contains TOOL (fst (span Pattern.plain s)) = false).
        { destruct (contains TOOL (fst (span Pattern.plain s))) eqn:Hx;
            [|reflexivity].
          rewrite (contains_tail _ c _ Hx) in Hin. discriminate. }
        rewrite Hin'.
        destruct (snd (span Pattern.plain s)) as [|d r] eqn:Hr.
        -- reflexivity.
        -- cbn [Re.findall_from]. rewrite match_simple_path. cbn [span].
           pose proof (span_rest Pattern.plain s) as Hd. rewrite Hr in Hd.
           rewrite Hd. cbn [fst contains].
           change (String.prefix TOOL "") with false. cbn [orb].
           symmetry. apply IH.
           pose proof (span_app Pattern.plain s) as Hs. rewrite Hr in Hs.
           assert (String.length s
                   = String.length (fst (span Pattern.plain s))
                     + String.length (String d r))
             by (rewrite Hs at 1; apply length_app_string).
           simpl in *. lia.
      * injection Hsp as <- <-.
        cbn [Re.findall_from]. rewrite match_simple_path. cbn [span].
        rewrite Hc. cbn [fst contains].
        change (String.prefix TOOL "") with false. cbn [orb].
        reflexivity.
Qed.

End Tokens.

(** X21.  What [re.findall] extracts with the plain-path pattern
    ([[^ "]*claude-code-docs[^ "]*] in the source): cut the text at every
    space and every double quote and keep, in order, the pieces that
    contain [claude-code-docs].  No other character delimits a path: a tab
    or a newline inside a piece is part of it. *)
Theorem plain_paths_are_tokens (s : string) :
  Re.findall Pattern.simple_path s = filter (contains TOOL) (tokens s).
Proof. unfold Re.findall. apply findall_simple_path. Qed.


Example plain_paths_example :
  Re.findall Pattern.simple_path
    ("run " ^^ String Pattern.quote "" ^^ "/a b/claude-code-docs/x"
     ^^ String Pattern.quote "" ^^ " ~/.claude-code-docs/h.sh"
     ^^ String (ascii_of_nat 9) "" ^^ "check")
  = ["b/claude-code-docs/x";
     "~/.claude-code-docs/h.sh" ^^ String (ascii_of_nat 9) "" ^^ "check"].
Proof. reflexivity. Qed.

(** *** The directory pattern *)

Section DirectoryPattern.

Import Re.

Lemma take_all_app (a b : string) :
  take (String.length (a ^^ b) - String.length b) (a ^^ b) = a.
Proof.
  rewrite length_app_string.
  replace (String.length a + String.length b - String.length b)
    with (String.length a) by lia.
  apply take_app_length.
Qed.

Lemma startswith_slash (s : string) :
  startswith "/" s = true -> exists t, s = String "/" t.
Proof.
  intros H. apply prefix_split in H. exists (drop 1 s). exact H.
Qed.

Lemma slash_starts (t : string) : startswith "/" (String "/" t) = true.
Proof.
  unfold startswith. simpl.
  destruct (ascii_dec "/" "/"); [destruct t; reflexivity|congruence].
Qed.

(** What a match tells: the text is [a/claude-code-docs] followed by
    nothing, by a last newline, or by a slash and more, and group 1 is
    [a/claude-code-docs]. *)
Lemma directory_match_inv (s rest : string) (cs : captures) :
  match_ Pattern.directory s = Some (cs, rest) ->
  exists a tail,
    group 1 cs = Some (a ^^ "/" ^^ TOOL)
    /\ s = a ^^ "/" ^^ TOOL ^^ tail
    /\ (tail = "" \/ tail = String newline "" \/ startswith "/" tail = true).
Proof.
  unfold match_, Pattern.directory. cbn [run].
  intros H. apply star_sound in H as [a [s1 [Hs [Ha H]]]].
  rewrite run_lit in H.
  destruct (String.prefix ("/" ^^ TOOL) s1) eqn:Hp; [|discriminate].
  apply prefix_split in Hp.
  set (tail := drop (String.length ("/" ^^ TOOL)) s1) in *.
  assert (Hwhole : s = (a ^^ "/" ^^ TOOL) ^^ tail).
  { rewrite Hs, Hp at 1. rewrite !append_assoc. reflexivity. }
  assert (Hg : take (String.length s - String.length tail) s
               = a ^^ "/" ^^ TOOL).
  { rewrite Hwhole. apply take_all_app. }
  rewrite Hg in H. clear Hg.
  exists a, tail. rewrite Hwhole, !append_assoc.
  destruct tail as [|d t].
  - injection H as <- _. repeat split; auto.
  - destruct (Ascii.eqb "/" d) eqn:Hd.
    + apply Ascii.eqb_eq in Hd as <-.
      pose proof (slash_starts t) as Hstart.
      destruct (star _ Pattern.dot t _) as [x|] eqn:Hopt.
      * injection H as ->.
        apply star_sound in Hopt as [b [s3 [_ [_ Hk]]]].
        destruct s3 as [|c [|c' s3]]; [| |discriminate Hk].
        -- injection Hk as <- _. repeat split; auto.
        -- destruct (Ascii.eqb c newline); [|discriminate Hk].
           injection Hk as <- _. repeat split; auto.
      * destruct t as [|c' t]; discriminate H.
    + destruct t as [|c' t]; [|discriminate H].
      destruct (Ascii.eqb d newline) eqn:Hn; [|discriminate H].
      apply Ascii.eqb_eq in Hn as ->.
      injection H as <- _. repeat split; auto.
Qed.

(** A star can stop after any head made of its class, if no longer one
    does. *)
Lemma star_complete {R} (p : ascii -> bool) (a b : string)
  (k : string -> option R) :
  all_chars p a = true -> k b <> None -> star R p (a ^^ b) k <> None.
Proof.
  intros Ha Hk. induction a as [|c a IH]; simpl.
  - destruct b as [|d b]; simpl; [exact Hk|].
    destruct (p d); [|exact Hk].
    destruct (star R p b k); [discriminate|exact Hk].
  - simpl in Ha. apply andb_true_iff in Ha as [Hc Ha]. rewrite Hc.
    specialize (IH Ha). destruct (star R p (a ^^ b) k); [discriminate|].
    congruence.
Qed.

Lemma star_at_end {R} (p : ascii -> bool) (t : string)
  (k : string -> option R) :
  all_chars p t = true -> k "" <> None -> star R p t k <> None.
Proof.
  intros Ht Hk. rewrite <- (append_nil_r t). apply star_complete; assumption.
Qed.

Lemma directory_match_complete (a tail : string) :
  all_chars Pattern.dot (a ^^ "/" ^^ TOOL ^^ tail) = true ->
  tail = "" \/ startswith "/" tail = true ->
  match_ Pattern.directory (a ^^ "/" ^^ TOOL ^^ tail) <> None.
Proof.
  intros Hdot Htail.
  rewrite !all_chars_app in Hdot. rewrite !andb_true_iff in Hdot.
  destruct Hdot as [Ha [_ [_ Ht]]].
  unfold match_, Pattern.directory. cbn [run].
  change (a ^^ "/" ^^ TOOL ^^ tail) with (a ^^ ("/" ^^ TOOL) ^^ tail).
  apply star_complete; [exact Ha|].
  rewrite run_lit, prefix_app_same, drop_app_length.
  destruct Htail as [->|Hs].
  - discriminate.
  - apply startswith_slash in Hs as [t ->].
    simpl in Ht. cbn [Ascii.eqb Bool.eqb].
    match goal with
    | |- context [star ?R ?p t ?k] =>
        pose proof (star_at_end p t k Ht ltac:(discriminate)) as Hstar;
        destruct (star R p t k); [discriminate|congruence]
    end.
Qed.

Lemma split_separator (c : ascii) (a b : string) :
  split c (a ^^ String c b) = split c a ++ split c b.
Proof.
  induction a as [|d a IH]; simpl.
  - rewrite Ascii.eqb_refl. reflexivity.
  - destruct (Ascii.eqb d c); [rewrite IH; reflexivity|].
    rewrite IH. destruct (split c a) eqn:Ha;
      [exfalso; eapply split_nonempty; eauto|reflexivity].
Qed.

Lemma later_piece (c : ascii) (a b x : string) :
  In x (split c b) -> In x (tl (split c (a ^^ String c b))).
Proof.
  intros H. rewrite split_separator.
  destruct (split c a) eqn:Ha; [exfalso; eapply split_nonempty; eauto|].
  cbn [app tl]. apply in_or_app; right; exact H.
Qed.

(** The first piece of a text is its head up to the first separator. *)
Lemma first_piece (c : ascii) (s h : string) (r : list string) :
  split c s = h :: r ->
  exists t, s = h ^^ t /\ (t = "" \/ exists t', t = String c t').
Proof.
  revert h r; induction s as [|d s IH]; simpl; intros h r.
  - intros H; injection H as <- <-. exists ""; auto.
  - destruct (Ascii.eqb d c) eqn:Hd.
    + apply Ascii.eqb_eq in Hd as ->.
      intros H; injection H as <- _. exists (String c s); eauto.
    + destruct (split c s) as [|l ls] eqn:Hs;
        [exfalso; eapply split_nonempty; eauto|].
      intros H; injection H as <- _.
      destruct (IH l ls eq_refl) as [t [-> Ht]]. exists t; auto.
Qed.

(** A piece after the first stands between two separators, or after the
    last one. *)
Lemma piece_inv (c : ascii) (x s : string) :
  In x (tl (split c s)) ->
  exists a t, s = a ^^ String c (x ^^ t)
              /\ (t = "" \/ exists t', t = String c t').
Proof.
  induction s as [|d s IH]; simpl; [intros []|].
  destruct (Ascii.eqb d c) eqn:Hd.
  - apply Ascii.eqb_eq in Hd as ->. cbn [tl].
    destruct (split c s) as [|h r] eqn:Hs; [intros []|].
    intros [<-|Hin].
    + destruct (first_piece c s h r Hs) as [t [-> Ht]].
      exists "", t; auto.
    + destruct (IH Hin) as [a [t [-> Ht]]].
      exists (String c a), t; auto.
  - destruct (split c s) as [|h r] eqn:Hs;
      [exfalso; eapply split_nonempty; eauto|].
    cbn [tl] in *. intros Hin.
    destruct (IH Hin) as [a [t [-> Ht]]].
    exists (String d a), t; auto.
Qed.

Lemma tool_is_a_piece (a tail : string) :
  tail = "" \/ startswith "/" tail = true ->
  In TOOL (tl (split "/" (a ^^ "/" ^^ TOOL ^^ tail))).
Proof.
  intros H.
  change (a ^^ "/" ^^ TOOL ^^ tail) with (a ^^ String "/" (TOOL ^^ tail)).
  apply later_piece.
  destruct H as [->|H].
  - left; reflexivity.
  - apply startswith_slash in H as [t ->].
    rewrite (split_separator "/" TOOL t). left; reflexivity.
Qed.

End DirectoryPattern.

(** X22.  What the directory pattern (anything, a slash and the tool's
    name as group 1; then optionally a slash and anything; then the end)
    accepts in a text without a newline: [re.match] succeeds exactly when
    [claude-code-docs] is one of the pieces that follow a slash, and group 1
    then ends with such a piece.  The name must be a whole component: a
    directory such as [.claude-code-docs] or [claude-code-docs-old] is not
    cut out of a path, and a relative [claude-code-docs/x] is not
    recognised. *)
Theorem directory_pattern_accepts (s : string) :
  all_chars Pattern.dot s = true ->
  (In TOOL (tl (split "/" s)) ->
   exists cs rest, Re.match_ Pattern.directory s = Some (cs, rest))
  /\ (forall cs rest,
        Re.match_ Pattern.directory s = Some (cs, rest) ->
        In TOOL (tl (split "/" s))
        /\ exists a tail,
             Re.group 1 cs = Some (a ^^ "/" ^^ TOOL)
             /\ s = a ^^ "/" ^^ TOOL ^^ tail).
Proof.
  intros Hdot. split.
  - intros Hin. apply piece_inv in Hin as [a [t [Hs Ht]]].
    assert (Hnone : Re.match_ Pattern.directory s <> None).
    { rewrite Hs in Hdot |- *.
      apply (directory_match_complete a t Hdot).
      destruct Ht as [->|[t' ->]]; [auto|right; apply slash_starts]. }
    destruct (Re.match_ Pattern.directory s) as [[cs rest]|];
      [eauto|congruence].
  - intros cs rest Hm.
    destruct (directory_match_inv _ _ _ Hm) as [a [tail [Hg [Hs Htail]]]].
    split; [|eauto].
    destruct Htail as [Ht|[Ht|Ht]].
    + rewrite Hs. apply tool_is_a_piece; auto.
    + exfalso. rewrite Hs, Ht, !all_chars_app in Hdot.
      rewrite !andb_true_iff in Hdot. destruct Hdot as [_ [_ [_ Hq]]].
      discriminate Hq.
    + rewrite Hs. apply tool_is_a_piece; auto.
Qed.

Lemma directory_pattern_accepts_witness :
  (In TOOL (tl (split "/" "/srv/claude-code-docs/docs")) ->
   exists cs rest,
     Re.match_ Pattern.directory "/srv/claude-code-docs/docs"
     = Some (cs, rest))
  /\ (forall cs rest,
        Re.match_ Pattern.directory "/srv/claude-code-docs/docs"
        = Some (cs, rest) ->
        In TOOL (tl (split "/" "/srv/claude-code-docs/docs"))
        /\ exists a tail,
             Re.group 1 cs = Some (a ^^ "/" ^^ TOOL)
             /\ "/srv/claude-code-docs/docs" = a ^^ "/" ^^ TOOL ^^ tail).
Proof.
  apply (directory_pattern_accepts "/srv/claude-code-docs/docs").
  reflexivity.
Defined.

Example directory_pattern_whole_component :
  Re.match_ Pattern.directory "/home/u/.claude-code-docs/claude-docs-helper.sh"
  = None
  /\ Re.match_ Pattern.directory "/srv/claude-code-docs-old/x" = None
  /\ Re.match_ Pattern.directory "claude-code-docs/x" = None
  /\ Re.match_ Pattern.directory "/a/claude-code-docs/b/claude-code-docs/c"
     = Some ([(2, "/c"); (1, "/a/claude-code-docs/b/claude-code-docs")], "").
Proof. repeat split; reflexivity. Qed.

(** *** The scan and the hook writer fail together *)

Section ScanFails.

Variable home_str : string.
Variable is_dir : ppath -> bool.

Lemma hooks_paths_fails_iff (l : list json) :
  Scanner.hooks_paths home_str is_dir l = None
  <-> Install.clean_hooks l = None.
Proof.
  induction l as [|hook rest IH]; simpl; [split; discriminate|].
  destruct (Py.is_dict_with "hooks" hook); simpl.
  - destruct (Py.iterate (Py.get_or_empty_list "hooks" hook)); simpl;
      [|tauto].
    destruct (Scanner.hooks_paths home_str is_dir rest),
             (Install.clean_hooks rest); simpl;
      split; intros H; try discriminate; try reflexivity;
      exfalso; destruct IH as [I1 I2];
      try (specialize (I1 H); discriminate);
      try (specialize (I2 eq_refl); discriminate).
  - destruct (Scanner.hooks_paths home_str is_dir rest),
             (Install.clean_hooks rest); simpl;
      split; intros H; try discriminate; try reflexivity;
      exfalso; destruct IH as [I1 I2];
      try (specialize (I1 eq_refl); discriminate);
      try (specialize (I2 eq_refl); discriminate).
Qed.

Lemma settings_paths_fails_iff (hook_command : string) (doc : json) :
  Scanner.settings_paths home_str is_dir (Some (Some doc)) = None
  <-> Install.setup_claude_hooks_document hook_command doc = None.
Proof.
  destruct doc as [|b|n|s|l|items]; try (split; reflexivity).
  - cbn. destruct (contains "hooks" s); split; reflexivity.
  - cbn. destruct (existsb _ l); split; reflexivity.
  - rewrite setup_hooks_document_result.
    unfold setup_result, hooks_of, Scanner.settings_paths, Scanner.get.
    cbn [Py.obind].
    destruct (Py.dict_get "hooks" items) as [hooks|]; cbn [Py.obind].
    + destruct hooks as [|b|n|s|l|hitems]; try (split; reflexivity).
      cbn [Py.obind].
      destruct (Py.dict_get "PreToolUse" hitems) as [pre|]; cbn [Py.obind].
      * destruct (Py.iterate pre) as [original|]; cbn [Py.obind];
          [|split; reflexivity].
        rewrite hooks_paths_fails_iff.
        destruct (Install.clean_hooks original); cbn [Py.obind];
          split; intros H; try discriminate; reflexivity.
      * cbn. split; discriminate.
    + cbn. split; discriminate.
Qed.

End ScanFails.

(** X23.  The scan of the settings and the hook writer give up on the same
    documents.  [find_installations] lets an exception escape (only a JSON
    syntax error and a missing file are caught) exactly when
    [setup_claude_hooks] cannot rewrite the document: the settings are not
    an object, ["hooks"] is not an object, ["PreToolUse"] cannot be
    iterated, or a group's ["hooks"] value cannot be iterated.  What the
    command file holds makes no difference. *)
Theorem scan_fails_where_setup_fails (home_str hook_command : string)
  (is_dir : ppath -> bool) (resolve : ppath -> path)
  (command_file : option string) (doc : json) :
  Scanner.find_installations home_str is_dir resolve command_file
    (Some (Some doc)) = None
  <-> Install.setup_claude_hooks_document hook_command doc = None.
Proof.
  rewrite <- (settings_paths_fails_iff home_str is_dir hook_command doc).
  unfold Scanner.find_installations.
  destruct (Scanner.settings_paths home_str is_dir (Some (Some doc)));
    cbn [Py.obind]; split; intros H; try discriminate; reflexivity.
Qed.

Example scan_of_a_list_fails :
  Scanner.find_installations "/home/u" (fun _ => true) (fun p => parts p)
    None (Some (Some (JList []))) = None
  /\ Scanner.find_installations "/home/u" (fun _ => true) (fun p => parts p)
       None (Some (Some (JDict [("hooks", JNull)]))) = None
  /\ Scanner.find_installations "/home/u" (fun _ => true) (fun p => parts p)
       None (Some None) = Some [].
Proof. repeat split; reflexivity. Qed.

(** *** A standard installation leaves nothing for the scan to follow *)

(** A character of a path component the scan reads through: no
    whitespace, no double quote, no slash. *)
Definition clean_char (c : ascii) : bool :=
  negb (isspace c) && negb (Ascii.eqb c Pattern.quote)
  && negb (Ascii.eqb c "/").

(** Neither whitespace nor a double quote. *)
Definition quiet_char (c : ascii) : bool :=
  negb (isspace c) && negb (Ascii.eqb c Pattern.quote).

Definition clean_path (p : path) : bool := forallb (all_chars clean_char) p.

(** The components of a path, each after a slash. *)
Definition joined (p : path) : string :=
  fold_right (fun c acc => "/" ^^ c ^^ acc) "" p.

(** The two lines of the command file that hold the helper's path, as
    [setup_claude_command] writes them on a POSIX system. *)
Definition heading_line (helper_path : string) : string :=
  "Execute the Claude Code Docs helper script at " ^^ helper_path.

Definition execute_line (helper_path : string) : string :=
  "Execute: " ^^ helper_path ^^ " "
  ^^ String Pattern.quote ("$ARGUMENTS" ^^ String Pattern.quote "").

Section PathText.

Lemma all_chars_weaken (p q : ascii -> bool) (s : string) :
  (forall c, p c = true -> q c = true) ->
  all_chars p s = true -> all_chars q s = true.
Proof.
  intros Hpq. induction s as [|c s IH]; simpl; [reflexivity|].
  intros H. apply andb_true_iff in H as [Hc Hs].
  rewrite (Hpq c Hc), (IH Hs). reflexivity.
Qed.

Lemma clean_is_quiet (c : ascii) : clean_char c = true -> quiet_char c = true.
Proof.
  unfold clean_char, quiet_char. intros H.
  apply andb_true_iff in H as [H _]. exact H.
Qed.

Lemma joined_app (p q : path) : joined (p ++ q) = joined p ^^ joined q.
Proof.
  induction p as [|c p IH]; simpl; [reflexivity|].
  rewrite IH, append_assoc. reflexivity.
Qed.

Lemma str_path_joined (p : path) : p <> [] -> str_path p = joined p.
Proof. destruct p; [congruence|reflexivity]. Qed.

Lemma str_path_child (p : path) (c : string) :
  str_path (child p c) = joined (p ++ [c]).
Proof. apply str_path_joined. destruct p; discriminate. Qed.

Lemma joined_chars (pr : ascii -> bool) (p : path) :
  pr "/"%char = true ->
  forallb (all_chars pr) p = true -> all_chars pr (joined p) = true.
Proof.
  intros Hs. induction p as [|c p IH]; simpl; [reflexivity|].
  intros H. apply andb_true_iff in H as [Hc Hp].
  rewrite Hs, all_chars_app, Hc, (IH Hp). reflexivity.
Qed.

Lemma forallb_weaken {A} (f g : A -> bool) (l : list A) :
  (forall x, f x = true -> g x = true) ->
  forallb f l = true -> forallb g l = true.
Proof.
  intros Hfg. induction l as [|x l IH]; simpl; [reflexivity|].
  intros H. apply andb_true_iff in H as [Hx Hl].
  rewrite (Hfg x Hx), (IH Hl). reflexivity.
Qed.

Lemma joined_quiet (p : path) :
  clean_path p = true -> all_chars quiet_char (joined p) = true.
Proof.
  intros H. apply joined_chars; [reflexivity|].
  revert H. apply forallb_weaken. intros c. apply all_chars_weaken.
  exact clean_is_quiet.
Qed.

Lemma split_without_separator (c : ascii) (s : string) :
  all_chars (fun d => negb (Ascii.eqb d c)) s = true -> split c s = [s].
Proof.
  induction s as [|d s IH]; simpl; [reflexivity|].
  intros H. apply andb_true_iff in H as [Hd Hs].
  apply negb_true_iff in Hd. rewrite Hd, (IH Hs). reflexivity.
Qed.

Lemma clean_no_slash (s : string) :
  all_chars clean_char s = true ->
  all_chars (fun d => negb (Ascii.eqb d "/")) s = true.
Proof.
  apply all_chars_weaken. unfold clean_char. intros c H.
  apply andb_true_iff in H as [_ H]. exact H.
Qed.

(** Splitting the text of a path at the slashes gives its components
    back, after the empty piece before the first slash. *)
Lemma split_joined (p : path) :
  clean_path p = true -> split "/" (joined p) = "" :: p.
Proof.
  induction p as [|c p IH]; [reflexivity|].
  intros H. apply andb_true_iff in H as [Hc Hp].
  change (joined (c :: p)) with ("" ^^ String "/" (c ^^ joined p)).
  rewrite split_separator. cbn [split app]. f_equal.
  rewrite split_app, (IH Hp), (split_without_separator _ _ (clean_no_slash _ Hc)).
  cbn [glue]. rewrite append_nil_r. reflexivity.
Qed.

(** The directory pattern finds nothing in the text of a path none of
    whose components is the tool's name. *)
Lemma directory_of_foreign_path (p : path) :
  clean_path p = true -> ~ In TOOL p ->
  Re.match_ Pattern.directory (joined p) = None.
Proof.
  intros Hclean Hout.
  destruct (Re.match_ Pattern.directory (joined p)) as [[cs rest]|] eqn:Hm;
    [exfalso|reflexivity].
  destruct (directory_match_inv _ _ _ Hm) as [a [tail [_ [Hs Htail]]]].
  assert (Hin : In TOOL (tl (split "/" (joined p)))
                \/ tail = String newline "").
  { destruct Htail as [Ht|[Ht|Ht]]; [left|right; exact Ht|left];
      rewrite Hs; apply tool_is_a_piece; auto. }
  destruct Hin as [Hin|Ht].
  - rewrite (split_joined p Hclean) in Hin. contradiction.
  - pose proof (joined_quiet p Hclean) as Hq.
    rewrite Hs, Ht, !all_chars_app in Hq.
    rewrite !andb_true_iff in Hq. destruct Hq as [_ [_ [_ Hq]]].
    discriminate Hq.
Qed.

End PathText.

Section SearchFacts.

Import Re.

Lemma match_lit_head (u0 c : ascii) (u s : string) (r : regex) :
  Ascii.eqb u0 c = false ->
  match_ (Seq (lit (String u0 u)) r) (String c s) = None.
Proof. intros H. unfold match_. cbn [run lit]. rewrite H. reflexivity. Qed.

(** A search passes over a head that holds no first character of the
    literal the pattern starts with. *)
Lemma search_skip (u0 : ascii) (u a s : string) (r : regex) :
  all_chars (fun c => negb (Ascii.eqb u0 c)) a = true ->
  search (Seq (lit (String u0 u)) r) (a ^^ s)
  = search (Seq (lit (String u0 u)) r) s.
Proof.
  induction a as [|c a IH]; [reflexivity|].
  intros H. simpl in H. apply andb_true_iff in H as [Hc Ha].
  apply negb_true_iff in Hc.
  cbn [append search]. rewrite (match_lit_head u0 c u _ r Hc).
  exact (IH Ha).
Qed.

(** A pattern that starts with a literal is found only in a text that
    contains the literal. *)
Lemma search_needs_literal (u s : string) (r : regex) :
  contains u s = false -> search (Seq (lit u) r) s = None.
Proof.
  induction s as [|c s IH]; cbn [contains search]; intros H;
    apply orb_false_iff in H as [Hp Hs];
    unfold match_; cbn [run]; rewrite run_lit, Hp; [reflexivity|].
  exact (IH Hs).
Qed.

Lemma prefix_cons_inv (c d : ascii) (u s : string) :
  String.prefix (String c u) (String d s) = true ->
  c = d /\ String.prefix u s = true.
Proof. simpl. destruct (ascii_dec c d); [auto|discriminate]. Qed.

Ltac peel D Hp HD :=
  destruct D as [|? D];
  [simpl in Hp; discriminate Hp|];
  cbn [append] in Hp; apply prefix_cons_inv in Hp as [<- Hp];
  simpl in HD.

(** The first pattern needs whitespace right after [LOCAL]: it does not
    match inside a text without whitespace that is followed by a slash and
    a word. *)
Lemma v01_inside (D T : string) :
  all_chars Pattern.not_space D = true ->
  match_ Pattern.v01 (D ^^ "/claude" ^^ T) = None.
Proof.
  intros HD. unfold match_, Pattern.v01. cbn [run]. rewrite run_lit.
  destruct (String.prefix "LOCAL" (D ^^ "/claude" ^^ T)) eqn:Hp;
    [|reflexivity].
  do 5 (peel D Hp HD).
  cbn [String.length drop append]. unfold plus. cbn [run].
  destruct D as [|c D]; [reflexivity|].
  simpl in HD. apply andb_true_iff in HD as [Hc _].
  unfold Pattern.not_space in Hc. apply negb_true_iff in Hc.
  cbn [append]. rewrite Hc. reflexivity.
Qed.

Lemma search_v01_skip (a s : string) :
  all_chars (fun c => negb (Ascii.eqb "L" c)) a = true ->
  search Pattern.v01 (a ^^ s) = search Pattern.v01 s.
Proof. apply (search_skip "L" "OCAL"). Qed.

Lemma search_v01_inside (D T : string) :
  all_chars Pattern.not_space D = true ->
  search Pattern.v01 (D ^^ "/claude" ^^ T) = search Pattern.v01 T.
Proof.
  induction D as [|c D IH]; intros HD.
  - apply (search_v01_skip "/claude" T). reflexivity.
  - pose proof (v01_inside (String c D) T HD) as Hm.
    cbn [append search] in *. rewrite Hm.
    simpl in HD. apply andb_true_iff in HD as [_ HD]. exact (IH HD).
Qed.

(** No quoted path in a text without a double quote. *)
Lemma findall_quoted_none (s : string) (n : nat) :
  all_chars Pattern.unquoted s = true ->
  findall_from Pattern.quoted_path s n = [].
Proof.
  revert n; induction s as [|c s IH]; intros n H; [reflexivity|].
  simpl in H. apply andb_true_iff in H as [Hc Hs].
  cbn [findall_from]. destruct n as [|n]; [|exact (IH n Hs)].
  unfold Pattern.unquoted in Hc. apply negb_true_iff in Hc.
  unfold match_, Pattern.quoted_path. cbn [run].
  rewrite Ascii.eqb_sym, Hc. exact (IH 0 Hs).
Qed.

Lemma tokens_nonempty (s : string) : tokens s <> [].
Proof.
  destruct s as [|c s]; simpl; [discriminate|].
  destruct (Pattern.plain c); [|discriminate].
  destruct (tokens s); discriminate.
Qed.

Lemma tokens_separator (a b : string) (c : ascii) :
  Pattern.plain c = false ->
  tokens (a ^^ String c b) = tokens a ++ tokens b.
Proof.
  intros Hc. induction a as [|d a IH]; simpl.
  - rewrite Hc. reflexivity.
  - rewrite IH. destruct (Pattern.plain d); [|reflexivity].
    destruct (tokens a) eqn:Ha; [exfalso; eapply tokens_nonempty; eauto|].
    reflexivity.
Qed.

Lemma tokens_plain (a : string) :
  all_chars Pattern.plain a = true -> tokens a = [a].
Proof.
  induction a as [|c a IH]; simpl; [reflexivity|].
  intros H. apply andb_true_iff in H as [Hc Ha].
  rewrite Hc, (IH Ha). reflexivity.
Qed.

End SearchFacts.

Section StandardInstallation.

Variable home_str : string.
Variable is_dir : ppath -> bool.
Variable install_dir : path.

Hypothesis clean : clean_path install_dir = true.
Hypothesis foreign : ~ In TOOL install_dir.

Let helper_path : string := joined (install_dir ++ ["claude-docs-helper.sh"]).

Hypothesis helper_is_no_directory :
  is_dir (PosixPath.Path helper_path) = false.

Lemma helper_clean : clean_path (install_dir ++ ["claude-docs-helper.sh"]) = true.
Proof. unfold clean_path. rewrite forallb_app. fold (clean_path install_dir).
  rewrite clean. reflexivity. Qed.

Lemma helper_foreign : ~ In TOOL (install_dir ++ ["claude-docs-helper.sh"]).
Proof.
  intros H. apply in_app_or in H as [H|[H|[]]]; [contradiction|discriminate H].
Qed.

Lemma helper_quiet : all_chars quiet_char helper_path = true.
Proof. apply joined_quiet, helper_clean. Qed.

Lemma quiet_is_plain (c : ascii) : quiet_char c = true -> Pattern.plain c = true.
Proof.
  unfold quiet_char, Pattern.plain. intros H.
  apply andb_true_iff in H as [Hs Hq]. rewrite Hq, andb_true_r.
  destruct (Ascii.eqb c Pattern.space) eqn:Hc; [|reflexivity].
  apply Ascii.eqb_eq in Hc as ->. discriminate Hs.
Qed.

Lemma helper_plain : all_chars Pattern.plain helper_path = true.
Proof. exact (all_chars_weaken _ _ _ quiet_is_plain helper_quiet). Qed.

Lemma helper_unquoted : all_chars Pattern.unquoted helper_path = true.
Proof.
  apply (all_chars_weaken quiet_char); [|exact helper_quiet].
  unfold quiet_char, Pattern.unquoted. intros c H.
  apply andb_true_iff in H as [_ H]. exact H.
Qed.

Lemma directory_not_spaced :
  all_chars Pattern.not_space (joined install_dir) = true.
Proof.
  apply (all_chars_weaken quiet_char); [|exact (joined_quiet _ clean)].
  unfold quiet_char, Pattern.not_space. intros c H.
  apply andb_true_iff in H as [H _]. exact H.
Qed.

Lemma helper_text :
  helper_path = joined install_dir ^^ "/claude" ^^ "-docs-helper.sh".
Proof. unfold helper_path. rewrite joined_app. reflexivity. Qed.

Lemma helper_head : exists t, helper_path = String "/" t.
Proof. unfold helper_path. destruct install_dir; simpl; eauto. Qed.

Lemma helper_expand : Scanner.expand_user home_str helper_path = helper_path.
Proof.
  destruct helper_head as [t ->]. reflexivity.
Qed.

Lemma helper_truthy : truthy helper_path = true.
Proof. destruct helper_head as [t ->]. reflexivity. Qed.

Lemma helper_directory : Re.match_ Pattern.directory helper_path = None.
Proof. apply directory_of_foreign_path; [exact helper_clean|exact helper_foreign]. Qed.

Lemma last_in_or_default {A} (l : list A) (d : A) :
  last l d = d \/ In (last l d) l.
Proof.
  induction l as [|x l IH]; [left; reflexivity|].
  destruct l as [|y l]; [right; left; reflexivity|].
  destruct IH as [IH|IH]; [left; exact IH|right; right; exact IH].
Qed.

(** The directory that holds the helper is not named after the tool. *)
Lemma helper_parent_name :
  String.eqb (PosixPath.name (PosixPath.parent (PosixPath.Path helper_path)))
    TOOL = false.
Proof.
  unfold PosixPath.name, PosixPath.parent, PosixPath.Path. cbn [parts].
  unfold helper_path.
  change PosixPath.slash with "/"%char.
  rewrite (split_joined _ helper_clean). cbn [filter].
  change (negb (("" =? "")%string || ("" =? ".")%string)) with false.
  cbv iota. rewrite filter_app. cbn [filter].
  change (negb (("claude-docs-helper.sh" =? "")%string
                || ("claude-docs-helper.sh" =? ".")%string)) with true.
  cbv iota. rewrite removelast_last.
  apply String.eqb_neq.
  destruct (last_in_or_default
              (filter (fun c => negb ((c =? "")%string || (c =? ".")%string))
                      install_dir) "") as [-> | Hin]; [discriminate|].
  intros Heq. rewrite Heq in Hin. apply filter_In in Hin as [Hin _].
  contradiction.
Qed.

(** What the branch for an [Execute:] line yields once the first plain
    path is the helper's. *)
Lemma helper_token_yields_nothing :
  (let path := PosixPath.Path (Scanner.expand_user home_str helper_path) in
   if is_dir path then [path]
   else if is_dir (PosixPath.parent path)
           && String.eqb (PosixPath.name (PosixPath.parent path)) TOOL
        then [PosixPath.parent path]
        else []) = [].
Proof.
  cbv zeta. rewrite helper_expand, helper_is_no_directory, helper_parent_name.
  rewrite andb_false_r. reflexivity.
Qed.

Lemma line_yields_nothing (raw : string) (found : list string) :
  Re.search Pattern.v01 (strip raw) = None ->
  Re.findall Pattern.simple_path (strip raw)
  = filter (contains TOOL) (helper_path :: found) ->
  filter (contains TOOL) found = [] ->
  Scanner.command_line_paths home_str is_dir raw = [].
Proof.
  intros Hv Hf Hnone. unfold Scanner.command_line_paths. cbv zeta.
  rewrite Hv, Hf. cbn [app filter].
  destruct (Re.search Pattern.execute (strip raw)); [|reflexivity].
  destruct (contains TOOL helper_path).
  - exact helper_token_yields_nothing.
  - rewrite Hnone. reflexivity.
Qed.

Lemma heading_line_yields_nothing (raw : string) :
  strip raw = heading_line helper_path ->
  Scanner.command_line_paths home_str is_dir raw = [].
Proof.
  intros Hraw.
  apply (line_yields_nothing raw []); try rewrite Hraw; unfold heading_line.
  - rewrite (search_v01_skip
               "Execute the Claude Code Docs helper script at ")
      by reflexivity.
    rewrite helper_text.
    rewrite (search_v01_inside _ _ directory_not_spaced). reflexivity.
  - unfold Re.findall. rewrite findall_simple_path.
    change ("Execute the Claude Code Docs helper script at " ^^ helper_path)
      with ("Execute the Claude Code Docs helper script at"
            ^^ String " " helper_path).
    rewrite tokens_separator by reflexivity.
    rewrite (tokens_plain _ helper_plain), filter_app. cbn [filter].
    destruct (contains TOOL helper_path); reflexivity.
  - reflexivity.
Qed.

Lemma execute_line_yields_nothing (raw : string) :
  strip raw = execute_line helper_path ->
  Scanner.command_line_paths home_str is_dir raw = [].
Proof.
  intros Hraw.
  apply (line_yields_nothing raw [""; "$ARGUMENTS"; ""]);
    try rewrite Hraw; unfold execute_line.
  - rewrite (search_v01_skip "Execute: ") by reflexivity.
    rewrite helper_text, !append_assoc.
    rewrite (search_v01_inside _ _ directory_not_spaced). reflexivity.
  - unfold Re.findall. rewrite findall_simple_path.
    change ("Execute: " ^^ helper_path ^^ " "
            ^^ String Pattern.quote ("$ARGUMENTS" ^^ String Pattern.quote ""))
      with ("Execute:" ^^ String " "
              (helper_path ^^ String " "
                 (String Pattern.quote
                    ("$ARGUMENTS" ^^ String Pattern.quote "")))).
    rewrite !tokens_separator by reflexivity.
    rewrite (tokens_plain _ helper_plain), !filter_app. cbn [filter].
    destruct (contains TOOL helper_path); reflexivity.
  - reflexivity.
Qed.

Lemma other_line_yields_nothing (raw : string) :
  contains "LOCAL" (strip raw) = false ->
  contains "Execute:" (strip raw) = false ->
  Scanner.command_line_paths home_str is_dir raw = [].
Proof.
  intros Hl He. unfold Scanner.command_line_paths. cbv zeta.
  unfold Pattern.v01 at 1. rewrite (search_needs_literal _ _ _ Hl).
  unfold Pattern.execute. rewrite (search_needs_literal _ _ _ He).
  reflexivity.
Qed.

Lemma flat_map_nothing {A B} (f : A -> list B) (l : list A) :
  (forall x, In x l -> f x = []) -> flat_map f l = [].
Proof.
  induction l as [|x l IH]; intros H; [reflexivity|].
  simpl. rewrite (H x (or_introl eq_refl)), IH; [reflexivity|].
  intros y Hy. apply H. right; exact Hy.
Qed.

(** The hook command holds one path, the helper's, and it leads
    nowhere. *)
Lemma hook_command_yields_nothing :
  Scanner.command_paths home_str is_dir (helper_path ^^ " hook-check") = [].
Proof.
  unfold Scanner.command_paths, Re.findall.
  rewrite findall_quoted_none
    by (rewrite all_chars_app, helper_unquoted; reflexivity).
  rewrite findall_simple_path.
  rewrite tokens_separator by reflexivity.
  rewrite (tokens_plain _ helper_plain). cbn [flat_map app filter].
  change (contains TOOL "hook-check") with false. cbv iota.
  destruct (contains TOOL helper_path); [|reflexivity].
  cbn [flat_map]. rewrite helper_truthy. cbn [negb].
  rewrite helper_expand, helper_directory, helper_is_no_directory.
  reflexivity.
Qed.

Lemma sub_hook_foreign (sub_hook : json) :
  Install.sub_hook_names_tool sub_hook = false ->
  Scanner.sub_hook_paths home_str is_dir sub_hook = [].
Proof.
  unfold Install.sub_hook_names_tool, Scanner.sub_hook_paths.
  destruct sub_hook as [| | | | |items]; try reflexivity.
  destruct (Py.dict_get "command" items) as [[| | |cmd| |]|]; try reflexivity.
  intros ->. reflexivity.
Qed.

(** The groups the installer keeps are groups the scan passes over. *)
Lemma hooks_paths_cleaned (original cleaned : list json) :
  Install.clean_hooks original = Some cleaned ->
  Scanner.hooks_paths home_str is_dir cleaned = Some [].
Proof.
  revert cleaned; induction original as [|hook rest IH]; simpl;
    intros cleaned.
  - intros H; injection H as <-; reflexivity.
  - destruct (Py.is_dict_with "hooks" hook) eqn:Hd; simpl.
    + destruct (Py.iterate (Py.get_or_empty_list "hooks" hook))
        as [subs|] eqn:Hi; simpl; [|discriminate].
      destruct (Install.clean_hooks rest) as [c|]; simpl; [|discriminate].
      specialize (IH c eq_refl).
      destruct (existsb Install.sub_hook_names_tool subs) eqn:He; simpl;
        intros H; injection H as <-; [exact IH|].
      simpl. rewrite Hd, Hi. simpl. rewrite IH. simpl.
      rewrite flat_map_nothing; [reflexivity|].
      intros x Hx. apply sub_hook_foreign.
      destruct (Install.sub_hook_names_tool x) eqn:Hn; [|reflexivity].
      assert (existsb Install.sub_hook_names_tool subs = true)
        by (apply existsb_exists; eauto).
      congruence.
    + destruct (Install.clean_hooks rest) as [c|]; simpl; [|discriminate].
      intros H; injection H as <-. simpl. rewrite Hd. simpl.
      rewrite (IH c eq_refl). reflexivity.
Qed.

Lemma hooks_paths_app (a b : list json) :
  Scanner.hooks_paths home_str is_dir (a ++ b)
  = (fa <~ Scanner.hooks_paths home_str is_dir a ;;
     fb <~ Scanner.hooks_paths home_str is_dir b ;;
     Some (fa ++ fb)).
Proof.
  induction a as [|x a IH]; simpl.
  - destruct (Scanner.hooks_paths home_str is_dir b); reflexivity.
  - destruct (if Py.is_dict_with "hooks" x then _ else _) as [found|];
      simpl; [|reflexivity].
    rewrite IH.
    destruct (Scanner.hooks_paths home_str is_dir a) as [fa|]; simpl;
      [|reflexivity].
    destruct (Scanner.hooks_paths home_str is_dir b) as [fb|]; simpl;
      [|reflexivity].
    rewrite app_assoc. reflexivity.
Qed.

Lemma new_hook_yields_nothing :
  Scanner.hooks_paths home_str is_dir
    [Install.new_hook (helper_path ^^ " hook-check")] = Some [].
Proof.
  cbn [Scanner.hooks_paths Install.new_hook Py.is_dict_with Py.dict_has
       existsb fst String.eqb Ascii.eqb Bool.eqb orb].
  cbn. destruct (contains TOOL (helper_path ^^ " hook-check"));
    [rewrite hook_command_yields_nothing|]; reflexivity.
Qed.

(** The settings [setup_claude_hooks] wrote hold nothing the scan
    follows. *)
Lemma written_settings_yield_nothing (settings_data doc : json) :
  Install.setup_claude_hooks_document (helper_path ^^ " hook-check")
    settings_data = Some doc ->
  Scanner.settings_paths home_str is_dir (Some (Some doc)) = Some [].
Proof.
  destruct settings_data as [|b|n|s|l|items]; try discriminate.
  - cbn. destruct (contains "hooks" s); discriminate.
  - cbn. destruct (existsb _ l); discriminate.
  - rewrite setup_hooks_document_result. unfold setup_result.
    destruct (hooks_of items) as [[| | | | |hitems]|]; try discriminate.
    destruct (match Py.dict_get "PreToolUse" hitems with
              | Some o => Py.iterate o
              | None => Some []
              end) as [original|]; cbn [Py.obind]; [|discriminate].
    destruct (Install.clean_hooks original) as [cleaned|] eqn:Hc;
      cbn [Py.obind]; [|discriminate].
    intros H; injection H as <-.
    unfold Scanner.settings_paths, Scanner.get.
    rewrite dict_get_set_eq. cbn [Py.obind].
    rewrite dict_get_set_eq. cbn [Py.obind Py.iterate].
    rewrite hooks_paths_app, (hooks_paths_cleaned _ _ Hc).
    cbn [Py.obind]. rewrite new_hook_yields_nothing. reflexivity.
Qed.

End StandardInstallation.

(** X24.  The uninstaller does not find a standard installation.  Take an
    install directory whose components hold no whitespace, double quote or
    slash and none of which is [claude-code-docs] (the default is
    [.claude-code-docs] under the home directory), with the helper script
    in it a file.  Let the settings be what [setup_claude_hooks] wrote, and
    let every line of the command file be the heading or the [Execute:]
    line [setup_claude_command] writes, or hold neither [LOCAL] nor
    [Execute:].  Then [find_installations] returns the empty list: no
    pattern of the scan leads from the helper's path back to the directory
    that holds it. *)
Theorem standard_installation_is_not_found
  (home_str text : string) (is_dir : ppath -> bool)
  (resolve : ppath -> path) (install_dir : path)
  (settings_data doc : json) :
  clean_path install_dir = true ->
  ~ In TOOL install_dir ->
  is_dir (PosixPath.Path (str_path (child install_dir "claude-docs-helper.sh")))
  = false ->
  (forall raw, In raw (split newline text) ->
     strip raw = heading_line (str_path (child install_dir "claude-docs-helper.sh"))
     \/ strip raw = execute_line (str_path (child install_dir "claude-docs-helper.sh"))
     \/ (contains "LOCAL" (strip raw) = false
         /\ contains "Execute:" (strip raw) = false)) ->
  Install.setup_claude_hooks_document (Install.hook_command install_dir false)
    settings_data = Some doc ->
  Scanner.find_installations home_str is_dir resolve (Some text)
    (Some (Some doc)) = Some [].
Proof.
  unfold Install.hook_command. rewrite str_path_child.
  intros Hclean Hforeign Hfile Hlines Hdoc.
  unfold Scanner.find_installations.
  rewrite (written_settings_yield_nothing home_str is_dir install_dir
             Hclean Hforeign Hfile _ _ Hdoc).
  cbn [Py.obind]. unfold Scanner.command_file_paths.
  rewrite flat_map_nothing; [reflexivity|].
  intros raw Hin. destruct (Hlines raw Hin) as [H|[H|[Hl He]]].
  - apply (heading_line_yields_nothing home_str is_dir install_dir
             Hclean Hforeign Hfile raw H).
  - apply (execute_line_yields_nothing home_str is_dir install_dir
             Hclean Hforeign Hfile raw H).
  - apply other_line_yields_nothing; assumption.
Qed.

(** A home directory with the standard installation in it: every path
    but the helper script is taken for a directory. *)
Definition standard_dir : path := ["home"; "u"; ".claude-code-docs"].

Definition standard_is_dir (p : ppath) : bool :=
  negb (String.eqb (PosixPath.name p) "claude-docs-helper.sh").

Definition standard_command_file : string :=
  heading_line "/home/u/.claude-code-docs/claude-docs-helper.sh"
  ^^ String newline "" ^^ String newline ""
  ^^ "Usage:" ^^ String newline ""
  ^^ "- /docs - List all available documentation topics"
  ^^ String newline "" ^^ String newline ""
  ^^ execute_line "/home/u/.claude-code-docs/claude-docs-helper.sh"
  ^^ String newline "".

Definition standard_settings : json :=
  JDict [("hooks",
          JDict [("PreToolUse",
                  JList [Install.new_hook
                           "/home/u/.claude-code-docs/claude-docs-helper.sh hook-check"])])].

Lemma standard_installation_is_not_found_witness :
  Scanner.find_installations "/home/u" standard_is_dir (fun p => parts p)
    (Some standard_command_file) (Some (Some standard_settings)) = Some [].
Proof.
  apply (standard_installation_is_not_found "/home/u" standard_command_file
           standard_is_dir (fun p => parts p) standard_dir (JDict [])
           standard_settings).
  - reflexivity.
  - intros [H|[H|[H|[]]]]; discriminate H.
  - reflexivity.
  - intros raw [<-|[<-|[<-|[<-|[<-|[<-|[<-|[]]]]]]]];
      first [left; reflexivity
            |right; left; reflexivity
            |right; right; split; reflexivity].
  - reflexivity.
Defined.

(** The same files with the directory named [claude-code-docs]: now both
    the command file and the hook lead to it. *)
Example named_installation_is_found :
  Scanner.find_installations "/home/u" standard_is_dir (fun p => parts p)
    (Some (execute_line "/home/u/claude-code-docs/claude-docs-helper.sh"))
    (Some None)
  = Some [["home"; "u"; "claude-code-docs"]]
  /\ Scanner.find_installations "/home/u" standard_is_dir (fun p => parts p)
       None
       (Some (Some (JDict [("hooks",
          JDict [("PreToolUse",
                  JList [Install.new_hook
                           "~/claude-code-docs/claude-docs-helper.sh hook-check"])])])))
     = Some [["home"; "u"; "claude-code-docs"]].
Proof. split; reflexivity. Qed.

(** *** The scan reports directories only *)

Section ReportsDirectories.

Variable home_str : string.
Variable is_dir : ppath -> bool.

Let all_dirs (l : list ppath) : Prop := Forall (fun p => is_dir p = true) l.

Lemma command_line_paths_dirs (raw : string) :
  all_dirs (Scanner.command_line_paths home_str is_dir raw).
Proof.
  unfold all_dirs, Scanner.command_line_paths. cbv zeta.
  apply Forall_app; split.
  - destruct (Re.search Pattern.v01 (strip raw)) as [[cs rest]|];
      [|constructor].
    destruct (Re.group 1 cs) as [path_str|]; [|constructor].
    destruct (is_dir _) eqn:Hd; repeat constructor; exact Hd.
  - destruct (Re.search Pattern.execute (strip raw)); [|constructor].
    destruct (Re.findall Pattern.simple_path (strip raw)) as [|path_str ?];
      [constructor|].
    destruct (is_dir (PosixPath.Path _)) eqn:Hd;
      [repeat constructor; exact Hd|].
    destruct (is_dir (PosixPath.parent _)) eqn:Hp; [|constructor].
    cbn [andb]. destruct (String.eqb _ TOOL); repeat constructor; exact Hp.
Qed.

Lemma command_paths_dirs (cmd : string) :
  all_dirs (Scanner.command_paths home_str is_dir cmd).
Proof.
  unfold all_dirs, Scanner.command_paths.
  apply Forall_app; split; apply Forall_flat_map, Forall_forall;
    intros path_str _.
  - destruct (negb _); [constructor|].
    destruct (Re.match_ Pattern.directory _) as [[cs rest]|]; [|constructor].
    destruct (Re.group 1 cs); [|constructor].
    destruct (is_dir _) eqn:Hd; repeat constructor; exact Hd.
  - destruct (negb _); [constructor|]. cbv zeta.
    destruct (is_dir _) eqn:Hd; repeat constructor; exact Hd.
Qed.

Lemma sub_hook_paths_dirs (sub_hook : json) :
  all_dirs (Scanner.sub_hook_paths home_str is_dir sub_hook).
Proof.
  unfold Scanner.sub_hook_paths.
  destruct sub_hook as [| | | | |items]; try constructor.
  destruct (Py.dict_get "command" items) as [[| | |cmd| |]|];
    try constructor.
  destruct (contains TOOL cmd); [apply command_paths_dirs|constructor].
Qed.

Lemma hooks_paths_dirs (hooks : list json) (found : list ppath) :
  Scanner.hooks_paths home_str is_dir hooks = Some found -> all_dirs found.
Proof.
  revert found; induction hooks as [|hook rest IH]; simpl; intros found.
  - intros H; injection H as <-; constructor.
  - destruct (Scanner.hooks_paths home_str is_dir rest) as [more|].
    + specialize (IH more eq_refl).
      destruct (Py.is_dict_with "hooks" hook); simpl.
      * destruct (Py.iterate _) as [subs|]; simpl; [|discriminate].
        intros H; injection H as <-. apply Forall_app; split; [|exact IH].
        apply Forall_flat_map, Forall_forall. intros x _.
        apply sub_hook_paths_dirs.
      * intros H; injection H as <-. exact IH.
    + destruct (Py.is_dict_with "hooks" hook); simpl; [|discriminate].
      destruct (Py.iterate _); simpl; discriminate.
Qed.

Lemma settings_paths_dirs (settings_file : option (option json))
  (found : list ppath) :
  Scanner.settings_paths home_str is_dir settings_file = Some found ->
  all_dirs found.
Proof.
  unfold Scanner.settings_paths.
  destruct settings_file as [[settings_data|]|];
    try (intros H; injection H as <-; constructor).
  destruct (Scanner.get settings_data "hooks" (JDict [])) as [hooks|];
    cbn [Py.obind]; [|discriminate].
  destruct (Scanner.get hooks "PreToolUse" (JList [])) as [pre|];
    cbn [Py.obind]; [|discriminate].
  destruct (Py.iterate pre) as [l|]; cbn [Py.obind]; [|discriminate].
  apply hooks_paths_dirs.
Qed.

Lemma command_file_paths_dirs (command_file : option string) :
  all_dirs (Scanner.command_file_paths home_str is_dir command_file).
Proof.
  destruct command_file as [text|]; [|constructor].
  apply Forall_flat_map, Forall_forall. intros raw _.
  apply command_line_paths_dirs.
Qed.

End ReportsDirectories.

(** X25.  Whatever the two files hold, [find_installations] reports
    nothing but directories: each path of the result is the resolved form
    of a path that [is_dir] accepted during the scan. *)
Theorem scan_reports_directories (home_str : string)
  (is_dir : ppath -> bool) (resolve : ppath -> path)
  (command_file : option string) (settings_file : option (option json))
  (found : list path) (q : path) :
  Scanner.find_installations home_str is_dir resolve command_file
    settings_file = Some found ->
  In q found ->
  exists p, is_dir p = true /\ resolve p = q.
Proof.
  unfold Scanner.find_installations.
  destruct (Scanner.settings_paths home_str is_dir settings_file)
    as [from_settings|] eqn:Hs; cbn [Py.obind]; [|discriminate].
  intros H Hin. injection H as <-.
  unfold Uninstall.find_installations in Hin.
  apply (proj1 (sort_in _ _)) in Hin.
  destruct (uninstall_deduplicate_invariant (fun p => p)
              (map resolve (Scanner.command_file_paths home_str is_dir
                              command_file)
               ++ map resolve from_settings)) as [_ [_ Hmem]].
  apply Hmem in Hin as [_ Hin]. rewrite map_id, <- map_app in Hin.
  apply in_map_iff in Hin as [p [Hp Hin]]. exists p. split; [|exact Hp].
  pose proof (command_file_paths_dirs home_str is_dir command_file) as Hc.
  pose proof (settings_paths_dirs home_str is_dir _ _ Hs) as Hd.
  cbv zeta in Hc, Hd. rewrite Forall_forall in Hc, Hd.
  apply in_app_or in Hin as [Hin|Hin]; auto.
Qed.

Lemma scan_reports_directories_witness :
  exists p,
    standard_is_dir p = true
    /\ parts p = ["home"; "u"; "claude-code-docs"].
Proof.
  apply (scan_reports_directories "/home/u" standard_is_dir
           (fun p => parts p)
           (Some (execute_line "/home/u/claude-code-docs/claude-docs-helper.sh"))
           (Some None) [["home"; "u"; "claude-code-docs"]]).
  - reflexivity.
  - left; reflexivity.
Defined.
